(** * FnOS UI Mods: the file-patching engine of [server.js]

    A shallow embedding of the backup manager ([ensureBackup],
    [restoreOriginal]) and of the content patcher ([readTextFromPath],
    [injectBlock], [injectCode]) of [app/server/server.js], with the
    properties of the patch cycle proved over it.

    Modelling conventions.
    - Text is a [string]; one [ascii] stands for one character of the decoded
      text, so texts range over 256 characters.  The markers and the
      delimiters written by the server are ASCII.  The messages of the
      server are kept as the bytes of their UTF-8 encoding.
    - The file system is a finite map from (canonical) path strings to nodes;
      a node is a regular file with its content and permission bits, or a
      directory.  Symbolic links, hard links, parent directories and access
      rights of the server process are not modelled: every existing node can
      be read and written, and a file can be created at every path.
    - An [async] function is a computation in a state-and-exception monad over
      the file system: a thrown error keeps the writes made before it.  One
      call runs at a time.
    - What the source draws from its environment is a parameter: the scratch
      file names of [injectBlock], and the file-creation mask of the
      process. *)

From Stdlib Require Import ZArith Ascii String List Bool Lia.
From stdpp Require Import base option gmap strings list fin_maps.

Local Open Scope string_scope.
Local Open Scope Z_scope.

#[local] Arguments String.append !s1 s2 : simpl nomatch.

(** ** JavaScript strings *)

Definition LF : ascii := "010"%char.
Definition CR : ascii := "013"%char.

(** The one-character string ["\n"]. *)
Definition NL : string := String LF EmptyString.

(** [marker] occurs at position 0 of [line]. *)
Fixpoint startsWith (line marker : string) : bool :=
  match marker, line with
  | EmptyString, _ => true
  | String _ _, EmptyString => false
  | String a marker', String b line' =>
      if decide (a = b) then startsWith line' marker' else false
  end.

(** [String.prototype.indexOf]: the least position at which [marker] occurs
    in [line], or [-1]. *)
Fixpoint indexOf (line marker : string) : Z :=
  if startsWith line marker then 0
  else match line with
       | EmptyString => -1
       | String _ line' =>
           let r := indexOf line' marker in
           if r <? 0 then -1 else r + 1
       end.

(** [String.prototype.includes]. *)
Definition includes (line marker : string) : bool :=
  negb (indexOf line marker =? -1).

(** [String.prototype.slice(from, to)]: negative positions count from the
    end, and both are clamped to the string. *)
Definition slice (s : string) (from to : Z) : string :=
  let len := Z.of_nat (String.length s) in
  let clamp i := if i <? 0 then Z.max (len + i) 0 else Z.min i len in
  let f := clamp from in
  let t := clamp to in
  substring (Z.to_nat f) (Z.to_nat (Z.max (t - f) 0)) s.

(** [s.slice(from)]. *)
Definition sliceFrom (s : string) (from : Z) : string :=
  slice s from (Z.of_nat (String.length s)).

(** [Array.prototype.join] on an array of strings. *)
Fixpoint join (sep : string) (parts : list string) : string :=
  match parts with
  | [] => ""
  | [p] => p
  | p :: rest => p ++ sep ++ join sep rest
  end.

(** ** [readline]: the lines of a text

    [readline.createInterface] with [crlfDelay: Infinity] ends a line at
    ["\n"], at ["\r\n"] and at a ["\r"] that no ["\n"] follows; the
    terminator is not part of the line.  When the input ends, what remains in
    the line buffer is one more line if it is not empty.  [buf] is the line
    buffer. *)
Fixpoint readlineFrom (buf : string) (text : string) : list string :=
  match text with
  | EmptyString => if decide (buf = "") then [] else [buf]
  | String c rest =>
      if decide (c = LF) then buf :: readlineFrom "" rest
      else if decide (c = CR) then
        match rest with
        | String c' rest' =>
            if decide (c' = LF) then buf :: readlineFrom "" rest'
            else buf :: readlineFrom "" rest
        | EmptyString => buf :: readlineFrom "" rest
        end
      else readlineFrom (buf ++ String c "") rest
  end.

Definition readline (text : string) : list string := readlineFrom "" text.

(** ** The scanning loop of [injectBlock]

    The loop state is the flag [inserted] and the text written to the
    scratch file so far. *)
Record scan := Scan { inserted : bool; written : string }.

(** One iteration of [for await (const line of reader)]. *)
Definition scanLine (marker : string) (blockLines : list string)
    (st : scan) (line : string) : scan :=
  if negb (inserted st) && includes line marker then
    let idx := indexOf line marker in
    let before := slice line 0 idx in
    let after := sliceFrom line idx in
    let w1 := if 0 <? Z.of_nat (String.length before)
              then written st ++ (before ++ NL) else written st in
    let w2 := w1 ++ (join NL blockLines ++ NL) in
    let w3 := w2 ++ (after ++ NL) in
    Scan true w3
  else
    Scan (inserted st) (written st ++ (line ++ NL)).

Definition scanLines (marker : string) (blockLines : list string)
    (lines : list string) : scan :=
  fold_left (scanLine marker blockLines) lines (Scan false "").

(** ** The file system and the monad of [async] functions *)

Inductive node :=
| File (content : string) (mode : Z)
| Dir.

Abbreviation fsmap := (gmap string node).

(** What an [async] function rejects with: an [Error] built by the server
    with its message, or the error of a failed [fs] call with its code. *)
Inductive error :=
| Error (message : string)
| SystemError (code : string) (path : string).

Inductive outcome (A : Type) :=
| Ok (a : A)
| Throw (e : error).
Arguments Ok {A} a.
Arguments Throw {A} e.

Definition M (A : Type) : Type := fsmap -> outcome A * fsmap.

Definition ret {A} (a : A) : M A := fun fs => (Ok a, fs).
Definition throw {A} (e : error) : M A := fun fs => (Throw e, fs).
Definition bind {A B} (m : M A) (k : A -> M B) : M B :=
  fun fs => match m fs with
            | (Ok a, fs') => k a fs'
            | (Throw e, fs') => (Throw e, fs')
            end.

(** [try { m } catch (err) { handler err }]. *)
Definition tryCatch {A} (m : M A) (handler : error -> M A) : M A :=
  fun fs => match m fs with
            | (Ok a, fs') => (Ok a, fs')
            | (Throw e, fs') => handler e fs'
            end.

Notation "'await' x <- m ; k" := (bind m (fun x => k))
  (at level 10, x name, m at level 100, k at level 200).
Notation "'await_' m ; k" := (bind m (fun _ => k))
  (at level 10, m at level 100, k at level 200).

(** [fsp.access(path, F_OK)]. *)
Definition access (path : string) : M unit :=
  fun fs => match fs !! path with
            | Some _ => (Ok tt, fs)
            | None => (Throw (SystemError "ENOENT" path), fs)
            end.

(** [fsp.mkdir(path, { recursive: true })]: nothing to do on a directory,
    an error on a regular file. *)
Definition mkdirRecursive (path : string) : M unit :=
  fun fs => match fs !! path with
            | Some Dir => (Ok tt, fs)
            | Some (File _ _) => (Throw (SystemError "EEXIST" path), fs)
            | None => (Ok tt, <[path := Dir]> fs)
            end.

(** [fsp.copyFile(src, dest)]: [dest] is created or overwritten and gets the
    content and the permission bits of [src].  The call opens [src], opens
    or creates [dest], and copies: a directory as [dest] fails at the second
    step and is left alone; a directory as [src] fails at the third, and the
    call then removes the file it has opened or created as [dest].  The
    error of every failure has [src] as its path. *)
Definition copyFile (src dest : string) : M unit :=
  fun fs => match fs !! src with
            | None => (Throw (SystemError "ENOENT" src), fs)
            | Some Dir =>
                match fs !! dest with
                | Some Dir => (Throw (SystemError "EISDIR" src), fs)
                | _ => (Throw (SystemError "EISDIR" src), delete dest fs)
                end
            | Some (File content mode) =>
                match fs !! dest with
                | Some Dir => (Throw (SystemError "EISDIR" src), fs)
                | _ => (Ok tt, <[dest := File content mode]> fs)
                end
            end.

(** [fsp.chmod(path, mode)]; the permission bits of directories are not
    modelled. *)
Definition chmod (path : string) (mode : Z) : M unit :=
  fun fs => match fs !! path with
            | None => (Throw (SystemError "ENOENT" path), fs)
            | Some Dir => (Ok tt, fs)
            | Some (File content _) => (Ok tt, <[path := File content mode]> fs)
            end.

(** [fsp.stat(path)], as far as [isFile] needs it. *)
Definition stat (path : string) : M node :=
  fun fs => match fs !! path with
            | None => (Throw (SystemError "ENOENT" path), fs)
            | Some n => (Ok n, fs)
            end.

Definition isFile (n : node) : bool :=
  match n with File _ _ => true | Dir => false end.

(** [fsp.readFile(path, 'utf8')] and the text a read stream delivers. *)
Definition readFile (path : string) : M string :=
  fun fs => match fs !! path with
            | None => (Throw (SystemError "ENOENT" path), fs)
            | Some Dir => (Throw (SystemError "EISDIR" path), fs)
            | Some (File content _) => (Ok content, fs)
            end.

(** [fsp.unlink(path)]. *)
Definition unlink (path : string) : M unit :=
  fun fs => match fs !! path with
            | None => (Throw (SystemError "ENOENT" path), fs)
            | Some Dir => (Throw (SystemError "EISDIR" path), fs)
            | Some (File _ _) => (Ok tt, delete path fs)
            end.

(** [promise.catch(() => {})]. *)
Definition catchIgnore (m : M unit) : M unit :=
  tryCatch m (fun _ => ret tt).

(** A write stream on [path] that receives [text] and is ended: the file is
    created with the bits [createMode] when it is absent and truncated when
    it exists. *)
Definition writeStream (createMode : Z) (path : string) (text : string) : M unit :=
  fun fs => match fs !! path with
            | Some Dir => (Throw (SystemError "EISDIR" path), fs)
            | Some (File _ mode) => (Ok tt, <[path := File text mode]> fs)
            | None => (Ok tt, <[path := File text createMode]> fs)
            end.

(** ** The constants of [server.js] *)

Definition TARGET_DIR : string := "/usr/trim/www".
Definition INDEX_FILE : string := "/usr/trim/www/index.html".
Definition BACKUP_DIR : string := "/usr/cqshbak".
Definition BACKUP_FILE : string := "/usr/cqshbak/index.html.original".

(** [0o644]. *)
Definition MODE_644 : Z := 420.

(** ** The backup manager *)

Record backupResult := BackupResult { created : bool }.

Definition ensureBackup : M backupResult :=
  await_ mkdirRecursive BACKUP_DIR;
  tryCatch
    (await_ access BACKUP_FILE;
     ret (BackupResult false))
    (fun _ =>
       await_ tryCatch (access INDEX_FILE)
                (fun _ => throw (Error ("未找到系统文件: " ++ INDEX_FILE)));
       await_ copyFile INDEX_FILE BACKUP_FILE;
       ret (BackupResult true)).

Definition restoreOriginal : M unit :=
  await_ tryCatch (access BACKUP_FILE)
           (fun _ => throw (Error "未找到备份文件"));
  await_ copyFile BACKUP_FILE INDEX_FILE;
  chmod INDEX_FILE MODE_644.

(** ** The content patcher *)

Definition readTextFromPath (filePath : string) : M string :=
  await stats <- stat filePath;
  if negb (isFile stats) then throw (Error ("路径不是文件: " ++ filePath))
  else readFile filePath.

(** A value that is a string, [null] or [undefined] is an [option string];
    the empty string and [None] are the falsy ones.  [ifTruthy v f g] is
    [if (v) { f v } else { g }]. *)
Definition ifTruthy {A} (v : option string) (f : string -> A) (g : A) : A :=
  match v with
  | Some (String c s) => f (String c s)
  | Some EmptyString | None => g
  end.

Definition truthy (v : option string) : bool := ifTruthy v (fun _ => true) false.

Record payload := Payload {
  cssText : option string;
  jsText : option string;
  cssPath : option string;
  jsPath : option string
}.

Record injectResult := InjectResult { injected : bool; message : string }.

Section Process.

(** The file-creation mask of the server process: a file the process creates
    gets the bits [0o666 & ~umask]. *)
Variable umask : Z.

Definition createMode : Z := Z.ldiff 438 umask.

(** [tempFile] is the name the call draws for its scratch file (the source
    builds it from the clock and a random number).  The write stream creates
    or truncates the scratch file when it is opened; the read stream then
    delivers the lines of [inputPath], the loop writes, and [writer.end()]
    flushes what was written. *)
Definition injectBlock (tempFile : string) (inputPath marker : string)
    (blockLines : list string) : M unit :=
  await_ writeStream createMode tempFile "";
  await text <- readFile inputPath;
  let st := scanLines marker blockLines (readline text) in
  await_ writeStream createMode tempFile (written st);
  if negb (inserted st) then
    await_ catchIgnore (unlink tempFile);
    throw (Error ("未找到插入位置: " ++ marker))
  else
    await_ copyFile tempFile inputPath;
    catchIgnore (unlink tempFile).

(** [tempCss] and [tempJs] are the scratch names of the two [injectBlock]
    calls. *)
Definition injectCode (tempCss tempJs : string) (p : payload) : M injectResult :=
  await_ ensureBackup;
  await_ copyFile BACKUP_FILE INDEX_FILE;
  await finalCss <-
    ifTruthy (cssPath p)
      (fun path => await text <- readTextFromPath path; ret (Some text))
      (ifTruthy (cssText p) (fun text => ret (Some text)) (ret None));
  await finalJs <-
    ifTruthy (jsPath p)
      (fun path => await text <- readTextFromPath path; ret (Some text))
      (ifTruthy (jsText p) (fun text => ret (Some text)) (ret None));
  if negb (truthy finalCss) && negb (truthy finalJs) then
    ret (InjectResult false "未提供任何 CSS/JS 内容")
  else
    await_ ifTruthy finalCss
      (fun css =>
         injectBlock tempCss INDEX_FILE "</head>"
           ["<style>"; "/* Injected CSS */"; css; "</style>"])
      (ret tt);
    await_ ifTruthy finalJs
      (fun js =>
         injectBlock tempJs INDEX_FILE "</body>"
           ["<script>"; "// Injected JS"; js; "</script>"])
      (ret tt);
    await_ chmod INDEX_FILE MODE_644;
    ret (InjectResult true "注入成功，请强制刷新浏览器 (Ctrl+F5) 查看效果。").

(** *** The parts of [injectCode]

    [injectCode] is [prologue], then the resolution of each channel by
    [resolveChannel], then [applyPayload]; the lemma [injectCode_prologue]
    says so. *)

(** The first half of [injectCode]: the backup is ensured and copied over
    the target. *)
Definition prologue : M unit :=
  await_ ensureBackup;
  copyFile BACKUP_FILE INDEX_FILE.

(** The resolution of one channel: the file reference if there is one,
    else the inline text if there is one. *)
Definition resolveChannel (path text : option string) : M (option string) :=
  ifTruthy path
    (fun path => await text <- readTextFromPath path; ret (Some text))
    (ifTruthy text (fun text => ret (Some text)) (ret None)).

(** [injectCode] once both channels are resolved. *)
Definition applyPayload (tempCss tempJs : string)
    (finalCss finalJs : option string) : M injectResult :=
  if negb (truthy finalCss) && negb (truthy finalJs) then
    ret (InjectResult false "未提供任何 CSS/JS 内容")
  else
    await_ ifTruthy finalCss
      (fun css =>
         injectBlock tempCss INDEX_FILE "</head>"
           ["<style>"; "/* Injected CSS */"; css; "</style>"])
      (ret tt);
    await_ ifTruthy finalJs
      (fun js =>
         injectBlock tempJs INDEX_FILE "</body>"
           ["<script>"; "// Injected JS"; js; "</script>"])
      (ret tt);
    await_ chmod INDEX_FILE MODE_644;
    ret (InjectResult true "注入成功，请强制刷新浏览器 (Ctrl+F5) 查看效果。").

(** [injectCode] from the resolution of the payload on. *)
Definition afterReset (tempCss tempJs : string) (p : payload) : M injectResult :=
  await finalCss <- resolveChannel (cssPath p) (cssText p);
  await finalJs <- resolveChannel (jsPath p) (jsText p);
  applyPayload tempCss tempJs finalCss finalJs.

(** Calls of [injectCode] with the same payload, one after the other; each
    call draws its own pair of scratch names. *)
Fixpoint injectRepeatedly (p : payload) (temps : list (string * string))
    (fs : fsmap) : fsmap :=
  match temps with
  | [] => fs
  | (tempCss, tempJs) :: rest =>
      injectRepeatedly p rest (injectCode tempCss tempJs p fs).2
  end.

End Process.

(** * The rest of [server.js]: status, request bodies, static files and the
    request listener

    What these functions take from the runtime and from the libraries of
    Node is a parameter of the section below or a model by its documented
    behaviour: [path] for POSIX, [String.prototype.trim] and
    [toLowerCase] on the 256 characters of the model. *)

(** ** More JavaScript strings *)

(** [String.prototype.split(sep)] for a one-character separator; [cur] is
    the piece being read. *)
Fixpoint splitFrom (sep : ascii) (cur : string) (s : string) : list string :=
  match s with
  | EmptyString => [cur]
  | String c rest =>
      if decide (c = sep) then cur :: splitFrom sep "" rest
      else splitFrom sep (cur ++ String c "") rest
  end.

Definition split (sep : ascii) (s : string) : list string := splitFrom sep "" s.

(** [s.replace(/\0/g, '')]. *)
Fixpoint removeNul (s : string) : string :=
  match s with
  | EmptyString => ""
  | String c rest =>
      if decide (c = "000"%char) then removeNul rest else String c (removeNul rest)
  end.

(** White space and line terminators of JavaScript below code 256: tab, line
    feed, vertical tab, form feed, carriage return, space, no-break space. *)
Definition isWhite (c : ascii) : bool :=
  let n := nat_of_ascii c in
  ((9 <=? n) && (n <=? 13) || (n =? 32) || (n =? 160))%nat.

Fixpoint trimStart (s : string) : string :=
  match s with
  | EmptyString => ""
  | String c rest => if isWhite c then trimStart rest else s
  end.

Fixpoint trimEnd (s : string) : string :=
  match s with
  | EmptyString => ""
  | String c rest =>
      match trimEnd rest with
      | EmptyString => if isWhite c then "" else String c ""
      | t => String c t
      end
  end.

(** [String.prototype.trim]. *)
Definition trim (s : string) : string := trimEnd (trimStart s).

(** [String.prototype.toLowerCase] below code 256: the letters A to Z, and
    the capital letters of Latin-1 (192 to 222 without the times sign). *)
Definition lowerChar (c : ascii) : ascii :=
  let n := nat_of_ascii c in
  if ((65 <=? n) && (n <=? 90) || (192 <=? n) && (n <=? 222) && negb (n =? 215))%nat
  then ascii_of_nat (n + 32) else c.

Fixpoint toLowerCase (s : string) : string :=
  match s with
  | EmptyString => ""
  | String c rest => String (lowerChar c) (toLowerCase rest)
  end.

(** ** The [path] module, for POSIX *)

Definition SLASH : ascii := "/"%char.
Definition DOT : ascii := "."%char.

Definition firstChar (s : string) : option ascii :=
  match s with EmptyString => None | String c _ => Some c end.

Fixpoint lastChar (s : string) : option ascii :=
  match s with
  | EmptyString => None
  | String c EmptyString => Some c
  | String _ rest => lastChar rest
  end.

(** One segment of [normalizeString]; the segments kept so far are in
    [stack], the last one first.  An empty segment and ["."] are dropped;
    [".."] removes the last segment kept, unless there is none or it is
    [".."] itself, in which case it is kept only above a relative path. *)
Definition normalizeStep (allowAboveRoot : bool) (stack : list string)
    (segment : string) : list string :=
  if decide (segment = "") then stack
  else if decide (segment = ".") then stack
  else if decide (segment = "..") then
    match stack with
    | top :: below =>
        if decide (top = "..")
        then (if allowAboveRoot then ".." :: stack else stack)
        else below
    | [] => if allowAboveRoot then [".."] else []
    end
  else segment :: stack.

Definition normalizeString (path : string) (allowAboveRoot : bool) : string :=
  join "/" (rev (fold_left (normalizeStep allowAboveRoot) (split SLASH path) [])).

(** [path.normalize]. *)
Definition pathNormalize (path : string) : string :=
  if decide (path = "") then "."
  else
    let isAbsolute := bool_decide (firstChar path = Some SLASH) in
    let trailingSeparator := bool_decide (lastChar path = Some SLASH) in
    let p := normalizeString path (negb isAbsolute) in
    if decide (p = "") then
      (if isAbsolute then "/" else if trailingSeparator then "./" else ".")
    else
      let p := if trailingSeparator then p ++ "/" else p in
      if isAbsolute then "/" ++ p else p.

(** [path.join] of two arguments. *)
Definition pathJoin (a b : string) : string :=
  if decide (a = "") then (if decide (b = "") then "." else pathNormalize b)
  else if decide (b = "") then pathNormalize a
  else pathNormalize (a ++ "/" ++ b).

(** The variables of the loop of [path.extname]. *)
Record extState := ExtState {
  startDot : Z;
  startPart : Z;
  endPos : Z;
  matchedSlash : bool;
  preDotState : Z
}.

(** The loop of [path.extname], from the last character to the first;
    [chars] are the characters still to visit, the one at index [i] first.
    The loop ends at the separator in front of the last segment. *)
Fixpoint extnameLoop (chars : list ascii) (i : Z) (st : extState) : extState :=
  match chars with
  | [] => st
  | code :: rest =>
      if decide (code = SLASH) then
        if negb (matchedSlash st)
        then ExtState (startDot st) (i + 1) (endPos st) (matchedSlash st)
               (preDotState st)
        else extnameLoop rest (i - 1) st
      else
        let st1 :=
          if endPos st =? -1
          then ExtState (startDot st) (startPart st) (i + 1) false (preDotState st)
          else st in
        let st2 :=
          if decide (code = DOT) then
            if startDot st1 =? -1
            then ExtState i (startPart st1) (endPos st1) (matchedSlash st1)
                   (preDotState st1)
            else if negb (preDotState st1 =? 1)
            then ExtState (startDot st1) (startPart st1) (endPos st1)
                   (matchedSlash st1) 1
            else st1
          else if negb (startDot st1 =? -1)
          then ExtState (startDot st1) (startPart st1) (endPos st1)
                 (matchedSlash st1) (-1)
          else st1 in
        extnameLoop rest (i - 1) st2
  end.

(** [path.extname]. *)
Definition pathExtname (path : string) : string :=
  let st := extnameLoop (rev (list_ascii_of_string path))
              (Z.of_nat (String.length path) - 1)
              (ExtState (-1) 0 (-1) true 0) in
  if (startDot st =? -1) || (endPos st =? -1) || (preDotState st =? 0)
     || ((preDotState st =? 1) && (startDot st =? endPos st - 1)
         && (startDot st =? startPart st + 1))
  then ""
  else slice path (startDot st) (endPos st).

(** ** [mimeFor] *)

Definition mimeFor (filePath : string) : string :=
  let ext := toLowerCase (pathExtname filePath) in
  if (ext =? ".html")%string then "text/html; charset=utf-8"
  else if (ext =? ".htm")%string then "text/html; charset=utf-8"
  else if (ext =? ".css")%string then "text/css; charset=utf-8"
  else if (ext =? ".js")%string then "application/javascript; charset=utf-8"
  else if (ext =? ".svg")%string then "image/svg+xml"
  else if (ext =? ".png")%string then "image/png"
  else if (ext =? ".jpg")%string then "image/jpeg"
  else if (ext =? ".jpeg")%string then "image/jpeg"
  else if (ext =? ".gif")%string then "image/gif"
  else if (ext =? ".json")%string then "application/json; charset=utf-8"
  else if (ext =? ".txt")%string then "text/plain; charset=utf-8"
  else "application/octet-stream".

(** ** Values of [JSON.parse] *)

#[warnings="-register-all"] Inductive json :=
| JNull
| JBool (b : bool)
| JNumber (literal : string)
| JString (s : string)
| JArray (items : list json)
| JObject (members : list (string * json)).

(** The member of an object literal under [key]: the last one counts. *)
Fixpoint lookupMember (key : string) (members : list (string * json)) : option json :=
  match members with
  | [] => None
  | (k, v) :: rest =>
      match lookupMember key rest with
      | Some v' => Some v'
      | None => if (k =? key)%string then Some v else None
      end
  end.

(** [typeof v === 'string' ? v.trim() : ''], on a property that may be
    [undefined]. *)
Definition stringField (v : option json) : string :=
  match v with
  | Some (JString s) => trim s
  | _ => ""
  end.

(** [s || null]. *)
Definition orNull (s : string) : option string :=
  match s with
  | EmptyString => None
  | String _ _ => Some s
  end.

(** ** Requests and responses *)

Record statusSnapshot := StatusSnapshot {
  indexPath : string;
  backupPath : string;
  indexExists : bool;
  backupExists : bool;
  indexMtime : option string;
  backupMtime : option string
}.

(** A request as the listener sees it: the method, the path name that
    [url.parse] found in the URL, and the chunks of the body. *)
Record request := Request {
  method : string;
  pathname : string;
  chunks : list string
}.

(** What the listener sends: [sendJson] with the status and the members of
    the payload, [sendText], or a file with its content type. *)
Inductive response :=
| SendJson (status : Z) (ok : bool) (text : option string)
    (data : option statusSnapshot)
| SendText (status : Z) (text : string)
| SendFile (contentType : string) (data : string).

(** [fs.appendFileSync(path, text, 'utf8')]. *)
Definition appendFile (createMode : Z) (path : string) (text : string) : M unit :=
  fun fs => match fs !! path with
            | Some Dir => (Throw (SystemError "EISDIR" path), fs)
            | Some (File content mode) =>
                (Ok tt, <[path := File (content ++ text) mode]> fs)
            | None => (Ok tt, <[path := File text createMode]> fs)
            end.

(** A string without its last character. *)
Fixpoint dropLast (s : string) : string :=
  match s with
  | EmptyString => ""
  | String c EmptyString => ""
  | String c rest => String c (dropLast rest)
  end.

(** A path other than the root path that ends in a separator, as
    [path.normalize] leaves the path of a request that ends in one. *)
Definition endsInSeparator (path : string) : bool :=
  bool_decide (lastChar path = Some SLASH) && negb (path =? "/")%string.

(** [fsp.stat] of a path that may end in a separator.  The system resolves
    such a path to the directory named in front of the separator, and fails
    with [ENOTDIR] when a regular file has that name; the paths of the file
    system are kept without a separator at their end. *)
Definition statPath (path : string) : M node :=
  if endsInSeparator path then
    fun fs => match fs !! dropLast path with
              | None => (Throw (SystemError "ENOENT" path), fs)
              | Some (File _ _) => (Throw (SystemError "ENOTDIR" path), fs)
              | Some Dir => (Ok Dir, fs)
              end
  else stat path.

(** [20 * 1024 * 1024]. *)
Definition BODY_LIMIT : Z := 20 * 1024 * 1024.

Section Server.

(** The file-creation mask of the process. *)
Variable umask : Z.

(** [stat.mtime.toISOString()] of the node at a path. *)
Variable mtimeISO : string -> string.

(** [LOG_FILE], and [new Date().toISOString()] at the time of the log
    line. *)
Variable LOG_FILE : option string.
Variable now : string.

(** [WWW_ROOT]. *)
Variable WWW_ROOT : string.

(** [err.message] of a failed [fs] call with its code and path, and of the
    [TypeError] of a property read on [null]. *)
Variable systemMessage : string -> string -> string.
Variable nullMessage : string -> string.

(** [decodeURIComponent], which throws on a malformed escape; the string a
    chunk of the body is appended as; [JSON.parse], which throws on a text
    that is not JSON. *)
Variable decodeURIComponent : string -> outcome string.
Variable chunkText : string -> string.
Variable JSONparse : string -> option json.

(** Standard error is not part of the state: a line written there is
    dropped. *)
Definition log (msg : string) : M unit :=
  let line := now ++ " " ++ msg ++ NL in
  ifTruthy LOG_FILE
    (fun logFile =>
       tryCatch (appendFile (createMode umask) logFile line) (fun _ => ret tt))
    (ret tt).

Definition getStatus : M statusSnapshot :=
  let result := StatusSnapshot INDEX_FILE BACKUP_FILE false false None None in
  await result <-
    tryCatch
      (await_ stat INDEX_FILE;
       ret (StatusSnapshot (indexPath result) (backupPath result)
              true (backupExists result)
              (Some (mtimeISO INDEX_FILE)) (backupMtime result)))
      (fun _ => ret result);
  await result <-
    tryCatch
      (await_ stat BACKUP_FILE;
       ret (StatusSnapshot (indexPath result) (backupPath result)
              (indexExists result) true
              (indexMtime result) (Some (mtimeISO BACKUP_FILE))))
      (fun _ => ret result);
  ret result.

(** The ['data'] events of [readJsonBody] and then its ['end'] event:
    [body] and [size] are the two variables of the function.  The promise is
    settled once: after the rejection for size no later event counts. *)
Fixpoint readChunks (limitBytes : Z) (body : string) (size : Z)
    (chunks : list string) : outcome json :=
  match chunks with
  | [] =>
      if decide (body = "") then Ok (JObject [])
      else match JSONparse body with
           | Some v => Ok v
           | None => Throw (Error "JSON 解析失败")
           end
  | chunk :: rest =>
      let size := size + Z.of_nat (String.length chunk) in
      if limitBytes <? size then Throw (Error "请求体过大")
      else readChunks limitBytes (body ++ chunkText chunk) size rest
  end.

Definition readJsonBody (chunks : list string) (limitBytes : Z) : M json :=
  fun fs => (readChunks limitBytes "" 0 chunks, fs).

Definition safeJoin (root requestPath : string) : outcome (option string) :=
  match decodeURIComponent (hd "" (split "?"%char requestPath)) with
  | Throw e => Throw e
  | Ok cleanPath =>
      let safePath := removeNul cleanPath in
      let resolvedPath := pathNormalize (pathJoin root safePath) in
      if negb (startsWith resolvedPath root) then Ok None
      else Ok (Some resolvedPath)
  end.

(** [path.normalize] keeps a separator at the end of the path, so the
    path that [fsp.stat] gets may end in one: [statPath].  The path that
    [fsp.readFile] gets does not: it is the path of a regular file, or ends
    in [index.html]. *)
Definition handleStatic (pathname : string) : M response :=
  await joined <- (fun fs => (safeJoin WWW_ROOT pathname, fs));
  match joined with
  | None => ret (SendText 400 "Bad Request")
  | Some filePath =>
      let filePath :=
        if (pathname =? "/")%string || (pathname =? "")%string
        then pathJoin WWW_ROOT "index.html" else filePath in
      await found <-
        tryCatch
          (await st <- statPath filePath;
           ret (inl (match st with
                     | Dir => pathJoin filePath "index.html"
                     | File _ _ => filePath
                     end)))
          (fun _ => ret (inr (SendText 404 "Not Found")));
      match found with
      | inr sent => ret sent
      | inl filePath =>
          tryCatch
            (await data <- readFile filePath;
             ret (SendFile (mimeFor filePath) data))
            (fun _ => ret (SendText 500 "Internal Server Error"))
      end
  end.

Definition errorMessage (e : error) : string :=
  match e with
  | Error message => message
  | SystemError code path => systemMessage code path
  end.

(** [body.key]: a [TypeError] on [null]; on an object the member; on every
    other value [undefined], for a key that is no property of the
    prototypes, as the four keys are that the listener reads. *)
Definition getProperty (v : json) (key : string) : M (option json) :=
  match v with
  | JNull => throw (Error (nullMessage key))
  | JObject members => ret (lookupMember key members)
  | _ => ret None
  end.

(** The listener of [http.createServer]; [tempCss] and [tempJs] are the
    scratch names an injection would draw. *)
Definition requestListener (tempCss tempJs : string) (req : request) : M response :=
  let pathname := match pathname req with EmptyString => "/" | p => p end in
  if startsWith pathname "/api/" then
    tryCatch
      (if (method req =? "GET")%string && (pathname =? "/api/status")%string then
         await status <- getStatus;
         ret (SendJson 200 true None (Some status))
       else if (method req =? "POST")%string && (pathname =? "/api/restore")%string then
         await_ restoreOriginal;
         ret (SendJson 200 true (Some "已还原至官方默认状态") None)
       else if (method req =? "POST")%string && (pathname =? "/api/inject")%string then
         await body <- readJsonBody (chunks req) BODY_LIMIT;
         await cssTextV <- getProperty body "cssText";
         let cssText := stringField cssTextV in
         await jsTextV <- getProperty body "jsText";
         let jsText := stringField jsTextV in
         await cssPathV <- getProperty body "cssPath";
         let cssPath := stringField cssPathV in
         await jsPathV <- getProperty body "jsPath";
         let jsPath := stringField jsPathV in
         await result <-
           injectCode umask tempCss tempJs
             (Payload (orNull cssText) (orNull jsText) (orNull cssPath) (orNull jsPath));
         if negb (injected result)
         then ret (SendJson 400 false (Some (message result)) None)
         else ret (SendJson 200 true (Some (message result)) None)
       else ret (SendJson 404 false (Some "Not Found") None))
      (fun err =>
         await_ log ("API error: " ++ errorMessage err);
         ret (SendJson 500 false (Some (errorMessage err)) None))
  else if negb (method req =? "GET")%string then
    ret (SendText 405 "Method Not Allowed")
  else handleStatic pathname.

End Server.

(** * The vocabulary of the properties *)

(** ** Texts and lines *)

(** [marker] occurs in [line] with [pre] in front of it. *)
Definition occursAfter (line marker pre : string) : Prop :=
  exists post, line = pre ++ marker ++ post.

(** Every line followed by ["\n"]. *)
Fixpoint unlines (lines : list string) : string :=
  match lines with
  | [] => ""
  | l :: rest => l ++ NL ++ unlines rest
  end.

(** A string without a carriage return and without a line feed. *)
Fixpoint lineClean (s : string) : bool :=
  match s with
  | EmptyString => true
  | String c rest =>
      if decide (c = LF) then false
      else if decide (c = CR) then false
      else lineClean rest
  end.


(** [lines] with [eol] after each line. *)
Fixpoint terminated (eol : string) (lines : list string) : string :=
  match lines with
  | [] => ""
  | l :: rest => l ++ eol ++ terminated eol rest
  end.

(** ** Observations on a file system *)

(** The node is a regular file. *)
Definition isRegular (o : option node) : bool :=
  match o with Some (File _ _) => true | _ => false end.

(** The node is a directory. *)
Definition isDirectory (o : option node) : bool :=
  match o with Some Dir => true | _ => false end.

(** The content of the regular file at [path]. *)
Definition contentAt (fs : fsmap) (path : string) : option string :=
  match fs !! path with Some (File content _) => Some content | _ => None end.

(** A scratch name: no node has it, and it is none of the server's paths. *)
Definition fresh (fs : fsmap) (tempFile : string) : Prop :=
  fs !! tempFile = None
  /\ tempFile <> INDEX_FILE /\ tempFile <> BACKUP_FILE /\ tempFile <> BACKUP_DIR.

(** ** Resolved channels up to falsiness *)

(** A falsy value as [None]. *)
Definition norm (v : option string) : option string := ifTruthy v Some None.

(** The outcome of a resolution with its value normalised. *)
Definition normalised (r : outcome (option string) * fsmap) :
    outcome (option string) * fsmap :=
  match r with
  | (Ok v, fs) => (Ok (norm v), fs)
  | (Throw e, fs) => (Throw e, fs)
  end.

(** ** Concrete file systems and payloads *)

(** A target without a closing [body] tag, and nothing else. *)
Definition headOnly : string := "<head>" ++ NL ++ "</head>" ++ NL.

Definition fsHeadOnly : fsmap := {[ INDEX_FILE := File headOnly 420 ]}.

(** A file system with a backup and a target that an earlier call patched. *)
Definition patchedTarget : string :=
  "<head>" ++ NL ++ "<style>" ++ NL ++ "</style>" ++ NL ++ "</head>" ++ NL.

Definition fsPatched : fsmap :=
  <[INDEX_FILE := File patchedTarget 420]>
    (<[BACKUP_FILE := File headOnly 420]> {[ BACKUP_DIR := Dir ]}).

Definition tempA : string := "/tmp/fnos-ui-mods-1-a.tmp".
Definition tempB : string := "/tmp/fnos-ui-mods-2-b.tmp".
Definition tempC : string := "/tmp/fnos-ui-mods-3-c.tmp".
Definition tempD : string := "/tmp/fnos-ui-mods-4-d.tmp".


(** No channel at all, and an inline style alone. *)
Definition emptyPayload : payload := Payload None None None None.

Definition cssPayload : payload :=
  Payload (Some "body{color:red}") None None None.

(** A style and a script, inline. *)
Definition bothPayload : payload :=
  Payload (Some "body{color:red}") (Some "alert(1)") None None.

(** A file system whose backup has no closing [head] tag. *)
Definition fsNoHead : fsmap :=
  <[INDEX_FILE := File "<html>" 420]>
    (<[BACKUP_FILE := File "<html>" 420]> {[ BACKUP_DIR := Dir ]}).

(** A page with a head and a body, and a file system with it as target and
    nothing else. *)
Definition page : string :=
  "<html><head>" ++ NL ++ "</head><body>" ++ NL ++ "</body></html>" ++ NL.

Definition fsPage : fsmap := {[ INDEX_FILE := File page 384 ]}.

(** [fsHeadOnly] after the insertion of the one-line block [X] in front of
    the closing [head] tag. *)
Definition fsHeadX : fsmap :=
  <[INDEX_FILE := File ("<head>" ++ NL ++ "X" ++ NL ++ "</head>" ++ NL) 420]> fsHeadOnly.

(** ** The patch as a function on contents *)

(** The block of lines [injectCode] builds around a style text, and around a
    script text. *)
Definition styleBlock (css : string) : list string :=
  ["<style>"; "/* Injected CSS */"; css; "</style>"].

Definition scriptBlock (js : string) : list string :=
  ["<script>"; "// Injected JS"; js; "</script>"].

(** What the loop of [injectBlock] makes of a content, when it inserts. *)
Definition insertBlock (marker : string) (blockLines : list string)
    (text : string) : option string :=
  let st := scanLines marker blockLines (readline text) in
  if inserted st then Some (written st) else None.

(** The style insertion followed by the script insertion, each for a truthy
    channel only. *)
Definition patchedContent (finalCss finalJs : option string)
    (text : string) : option string :=
  match ifTruthy finalCss
          (fun css => insertBlock "</head>" (styleBlock css) text) (Some text) with
  | Some text1 =>
      ifTruthy finalJs
        (fun js => insertBlock "</body>" (scriptBlock js) text1) (Some text1)
  | None => None
  end.

(** ** Request bodies and paths *)

(** The bytes of all chunks together. *)
Definition totalBytes (chunks : list string) : Z :=
  fold_right (fun chunk n => Z.of_nat (String.length chunk) + n) 0 chunks.

(** The text of all chunks together. *)
Definition bodyText (chunkText : string -> string) (chunks : list string) : string :=
  fold_right (fun chunk t => chunkText chunk ++ t) "" chunks.

(** What [readJsonBody] resolves to, or rejects with, on a body text. *)
Definition parsedBody (JSONparse : string -> option json) (body : string) : outcome json :=
  if decide (body = "") then Ok (JObject [])
  else match JSONparse body with
       | Some v => Ok v
       | None => Throw (Error "JSON 解析失败")
       end.

(** No character of the string is [c]. *)
Fixpoint without (c : ascii) (s : string) : bool :=
  match s with
  | EmptyString => true
  | String x rest => if decide (x = c) then false else without c rest
  end.

(** Characters that are neither a separator nor a dot. *)
Definition plainChars (l : list ascii) : Prop :=
  Forall (fun c => c <> SLASH /\ c <> DOT) l.

(** A plain path segment: not empty, without separator and without NUL, and
    neither ["."] nor [".."]. *)
Definition plainSegment (s : string) : bool :=
  negb (s =? "")%string && without SLASH s && without "000"%char s
  && negb (s =? ".")%string && negb (s =? "..")%string.

(** The absolute path of the segments. *)
Definition absolutePath (segments : list string) : string :=
  "/" ++ join "/" segments.

(** The member of a body under a key, as the listener reads it off a body
    that is not [null], and the payload the listener builds from the
    body. *)
Definition fieldOf (body : json) (key : string) : option json :=
  match body with
  | JObject members => lookupMember key members
  | _ => None
  end.

Definition payloadOf (body : json) : payload :=
  Payload (orNull (stringField (fieldOf body "cssText")))
          (orNull (stringField (fieldOf body "jsText")))
          (orNull (stringField (fieldOf body "cssPath")))
          (orNull (stringField (fieldOf body "jsPath"))).

(** The response is sent by [sendJson], and says [ok] exactly with the
    status 200. *)
Definition jsonReply (r : response) : Prop :=
  exists status ok text data,
    r = SendJson status ok text data /\ (ok = true <-> status = 200).

(** Stand-ins for the parameters of the server at concrete inputs: chunks
    that are their own text, a decoder that leaves a path as it is, times
    and messages that say nothing. *)
Definition ownText (chunk : string) : string := chunk.

(** A parser stand-in that knows the JSON texts [null], [{}] and [[1,2]],
    and takes no other text for JSON.  It is used at these three texts and
    at texts that are not JSON. *)
Definition parseKnown (body : string) : option json :=
  if (body =? "null")%string then Some JNull
  else if (body =? "{}")%string then Some (JObject [])
  else if (body =? "[1,2]")%string then Some (JArray [JNumber "1"; JNumber "2"])
  else None.

Definition decodePlain (path : string) : outcome string := Ok path.

Definition noTime (path : string) : string := "".

Definition codeAndPath (code path : string) : string := code ++ " " ++ path.

Definition nullRead (key : string) : string := "null." ++ key.

(** A parser stand-in that answers every text with an object whose text
    fields are blank or not strings. *)
Definition parseBlank (body : string) : option json :=
  Some (JObject [("cssText", JString "  "); ("jsPath", JNumber "7")]).

(** A request body in two chunks. *)
Definition twoChunks : list string := ["[1,"; "2]"].

(** A body in two chunks that is not JSON: the name of the member has no
    quotes, and neither has its value. *)
Definition notJson : list string := ["{cssText:"; "body{}}"].

(** A body of 21 MiB, in chunks of 1 KiB. *)
Fixpoint doubled (k : nat) (s : string) : string :=
  match k with
  | O => s
  | S k' => doubled k' (s ++ s)
  end.

Definition oversized : list string := repeat (doubled 10 "a") (21 * 1024).

(** A decoder stand-in that knows no escape sequence and rejects every
    percent sign, as [decodeURIComponent] rejects a malformed one. *)
Definition decodeNoEscape (path : string) : outcome string :=
  if includes path "%" then Throw (Error "URI malformed") else Ok path.

(** A log file, and a directory of pages: a start page, a directory with an
    index, and one without. *)
Definition infoLog : string := "/var/apps/info.log".

Definition fsWww : fsmap :=
  <[ "/app/www" := Dir ]>
  (<[ "/app/www/index.html" := File "<html></html>" 420 ]>
  (<[ "/app/www/docs" := Dir ]>
  (<[ "/app/www/docs/index.html" := File "<p>docs</p>" 420 ]>
  (<[ "/app/www/assets" := Dir ]>
  {[ "/app/www/assets/App.JS" := File "void 0" 420 ]})))).

(** * Properties *)

(** ** Strings *)

Lemma sapp_assoc (a b c : string) : (a ++ b) ++ c = a ++ (b ++ c).
Proof. induction a as [|x a IH]; simpl; [reflexivity | f_equal; exact IH]. Qed.

Lemma sapp_nil_r (a : string) : a ++ "" = a.
Proof. induction a as [|x a IH]; simpl; [reflexivity | f_equal; exact IH]. Qed.

Lemma slength_app (a b : string) :
  String.length (a ++ b) = (String.length a + String.length b)%nat.
Proof. induction a as [|x a IH]; simpl; [reflexivity | f_equal; exact IH]. Qed.

Lemma substring_prefix_app (a b : string) :
  substring 0 (String.length a) (a ++ b) = a.
Proof.
  induction a as [|x a IH]; simpl.
  - destruct b; reflexivity.
  - f_equal. exact IH.
Qed.

Lemma substring_all (b : string) : substring 0 (String.length b) b = b.
Proof. induction b as [|x b IH]; simpl; [reflexivity | f_equal; exact IH]. Qed.

Lemma substring_suffix_app (a b : string) :
  substring (String.length a) (String.length b) (a ++ b) = b.
Proof.
  induction a as [|x a IH]; simpl.
  - apply substring_all.
  - exact IH.
Qed.

(** What the two [slice] calls of the loop return when the line is cut at
    a position inside it. *)
Lemma slice_before (before after : string) :
  slice (before ++ after) 0 (Z.of_nat (String.length before)) = before.
Proof.
  unfold slice. rewrite slength_app.
  replace (0 <? 0) with false by reflexivity.
  destruct (Z.ltb_spec (Z.of_nat (String.length before)) 0) as [Hlt | _]; [lia |].
  rewrite Z.min_l by lia. rewrite Z.min_l by lia.
  rewrite Z.sub_0_r, Z.max_l by lia. rewrite Nat2Z.id.
  change (Z.to_nat 0) with 0%nat. apply substring_prefix_app.
Qed.

Lemma sliceFrom_after (before after : string) :
  sliceFrom (before ++ after) (Z.of_nat (String.length before)) = after.
Proof.
  unfold sliceFrom, slice. rewrite slength_app.
  destruct (Z.ltb_spec (Z.of_nat (String.length before)) 0) as [Hlt | _]; [lia |].
  destruct (Z.ltb_spec (Z.of_nat (String.length before + String.length after)) 0)
    as [Hlt | _]; [lia |].
  rewrite Z.min_l by lia. rewrite Z.min_l by lia.
  rewrite Z.max_l by lia. rewrite Nat2Z.id.
  replace (Z.to_nat _) with (String.length after) by lia.
  apply substring_suffix_app.
Qed.

Lemma startsWith_spec (line marker : string) :
  startsWith line marker = true <-> exists rest, line = marker ++ rest.
Proof.
  revert line. induction marker as [|a marker IH]; intros line; simpl.
  - destruct line; split; eauto.
  - destruct line as [|b line]; simpl.
    + split; [discriminate | intros [rest H]; discriminate].
    + destruct (decide (a = b)) as [-> | Hne].
      * rewrite IH. split; intros [rest H]; exists rest; congruence.
      * split; [discriminate | intros [rest H]; congruence].
Qed.

Lemma indexOf_nil (marker : string) :
  indexOf "" marker = if startsWith "" marker then 0 else -1.
Proof. reflexivity. Qed.

Lemma indexOf_cons (c : ascii) (line marker : string) :
  indexOf (String c line) marker
  = if startsWith (String c line) marker then 0
    else if indexOf line marker <? 0 then -1 else indexOf line marker + 1.
Proof. reflexivity. Qed.

#[local] Arguments startsWith : simpl never.
#[local] Arguments indexOf : simpl never.

Lemma indexOf_lower (line marker : string) : -1 <= indexOf line marker.
Proof.
  induction line as [|c line IH].
  - rewrite indexOf_nil. destruct (startsWith "" marker); lia.
  - rewrite indexOf_cons.
    destruct (startsWith (String c line) marker); [lia |].
    destruct (Z.ltb_spec (indexOf line marker) 0); lia.
Qed.

(** A result other than [-1] is the position of the first occurrence. *)
Lemma indexOf_found (line marker : string) :
  indexOf line marker <> -1 ->
  exists before after,
    line = before ++ after
    /\ indexOf line marker = Z.of_nat (String.length before)
    /\ startsWith after marker = true
    /\ forall pre, occursAfter line marker pre ->
         (String.length before <= String.length pre)%nat.
Proof.
  induction line as [|c line IH].
  - rewrite indexOf_nil. destruct (startsWith "" marker) eqn:E; [| congruence].
    intros _. exists "", "". repeat split; auto. intros; simpl; lia.
  - rewrite indexOf_cons.
    destruct (startsWith (String c line) marker) eqn:E.
    + intros _. exists "", (String c line). repeat split; auto.
      intros; simpl; lia.
    + destruct (Z.ltb_spec (indexOf line marker) 0) as [Hlt | Hge]; [congruence |].
      intros _. destruct IH as (before & after & Hl & Hi & Hs & Hmin); [lia |].
      exists (String c before), after. repeat split.
      * simpl. now rewrite Hl.
      * rewrite Hi. simpl String.length. lia.
      * exact Hs.
      * intros pre [post Hpre]. destruct pre as [|x pre]; simpl in Hpre.
        -- assert (Hst : startsWith (String c line) marker = true)
             by (apply startsWith_spec; eauto).
           congruence.
        -- injection Hpre as _ Hpre.
           assert (String.length before <= String.length pre)%nat
             by (apply Hmin; exists post; exact Hpre).
           simpl. lia.
Qed.

(** The result [-1] means that [marker] does not occur. *)
Lemma indexOf_absent (line marker : string) :
  indexOf line marker = -1 -> forall pre, ~ occursAfter line marker pre.
Proof.
  induction line as [|c line IH].
  - rewrite indexOf_nil. destruct (startsWith "" marker) eqn:E; [discriminate |].
    intros _ pre [post H]. destruct pre; simpl in H.
    + assert (startsWith "" marker = true) by (apply startsWith_spec; eauto).
      congruence.
    + discriminate.
  - rewrite indexOf_cons.
    destruct (startsWith (String c line) marker) eqn:E; [discriminate |].
    pose proof (indexOf_lower line marker) as Hlow.
    destruct (Z.ltb_spec (indexOf line marker) 0) as [Hlt | Hge]; [| lia].
    intros _ pre [post H]. destruct pre as [|x pre]; simpl in H.
    + assert (startsWith (String c line) marker = true)
        by (apply startsWith_spec; eauto).
      congruence.
    + injection H as _ H. apply (IH ltac:(lia) pre). exists post. exact H.
Qed.

(** [includes] decides whether the marker occurs. *)
Lemma includes_spec (line marker : string) :
  includes line marker = true <-> exists pre, occursAfter line marker pre.
Proof.
  unfold includes. split.
  - intros H. destruct (Z.eqb_spec (indexOf line marker) (-1)) as [E | E];
      [discriminate |].
    destruct (indexOf_found line marker E) as (before & after & Hl & _ & Hs & _).
    apply startsWith_spec in Hs. destruct Hs as [rest ->].
    exists before, rest. exact Hl.
  - intros [pre Hocc].
    destruct (Z.eqb_spec (indexOf line marker) (-1)) as [E | E]; [| reflexivity].
    exfalso. exact (indexOf_absent line marker E pre Hocc).
Qed.

(** ** The scanning loop *)

Example scan_head :
  scanLines "</head>" ["X"] (readline ("<head>" ++ NL ++ "</head>" ++ NL))
  = Scan true ("<head>" ++ NL ++ "X" ++ NL ++ "</head>" ++ NL).
Proof. vm_compute. reflexivity. Qed.

Lemma unlines_app (a b : list string) :
  unlines (a ++ b)%list = unlines a ++ unlines b.
Proof.
  induction a as [|l a IH]; simpl; [reflexivity |].
  rewrite IH, !sapp_assoc. reflexivity.
Qed.

(** What the loop writes for the block is the block's lines, each followed
    by ["\n"], when the block has a line. *)
Lemma join_unlines (blockLines : list string) :
  blockLines <> [] -> join NL blockLines ++ NL = unlines blockLines.
Proof.
  induction blockLines as [|l rest IH]; [congruence |]. intros _.
  destruct rest as [|l' rest].
  - reflexivity.
  - change (join NL (l :: l' :: rest)) with (l ++ NL ++ join NL (l' :: rest)).
    change (unlines (l :: l' :: rest)) with (l ++ NL ++ unlines (l' :: rest)).
    rewrite <- IH by congruence. rewrite !sapp_assoc. reflexivity.
Qed.

(** Once the block is in, and as long as no line has the marker, the loop
    copies. *)
Lemma scan_copy marker blockLines (lines : list string) (st : scan) :
  inserted st = true \/ Forall (fun l => includes l marker = false) lines ->
  fold_left (scanLine marker blockLines) lines st
  = Scan (inserted st) (written st ++ unlines lines).
Proof.
  revert st. induction lines as [|l lines IH]; intros st H; simpl.
  - rewrite sapp_nil_r. destruct st; reflexivity.
  - assert (Hstep : scanLine marker blockLines st l
                    = Scan (inserted st) (written st ++ (l ++ NL))).
    { unfold scanLine. destruct H as [H | H].
      - rewrite H. reflexivity.
      - inversion H as [|? ? Hl _]; subst. rewrite Hl, andb_false_r. reflexivity. }
    rewrite Hstep, IH.
    + simpl. rewrite !sapp_assoc. reflexivity.
    + simpl. destruct H as [H | H]; [left; exact H | right].
      inversion H; assumption.
Qed.

(** The iteration on the first line that has the marker. *)
Lemma scan_insert marker blockLines (w line : string) :
  includes line marker = true ->
  exists before after,
    line = before ++ after
    /\ (exists rest, after = marker ++ rest)
    /\ (forall pre, occursAfter line marker pre ->
          (String.length before <= String.length pre)%nat)
    /\ scanLine marker blockLines (Scan false w) line
       = Scan true (w ++ (if decide (before = "") then "" else before ++ NL)
                      ++ (join NL blockLines ++ NL) ++ (after ++ NL)).
Proof.
  intros Hinc. unfold scanLine. simpl inserted. simpl written.
  rewrite Hinc. simpl negb. cbn [andb].
  assert (Hidx : indexOf line marker <> -1).
  { unfold includes in Hinc. destruct (Z.eqb_spec (indexOf line marker) (-1));
      [discriminate | assumption]. }
  destruct (indexOf_found line marker Hidx) as (before & after & Hl & Hi & Hs & Hmin).
  exists before, after. split; [exact Hl |].
  split; [apply startsWith_spec; exact Hs |]. split; [exact Hmin |].
  rewrite Hi. subst line. cbv zeta. rewrite slice_before, sliceFrom_after.
  destruct before as [|c before].
  - simpl. rewrite !sapp_assoc. reflexivity.
  - replace (0 <? Z.of_nat (String.length (String c before))) with true
      by (symmetry; apply Z.ltb_lt; simpl; lia).
    destruct (decide (String c before = "")) as [E | _]; [discriminate |].
    rewrite !sapp_assoc. reflexivity.
Qed.

Lemma first_match_split marker (lines : list string) :
  Exists (fun l => includes l marker = true) lines ->
  exists pre line post,
    lines = (pre ++ line :: post)%list
    /\ Forall (fun l => includes l marker = false) pre
    /\ includes line marker = true.
Proof.
  induction lines as [|l lines IH]; intros H.
  - inversion H.
  - destruct (includes l marker) eqn:E.
    + exists [], l, lines. repeat split; auto.
    + destruct IH as (pre & line & post & -> & Hpre & Hline).
      { inversion H as [? ? Hl | ? ? Hr]; subst; [congruence | assumption]. }
      exists (l :: pre), line, post. repeat split; auto.
Qed.

(** The loop on a line sequence cut at its first line with the marker. *)
Lemma scanLines_split marker blockLines (pre post : list string) (line : string) :
  Forall (fun l => includes l marker = false) pre ->
  includes line marker = true ->
  exists before after,
    line = before ++ after
    /\ (exists rest, after = marker ++ rest)
    /\ (forall p, occursAfter line marker p ->
          (String.length before <= String.length p)%nat)
    /\ scanLines marker blockLines (pre ++ line :: post)%list
       = Scan true (unlines pre
                      ++ (if decide (before = "") then "" else before ++ NL)
                      ++ (join NL blockLines ++ NL)
                      ++ (after ++ NL)
                      ++ unlines post).
Proof.
  intros Hpre Hline. unfold scanLines. rewrite fold_left_app.
  rewrite (scan_copy marker blockLines pre) by (right; exact Hpre).
  simpl inserted. simpl written. change ("" ++ unlines pre) with (unlines pre).
  change (fold_left ?f (line :: post) ?st) with (fold_left f post (f st line)).
  destruct (scan_insert marker blockLines (unlines pre) line Hline)
    as (before & after & Hl & Hs & Hmin & Hstep).
  exists before, after. repeat split; try assumption.
  rewrite Hstep, scan_copy by (left; reflexivity).
  simpl inserted. simpl written. rewrite !sapp_assoc. reflexivity.
Qed.

(** Without the marker nothing is inserted. *)
Lemma scanLines_absent marker blockLines (lines : list string) :
  Forall (fun l => includes l marker = false) lines ->
  scanLines marker blockLines lines = Scan false (unlines lines).
Proof.
  intros H. unfold scanLines. rewrite scan_copy by (right; exact H). reflexivity.
Qed.

Lemma match_or_none marker (lines : list string) :
  Exists (fun l => includes l marker = true) lines
  \/ Forall (fun l => includes l marker = false) lines.
Proof.
  induction lines as [|l lines [IH | IH]].
  - right. constructor.
  - left. apply Exists_cons_tl. exact IH.
  - destruct (includes l marker) eqn:E.
    + left. apply Exists_cons_hd. exact E.
    + right. constructor; assumption.
Qed.

(** The flag is set only when a line has the marker. *)
Lemma scanLines_inserted marker blockLines (lines : list string) :
  inserted (scanLines marker blockLines lines) = true ->
  Exists (fun l => includes l marker = true) lines.
Proof.
  intros H. destruct (match_or_none marker lines) as [Hex | Hno]; [exact Hex |].
  rewrite scanLines_absent in H by exact Hno. discriminate.
Qed.

(** A text that ends in a line followed by ["\n"] and copied lines ends in
    ["\n"]. *)
Lemma unlines_ends_NL (a : string) (post : list string) :
  exists body, a ++ NL ++ unlines post = body ++ NL.
Proof.
  revert a. induction post as [|l post IH]; intros a.
  - exists a. reflexivity.
  - destruct (IH (a ++ NL ++ l)) as [body Hb]. exists body.
    rewrite <- Hb. simpl unlines. rewrite !sapp_assoc. reflexivity.
Qed.

(** ** The lines [readline] delivers *)

Lemma terminated_NL lines : terminated NL lines = unlines lines.
Proof. induction lines as [|l lines IH]; simpl; [reflexivity | now rewrite IH]. Qed.

Lemma lineClean_app (a b : string) :
  lineClean (a ++ b) = lineClean a && lineClean b.
Proof.
  induction a as [|c a IH]; simpl; [reflexivity |].
  destruct (decide (c = LF)); [reflexivity |].
  destruct (decide (c = CR)); [reflexivity | exact IH].
Qed.

Lemma readlineFrom_cons_clean (buf : string) (c : ascii) (text : string) :
  c <> LF -> c <> CR ->
  readlineFrom buf (String c text) = readlineFrom (buf ++ String c "") text.
Proof.
  intros H1 H2. simpl.
  destruct (decide (c = LF)); [contradiction |].
  destruct (decide (c = CR)); [contradiction | reflexivity].
Qed.

(** A clean line that ends in ["\n"] is delivered, joined to the buffer. *)
Lemma readlineFrom_lf (buf line rest : string) :
  lineClean line = true ->
  readlineFrom buf (line ++ String LF rest) = (buf ++ line) :: readlineFrom "" rest.
Proof.
  revert buf. induction line as [|c line IH]; intros buf Hc.
  - simpl. rewrite sapp_nil_r. reflexivity.
  - simpl in Hc. destruct (decide (c = LF)); [discriminate |].
    destruct (decide (c = CR)); [discriminate |].
    change (String c line ++ String LF rest) with (String c (line ++ String LF rest)).
    rewrite readlineFrom_cons_clean, IH by assumption.
    rewrite sapp_assoc. reflexivity.
Qed.



(** No line that [readline] delivers has a carriage return or a line feed. *)
Lemma readlineFrom_clean (text buf : string) :
  lineClean buf = true ->
  Forall (fun l => lineClean l = true) (readlineFrom buf text).
Proof.
  revert buf.
  induction text as [text IH] using (well_founded_induction
    (well_founded_ltof _ String.length)).
  intros buf Hb. destruct text as [|c rest].
  - simpl. destruct (decide (buf = "")); auto.
  - assert (Hrest : Forall (fun l => lineClean l = true) (readlineFrom "" rest)).
    { apply IH; [unfold ltof; simpl; lia | reflexivity]. }
    simpl. destruct (decide (c = LF)); [constructor; assumption |].
    destruct (decide (c = CR)).
    + destruct rest as [|c' rest']; [constructor; assumption |].
      destruct (decide (c' = LF)); [| constructor; assumption].
      constructor; [assumption |].
      apply IH; [unfold ltof; simpl; lia | reflexivity].
    + apply IH; [unfold ltof; simpl; lia |].
      rewrite lineClean_app, Hb. simpl.
      destruct (decide (c = LF)); [contradiction |].
      destruct (decide (c = CR)); [contradiction | reflexivity].
Qed.

Lemma readline_clean (text : string) :
  Forall (fun l => lineClean l = true) (readline text).
Proof. apply readlineFrom_clean. reflexivity. Qed.

(** The same lines come out of a text whose lines end in ["\n"], of one
    whose lines end in ["\r\n"], and of one whose last line has no
    terminator. *)
Lemma readline_lf (lines : list string) :
  Forall (fun l => lineClean l = true) lines ->
  readline (terminated NL lines) = lines.
Proof.
  unfold readline. induction 1 as [|l lines Hl _ IH]; [reflexivity |].
  simpl terminated. change (NL ++ ?t) with (String LF t).
  rewrite readlineFrom_lf, IH by assumption. reflexivity.
Qed.



(** ** Evaluation on a file system *)

Lemma paths_distinct :
  INDEX_FILE ≠ BACKUP_FILE ∧ BACKUP_DIR ≠ BACKUP_FILE ∧ BACKUP_DIR ≠ INDEX_FILE.
Proof. repeat split; discriminate. Qed.

(** Evaluation of a computation on a file system whose relevant lookups are
    known: lookups through [insert] and [delete] are resolved, hypotheses on
    lookups are used, and the matches of the monad are reduced. *)
Ltac fs_step :=
  first
    [ rewrite lookup_insert_eq
    | rewrite lookup_delete_eq
    | rewrite lookup_insert_ne by (first [discriminate | congruence])
    | rewrite lookup_delete_ne by (first [discriminate | congruence])
    | match goal with
      | H : ?m !! ?p = _ |- context [?m !! ?p] => rewrite H
      end ].

Ltac fs_eval := cbn beta iota; repeat (fs_step; cbn beta iota).

Ltac unfold_fs :=
  unfold catchIgnore;
  unfold bind, tryCatch, ret, throw, access, copyFile, chmod,
    stat, readFile, unlink, writeStream.

(** [mkdir] on the backup directory succeeds unless a regular file has its
    name; afterwards the directory exists. *)
Lemma mkdirRecursive_ok fs :
  isRegular (fs !! BACKUP_DIR) = false ->
  mkdirRecursive BACKUP_DIR fs = (Ok tt, <[BACKUP_DIR := Dir]> fs).
Proof.
  unfold mkdirRecursive. intros Hd.
  destruct (fs !! BACKUP_DIR) as [[c m|]|] eqn:E; simpl in Hd.
  - discriminate.
  - rewrite insert_id by exact E. reflexivity.
  - reflexivity.
Qed.

Lemma mkdirRecursive_regular fs :
  isRegular (fs !! BACKUP_DIR) = true ->
  mkdirRecursive BACKUP_DIR fs = (Throw (SystemError "EEXIST" BACKUP_DIR), fs).
Proof.
  unfold mkdirRecursive. intros Hd.
  destruct (fs !! BACKUP_DIR) as [[c m|]|] eqn:E; simpl in Hd;
    [reflexivity | discriminate | discriminate].
Qed.

(** ** [ensureBackup] *)

Lemma ensureBackup_present fs :
  isRegular (fs !! BACKUP_DIR) = false ->
  is_Some (fs !! BACKUP_FILE) ->
  ensureBackup fs = (Ok (BackupResult false), <[BACKUP_DIR := Dir]> fs).
Proof.
  intros Hd [n Hn]. unfold ensureBackup, bind at 1.
  rewrite (mkdirRecursive_ok _ Hd). unfold_fs. fs_eval. reflexivity.
Qed.

Lemma ensureBackup_missing fs :
  isRegular (fs !! BACKUP_DIR) = false ->
  fs !! BACKUP_FILE = None ->
  fs !! INDEX_FILE = None ->
  ensureBackup fs
  = (Throw (Error ("未找到系统文件: " ++ INDEX_FILE)), <[BACKUP_DIR := Dir]> fs).
Proof.
  intros Hd Hb Hi. unfold ensureBackup, bind at 1.
  rewrite (mkdirRecursive_ok _ Hd). unfold_fs. fs_eval. reflexivity.
Qed.

Lemma ensureBackup_create fs content mode :
  isRegular (fs !! BACKUP_DIR) = false ->
  fs !! BACKUP_FILE = None ->
  fs !! INDEX_FILE = Some (File content mode) ->
  ensureBackup fs
  = (Ok (BackupResult true),
     <[BACKUP_FILE := File content mode]> (<[BACKUP_DIR := Dir]> fs)).
Proof.
  intros Hd Hb Hi. unfold ensureBackup, bind at 1.
  rewrite (mkdirRecursive_ok _ Hd). unfold_fs. fs_eval. reflexivity.
Qed.

Lemma ensureBackup_directory fs :
  isRegular (fs !! BACKUP_DIR) = false ->
  fs !! BACKUP_FILE = None ->
  fs !! INDEX_FILE = Some Dir ->
  ensureBackup fs
  = (Throw (SystemError "EISDIR" INDEX_FILE), <[BACKUP_DIR := Dir]> fs).
Proof.
  intros Hd Hb Hi. unfold ensureBackup, bind at 1.
  rewrite (mkdirRecursive_ok _ Hd). unfold_fs. fs_eval.
  rewrite delete_id by (rewrite lookup_insert_ne by discriminate; exact Hb).
  reflexivity.
Qed.

Lemma ensureBackup_blocked fs :
  isRegular (fs !! BACKUP_DIR) = true ->
  ensureBackup fs = (Throw (SystemError "EEXIST" BACKUP_DIR), fs).
Proof.
  intros Hd. unfold ensureBackup, bind at 1.
  rewrite (mkdirRecursive_regular _ Hd). reflexivity.
Qed.

(** ** [injectBlock] on a fresh scratch name *)

Section PatchCycle.

Variable umask : Z.

(** With a scratch name that no node has and that is not the input, the
    call either replaces the content of the input by what the loop wrote,
    or throws and leaves the file system as it was; the scratch file is gone
    in both cases. *)
Lemma injectBlock_fresh (fs : fsmap) tempFile inputPath marker blockLines text mode :
  fs !! tempFile = None ->
  tempFile ≠ inputPath ->
  fs !! inputPath = Some (File text mode) ->
  injectBlock umask tempFile inputPath marker blockLines fs
  = let st := scanLines marker blockLines (readline text) in
    if inserted st
    then (Ok tt, <[inputPath := File (written st) (createMode umask)]> fs)
    else (Throw (Error ("未找到插入位置: " ++ marker)), fs).
Proof.
  intros Hfresh Hne Hin. unfold injectBlock. unfold_fs. fs_eval.
  cbv zeta. destruct (inserted _) eqn:Eins; cbn [negb]; fs_eval.
  - rewrite delete_insert_ne by congruence.
    rewrite !delete_insert_eq, delete_id by exact Hfresh. reflexivity.
  - rewrite !delete_insert_eq, delete_id by exact Hfresh. reflexivity.
Qed.

(** ** The two halves of [injectCode] *)

Lemma bind_ok {A B} (m : M A) (k : A -> M B) fs a fs' :
  m fs = (Ok a, fs') -> bind m k fs = k a fs'.
Proof. intros H. unfold bind. rewrite H. reflexivity. Qed.

Lemma bind_throw {A B} (m : M A) (k : A -> M B) fs e fs' :
  m fs = (Throw e, fs') -> bind m k fs = (Throw e, fs').
Proof. intros H. unfold bind. rewrite H. reflexivity. Qed.

Lemma injectCode_unfold tempCss tempJs p :
  injectCode umask tempCss tempJs p
  = (await_ ensureBackup;
     await_ copyFile BACKUP_FILE INDEX_FILE;
     afterReset umask tempCss tempJs p).
Proof. reflexivity. Qed.

Lemma readTextFromPath_regular (fs : fsmap) path content mode :
  fs !! path = Some (File content mode) ->
  readTextFromPath path fs = (Ok content, fs).
Proof.
  intros H. unfold readTextFromPath. unfold_fs. fs_eval.
  cbn [isFile negb]. fs_eval. reflexivity.
Qed.

Lemma readTextFromPath_absent (fs : fsmap) path :
  fs !! path = None ->
  readTextFromPath path fs = (Throw (SystemError "ENOENT" path), fs).
Proof.
  intros H. unfold readTextFromPath. unfold_fs. fs_eval.
  cbn [isFile negb]. fs_eval. reflexivity.
Qed.

Lemma readTextFromPath_directory (fs : fsmap) path :
  fs !! path = Some Dir ->
  readTextFromPath path fs = (Throw (Error ("路径不是文件: " ++ path)), fs).
Proof.
  intros H. unfold readTextFromPath. unfold_fs. fs_eval.
  cbn [isFile negb]. fs_eval. reflexivity.
Qed.

(** Reading changes nothing. *)
Lemma readTextFromPath_frame (fs : fsmap) path : (readTextFromPath path fs).2 = fs.
Proof.
  destruct (fs !! path) as [[c m|]|] eqn:E.
  - erewrite readTextFromPath_regular by eassumption. reflexivity.
  - rewrite readTextFromPath_directory by assumption. reflexivity.
  - rewrite readTextFromPath_absent by assumption. reflexivity.
Qed.

Lemma resolveChannel_frame (fs : fsmap) path text :
  (resolveChannel path text fs).2 = fs.
Proof.
  unfold resolveChannel.
  destruct path as [[|c path]|]; simpl;
    try (destruct text as [[|c' text]|]; reflexivity).
  unfold bind. pose proof (readTextFromPath_frame fs (String c path)) as H.
  destruct (readTextFromPath (String c path) fs) as [[t | e] fs']; simpl in *;
    subst; reflexivity.
Qed.

(** One optional insertion into the target: whatever the fresh scratch
    name, the outcome is the same and only the target may have changed. *)
Lemma injectStep_shape (fs : fsmap) content mode (final : option string)
    (marker : string) (block : string -> list string) :
  fs !! INDEX_FILE = Some (File content mode) ->
  exists r content' mode',
    forall tempFile, fs !! tempFile = None ->
      ifTruthy final
        (fun x => injectBlock umask tempFile INDEX_FILE marker (block x))
        (ret tt) fs
      = (r, <[INDEX_FILE := File content' mode']> fs).
Proof.
  intros Hi.
  assert (Hid : <[INDEX_FILE := File content mode]> fs = fs) by (apply insert_id; exact Hi).
  destruct final as [[|c x]|]; simpl.
  - exists (Ok tt), content, mode. intros _ _. now rewrite Hid.
  - destruct (inserted (scanLines marker (block (String c x)) (readline content))) eqn:E.
    + exists (Ok tt), (written (scanLines marker (block (String c x)) (readline content))),
        (createMode umask).
      intros t Ht. erewrite injectBlock_fresh by (eassumption || congruence).
      cbv zeta. rewrite E. reflexivity.
    + exists (Throw (Error ("未找到插入位置: " ++ marker))), content, mode.
      intros t Ht. erewrite injectBlock_fresh by (eassumption || congruence).
      cbv zeta. rewrite E, Hid. reflexivity.
  - exists (Ok tt), content, mode. intros _ _. now rewrite Hid.
Qed.

(** The second half of [injectCode] on a file system with a regular target:
    whatever the fresh scratch names, the outcome is the same and only the
    target may have changed. *)
Lemma afterReset_shape (fs : fsmap) (p : payload) content mode :
  fs !! INDEX_FILE = Some (File content mode) ->
  exists r content' mode',
    forall tempCss tempJs, fs !! tempCss = None -> fs !! tempJs = None ->
      afterReset umask tempCss tempJs p fs = (r, <[INDEX_FILE := File content' mode']> fs).
Proof.
  intros Hi.
  assert (Hid : <[INDEX_FILE := File content mode]> fs = fs) by (apply insert_id; exact Hi).
  unfold afterReset, applyPayload.
  pose proof (resolveChannel_frame fs (cssPath p) (cssText p)) as Fc.
  destruct (resolveChannel (cssPath p) (cssText p) fs) as [[finalCss | e] fs0] eqn:Ec;
    simpl in Fc; subst fs0.
  2: { exists (Throw e), content, mode. intros.
       rewrite (bind_throw _ _ _ _ _ Ec), Hid. reflexivity. }
  pose proof (resolveChannel_frame fs (jsPath p) (jsText p)) as Fj.
  destruct (resolveChannel (jsPath p) (jsText p) fs) as [[finalJs | e] fs0] eqn:Ej;
    simpl in Fj; subst fs0.
  2: { exists (Throw e), content, mode. intros.
       rewrite (bind_ok _ _ _ _ _ Ec), (bind_throw _ _ _ _ _ Ej), Hid. reflexivity. }
  destruct (negb (truthy finalCss) && negb (truthy finalJs)) eqn:Eempty.
  { exists (Ok (InjectResult false "未提供任何 CSS/JS 内容")), content, mode. intros.
    rewrite (bind_ok _ _ _ _ _ Ec), (bind_ok _ _ _ _ _ Ej), Eempty.
    unfold ret. rewrite Hid. reflexivity. }
  destruct (injectStep_shape fs content mode finalCss "</head>"
              (fun css => ["<style>"; "/* Injected CSS */"; css; "</style>"]) Hi)
    as (r1 & c1 & m1 & H1).
  destruct r1 as [[] | e1].
  2: { exists (Throw e1), c1, m1. intros t1 t2 Ht1 Ht2.
       rewrite (bind_ok _ _ _ _ _ Ec), (bind_ok _ _ _ _ _ Ej), Eempty.
       rewrite (bind_throw _ _ _ _ _ (H1 t1 Ht1)). reflexivity. }
  assert (Hi1 : <[INDEX_FILE := File c1 m1]> fs !! INDEX_FILE = Some (File c1 m1))
    by apply lookup_insert_eq.
  destruct (injectStep_shape _ c1 m1 finalJs "</body>"
              (fun js => ["<script>"; "// Injected JS"; js; "</script>"]) Hi1)
    as (r2 & c2 & m2 & H2).
  assert (Hfresh : forall t, fs !! t = None ->
            <[INDEX_FILE := File c1 m1]> fs !! t = None).
  { intros t Ht. rewrite lookup_insert_ne by congruence. exact Ht. }
  destruct r2 as [[] | e2].
  2: { exists (Throw e2), c2, m2. intros t1 t2 Ht1 Ht2.
       rewrite (bind_ok _ _ _ _ _ Ec), (bind_ok _ _ _ _ _ Ej), Eempty.
       rewrite (bind_ok _ _ _ _ _ (H1 t1 Ht1)).
       rewrite (bind_throw _ _ _ _ _ (H2 t2 (Hfresh t2 Ht2))).
       rewrite insert_insert_eq. reflexivity. }
  exists (Ok (InjectResult true "注入成功，请强制刷新浏览器 (Ctrl+F5) 查看效果。")),
    c2, MODE_644.
  intros t1 t2 Ht1 Ht2.
  rewrite (bind_ok _ _ _ _ _ Ec), (bind_ok _ _ _ _ _ Ej), Eempty.
  rewrite (bind_ok _ _ _ _ _ (H1 t1 Ht1)).
  rewrite (bind_ok _ _ _ _ _ (H2 t2 (Hfresh t2 Ht2))).
  unfold_fs. fs_eval. rewrite !insert_insert_eq. reflexivity.
Qed.

Lemma injectCode_prologue tempCss tempJs p fs :
  injectCode umask tempCss tempJs p fs
  = bind prologue (fun _ => afterReset umask tempCss tempJs p) fs.
Proof.
  rewrite injectCode_unfold. unfold prologue, bind.
  destruct (ensureBackup fs) as [[r | e] fs0]; [| reflexivity].
  destruct (copyFile BACKUP_FILE INDEX_FILE fs0) as [[[] | e] fs1]; reflexivity.
Qed.

(** The first half in closed form, by the nodes at the three paths it looks
    at. *)
Lemma prologue_eval (fs : fsmap) :
  prologue fs
  = if isRegular (fs !! BACKUP_DIR)
    then (Throw (SystemError "EEXIST" BACKUP_DIR), fs)
    else
      let fs0 := <[BACKUP_DIR := Dir]> fs in
      match fs !! BACKUP_FILE, fs !! INDEX_FILE with
      | Some (File content mode), Some Dir =>
          (Throw (SystemError "EISDIR" BACKUP_FILE), fs0)
      | Some (File content mode), _ =>
          (Ok tt, <[INDEX_FILE := File content mode]> fs0)
      | Some Dir, Some Dir => (Throw (SystemError "EISDIR" BACKUP_FILE), fs0)
      | Some Dir, _ =>
          (Throw (SystemError "EISDIR" BACKUP_FILE), delete INDEX_FILE fs0)
      | None, None => (Throw (Error ("未找到系统文件: " ++ INDEX_FILE)), fs0)
      | None, Some Dir => (Throw (SystemError "EISDIR" INDEX_FILE), fs0)
      | None, Some (File content mode) =>
          (Ok tt, <[INDEX_FILE := File content mode]>
                    (<[BACKUP_FILE := File content mode]> fs0))
      end.
Proof.
  unfold prologue. destruct (isRegular (fs !! BACKUP_DIR)) eqn:Ed.
  - rewrite (bind_throw _ _ _ _ _ (ensureBackup_blocked fs Ed)). reflexivity.
  - cbv zeta. destruct (fs !! BACKUP_FILE) as [[c m|]|] eqn:Eb.
    + rewrite (bind_ok _ _ _ _ _ (ensureBackup_present fs Ed ltac:(rewrite Eb; eauto))).
      unfold_fs. fs_eval.
      destruct (fs !! INDEX_FILE) as [[c' m'|]|] eqn:Ei; reflexivity.
    + rewrite (bind_ok _ _ _ _ _ (ensureBackup_present fs Ed ltac:(rewrite Eb; eauto))).
      unfold_fs. fs_eval.
      destruct (fs !! INDEX_FILE) as [[c' m'|]|] eqn:Ei; reflexivity.
    + destruct (fs !! INDEX_FILE) as [[c' m'|]|] eqn:Ei.
      * rewrite (bind_ok _ _ _ _ _ (ensureBackup_create fs c' m' Ed Eb Ei)).
        unfold_fs. fs_eval. reflexivity.
      * rewrite (bind_throw _ _ _ _ _ (ensureBackup_directory fs Ed Eb Ei)).
        reflexivity.
      * rewrite (bind_throw _ _ _ _ _ (ensureBackup_missing fs Ed Eb Ei)).
        reflexivity.
Qed.

(** The first half touches the server's three paths only. *)
Lemma prologue_frame (fs : fsmap) path :
  path <> INDEX_FILE -> path <> BACKUP_FILE -> path <> BACKUP_DIR ->
  (prologue fs).2 !! path = fs !! path.
Proof.
  intros H1 H2 H3. rewrite prologue_eval.
  destruct (isRegular (fs !! BACKUP_DIR)); [reflexivity |]. cbv zeta.
  destruct (fs !! BACKUP_FILE) as [[c m|]|]; destruct (fs !! INDEX_FILE) as [[c' m'|]|];
    simpl; fs_eval; reflexivity.
Qed.

(** A failed first half fails again in the same way, from the file system
    it left. *)
Lemma prologue_throw_again (fs fs' : fsmap) e :
  prologue fs = (Throw e, fs') -> prologue fs' = (Throw e, fs').
Proof.
  rewrite prologue_eval. destruct (isRegular (fs !! BACKUP_DIR)) eqn:Ed.
  - intros [= <- <-]. rewrite prologue_eval, Ed. reflexivity.
  - cbv zeta.
    assert (Hd : isRegular (<[BACKUP_DIR := Dir]> fs !! BACKUP_DIR) = false)
      by (rewrite lookup_insert_eq; reflexivity).
    destruct (fs !! BACKUP_FILE) as [[c m|]|] eqn:Eb;
      destruct (fs !! INDEX_FILE) as [[c' m'|]|] eqn:Ei;
      intros [= <- <-]; rewrite prologue_eval; fs_eval; cbn [isRegular];
      cbv zeta; fs_eval; try (rewrite insert_insert_eq; reflexivity);
      f_equal; apply map_eq; intros k;
      (destruct (decide (k = INDEX_FILE)) as [Ek | Ek];
       [rewrite Ek
       | destruct (decide (k = BACKUP_DIR)) as [Ek' | Ek']; [rewrite Ek' |]]);
      fs_eval; reflexivity.
Qed.

(** A successful first half leaves the target and the backup as the same
    regular file, and is undone by no later change of the target's
    content: run again, it restores the same file system. *)
Lemma prologue_ok_again (fs fs1 : fsmap) :
  prologue fs = (Ok tt, fs1) ->
  exists content mode,
    fs1 !! INDEX_FILE = Some (File content mode)
    /\ fs1 !! BACKUP_FILE = Some (File content mode)
    /\ forall content' mode',
         prologue (<[INDEX_FILE := File content' mode']> fs1) = (Ok tt, fs1).
Proof.
  rewrite prologue_eval. destruct (isRegular (fs !! BACKUP_DIR)) eqn:Ed;
    [discriminate |]. cbv zeta.
  assert (Hre : forall (m : fsmap) content mode,
    m !! BACKUP_DIR = Some Dir ->
    m !! BACKUP_FILE = Some (File content mode) ->
    m !! INDEX_FILE = Some (File content mode) ->
    forall content' mode',
      prologue (<[INDEX_FILE := File content' mode']> m) = (Ok tt, m)).
  { intros m content mode Hmd Hmb Hmi content' mode'. rewrite prologue_eval.
    fs_eval. cbn [isRegular]. cbv zeta. fs_eval.
    rewrite (insert_insert_ne _ BACKUP_DIR INDEX_FILE) by discriminate.
    rewrite insert_insert_eq.
    rewrite (insert_id m BACKUP_DIR) by exact Hmd.
    rewrite (insert_id m INDEX_FILE) by exact Hmi. reflexivity. }
  destruct (fs !! BACKUP_FILE) as [[c m|]|] eqn:Eb;
    destruct (fs !! INDEX_FILE) as [[c' m'|]|] eqn:Ei;
    intros [= <-]; try discriminate.
  - exists c, m. split; [fs_eval; reflexivity |]. split; [fs_eval; reflexivity |].
    apply (Hre _ c m); fs_eval; reflexivity.
  - exists c, m. split; [fs_eval; reflexivity |]. split; [fs_eval; reflexivity |].
    apply (Hre _ c m); fs_eval; reflexivity.
  - exists c', m'. split; [fs_eval; reflexivity |]. split; [fs_eval; reflexivity |].
    apply (Hre _ c' m'); fs_eval; reflexivity.
Qed.

Lemma fresh_after_prologue (fs : fsmap) tempFile :
  fresh fs tempFile -> (prologue fs).2 !! tempFile = None.
Proof.
  intros (Hn & H1 & H2 & H3). rewrite prologue_frame by assumption. exact Hn.
Qed.

(** A call of [injectCode] either fails in its first half, or ends on the
    file system of the first half with a new target; the scratch names do
    not matter as long as they are fresh. *)
Lemma injectCode_shape (fs : fsmap) (p : payload) :
  (exists e fs',
      prologue fs = (Throw e, fs')
      /\ forall tempCss tempJs,
           injectCode umask tempCss tempJs p fs = (Throw e, fs'))
  \/ (exists fs1 r content' mode',
        prologue fs = (Ok tt, fs1)
        /\ (forall tempCss tempJs,
              fs1 !! tempCss = None -> fs1 !! tempJs = None ->
              afterReset umask tempCss tempJs p fs1
              = (r, <[INDEX_FILE := File content' mode']> fs1))
        /\ forall tempCss tempJs, fresh fs tempCss -> fresh fs tempJs ->
             injectCode umask tempCss tempJs p fs
             = (r, <[INDEX_FILE := File content' mode']> fs1)).
Proof.
  destruct (prologue fs) as [[[] | e] fs1] eqn:Ep.
  - right. destruct (prologue_ok_again fs fs1 Ep) as (c & m & Hi & _ & _).
    destruct (afterReset_shape fs1 p c m Hi) as (r & c' & m' & Hshape).
    exists fs1, r, c', m'. split; [reflexivity |]. split; [exact Hshape |].
    intros t1 t2 F1 F2. rewrite injectCode_prologue, (bind_ok _ _ _ _ _ Ep).
    apply Hshape.
    + pose proof (fresh_after_prologue fs t1 F1) as H. rewrite Ep in H. exact H.
    + pose proof (fresh_after_prologue fs t2 F2) as H. rewrite Ep in H. exact H.
  - left. exists e, fs1. split; [reflexivity |].
    intros t1 t2. rewrite injectCode_prologue. apply bind_throw. exact Ep.
Qed.

(** Fresh scratch names do not show in the outcome. *)
Lemma injectCode_scratch (fs : fsmap) (p : payload) t1 t2 t1' t2' :
  fresh fs t1 -> fresh fs t2 -> fresh fs t1' -> fresh fs t2' ->
  injectCode umask t1 t2 p fs = injectCode umask t1' t2' p fs.
Proof.
  intros F1 F2 F1' F2'.
  destruct (injectCode_shape fs p)
    as [(e & fs' & _ & H) | (fs1 & r & c' & m' & _ & _ & H)].
  - rewrite !H. reflexivity.
  - rewrite (H t1 t2), (H t1' t2') by assumption. reflexivity.
Qed.

(** They are fresh again after the call. *)
Lemma injectCode_keeps_fresh (fs : fsmap) (p : payload) t1 t2 t :
  fresh fs t1 -> fresh fs t2 -> fresh fs t ->
  fresh (injectCode umask t1 t2 p fs).2 t.
Proof.
  intros F1 F2 F. pose proof (fresh_after_prologue fs t F) as Hp.
  destruct F as (Hn & H1 & H2 & H3). unfold fresh. repeat split; try assumption.
  destruct (injectCode_shape fs p)
    as [(e & fs' & Ep & H) | (fs1 & r & c' & m' & Ep & _ & H)].
  - rewrite H. rewrite Ep in Hp. exact Hp.
  - rewrite (H t1 t2) by assumption. simpl.
    rewrite lookup_insert_ne by congruence. rewrite Ep in Hp. exact Hp.
Qed.

(** A second call, on the file system the first call left, has the outcome
    of the first call and leaves that file system as it is. *)
Lemma injectCode_again (fs : fsmap) (p : payload) t1 t2 t1' t2' :
  fresh fs t1 -> fresh fs t2 -> fresh fs t1' -> fresh fs t2' ->
  injectCode umask t1' t2' p (injectCode umask t1 t2 p fs).2
  = injectCode umask t1 t2 p fs.
Proof.
  intros F1 F2 F1' F2'.
  pose proof (fresh_after_prologue fs t1' F1') as Hp1.
  pose proof (fresh_after_prologue fs t2' F2') as Hp2.
  destruct (injectCode_shape fs p)
    as [(e & fs' & Ep & H) | (fs1 & r & c' & m' & Ep & Hshape & H)].
  - rewrite !H. simpl. rewrite injectCode_prologue.
    apply bind_throw. exact (prologue_throw_again fs fs' e Ep).
  - rewrite (H t1 t2) by assumption. simpl.
    destruct (prologue_ok_again fs fs1 Ep) as (c & m & _ & _ & Hagain).
    rewrite injectCode_prologue, (bind_ok _ _ _ _ _ (Hagain c' m')).
    rewrite Ep in Hp1, Hp2. apply Hshape; assumption.
Qed.

End PatchCycle.

(** ** The payload channels *)

Lemma truthy_inv (v : option string) :
  truthy v = true -> exists c rest, v = Some (String c rest).
Proof. destruct v as [[|c rest]|]; simpl; try discriminate. eauto. Qed.

Lemma resolveChannel_reference (fs : fsmap) path text text' :
  truthy path = true ->
  resolveChannel path text fs = resolveChannel path text' fs.
Proof. intros H. apply truthy_inv in H as (c & rest & ->). reflexivity. Qed.

Lemma resolveChannel_regular (fs : fsmap) path text content mode :
  truthy (Some path) = true ->
  fs !! path = Some (File content mode) ->
  resolveChannel (Some path) text fs = (Ok (Some content), fs).
Proof.
  intros H Hf. apply truthy_inv in H as (c & rest & [= ->]).
  unfold resolveChannel. simpl ifTruthy.
  rewrite (bind_ok _ _ _ _ _ (readTextFromPath_regular fs _ content mode Hf)).
  reflexivity.
Qed.

Lemma resolveChannel_unreadable (fs : fsmap) path text :
  truthy (Some path) = true ->
  isRegular (fs !! path) = false ->
  exists e, resolveChannel (Some path) text fs = (Throw e, fs).
Proof.
  intros H Hf. apply truthy_inv in H as (c & rest & [= ->]).
  unfold resolveChannel. simpl ifTruthy.
  destruct (fs !! String c rest) as [[c' m'|]|] eqn:E; simpl in Hf; [discriminate | |].
  - eexists. apply bind_throw. apply readTextFromPath_directory. exact E.
  - eexists. apply bind_throw. apply readTextFromPath_absent. exact E.
Qed.

Lemma resolveChannel_inline (fs : fsmap) path text :
  truthy path = false ->
  normalised (resolveChannel path text fs) = (Ok (norm text), fs).
Proof.
  intros H. unfold resolveChannel.
  destruct path as [[|c rest]|]; simpl in H; try discriminate;
    destruct text as [[|c' rest']|]; reflexivity.
Qed.

Section Channels.

Variable umask : Z.

Lemma applyPayload_norm tempCss tempJs finalCss finalJs :
  applyPayload umask tempCss tempJs finalCss finalJs
  = applyPayload umask tempCss tempJs (norm finalCss) (norm finalJs).
Proof.
  destruct finalCss as [[|c css]|]; destruct finalJs as [[|c' js]|]; reflexivity.
Qed.

(** The second half of [injectCode] sees a payload through the resolved
    channels only, and an empty text as no text. *)
Lemma afterReset_congr tempCss tempJs (p p' : payload) (fs : fsmap) :
  normalised (resolveChannel (cssPath p) (cssText p) fs)
  = normalised (resolveChannel (cssPath p') (cssText p') fs) ->
  normalised (resolveChannel (jsPath p) (jsText p) fs)
  = normalised (resolveChannel (jsPath p') (jsText p') fs) ->
  afterReset umask tempCss tempJs p fs = afterReset umask tempCss tempJs p' fs.
Proof.
  intros Hc Hj. unfold afterReset, bind.
  pose proof (resolveChannel_frame fs (cssPath p) (cssText p)) as F1.
  pose proof (resolveChannel_frame fs (cssPath p') (cssText p')) as F2.
  destruct (resolveChannel (cssPath p) (cssText p) fs) as [[c | e] s1];
    destruct (resolveChannel (cssPath p') (cssText p') fs) as [[c' | e'] s2];
    simpl in *; subst; try discriminate; [| congruence].
  injection Hc as Hc.
  pose proof (resolveChannel_frame fs (jsPath p) (jsText p)) as F3.
  pose proof (resolveChannel_frame fs (jsPath p') (jsText p')) as F4.
  destruct (resolveChannel (jsPath p) (jsText p) fs) as [[j | e] s1];
    destruct (resolveChannel (jsPath p') (jsText p') fs) as [[j' | e'] s2];
    simpl in *; subst; try discriminate; [| congruence].
  injection Hj as Hj.
  rewrite (applyPayload_norm _ _ c j), (applyPayload_norm _ _ c' j'), Hc, Hj.
  reflexivity.
Qed.

Lemma injectCode_congr tempCss tempJs (p p' : payload) (fs : fsmap) :
  normalised (resolveChannel (cssPath p) (cssText p) (prologue fs).2)
  = normalised (resolveChannel (cssPath p') (cssText p') (prologue fs).2) ->
  normalised (resolveChannel (jsPath p) (jsText p) (prologue fs).2)
  = normalised (resolveChannel (jsPath p') (jsText p') (prologue fs).2) ->
  injectCode umask tempCss tempJs p fs = injectCode umask tempCss tempJs p' fs.
Proof.
  intros Hc Hj. rewrite !injectCode_prologue. unfold bind.
  destruct (prologue fs) as [[[] | e] fs1]; [| reflexivity].
  apply afterReset_congr; assumption.
Qed.

(** A call whose resolution fails stops on the file system of the first
    half. *)
Lemma injectCode_throw_css tempCss tempJs (p : payload) (fs fs1 : fsmap) e :
  prologue fs = (Ok tt, fs1) ->
  resolveChannel (cssPath p) (cssText p) fs1 = (Throw e, fs1) ->
  injectCode umask tempCss tempJs p fs = (Throw e, fs1).
Proof.
  intros Hp Hc. rewrite injectCode_prologue, (bind_ok _ _ _ _ _ Hp).
  unfold afterReset. apply bind_throw. exact Hc.
Qed.

Lemma injectCode_throw_js tempCss tempJs (p : payload) (fs fs1 : fsmap) e :
  prologue fs = (Ok tt, fs1) ->
  resolveChannel (jsPath p) (jsText p) fs1 = (Throw e, fs1) ->
  exists e', injectCode umask tempCss tempJs p fs = (Throw e', fs1).
Proof.
  intros Hp Hj. rewrite injectCode_prologue, (bind_ok _ _ _ _ _ Hp).
  unfold afterReset.
  pose proof (resolveChannel_frame fs1 (cssPath p) (cssText p)) as F.
  destruct (resolveChannel (cssPath p) (cssText p) fs1) as [[c | e'] s] eqn:Ec;
    simpl in F; subst s.
  - exists e. rewrite (bind_ok _ _ _ _ _ Ec). apply bind_throw. exact Hj.
  - exists e'. apply bind_throw. exact Ec.
Qed.

End Channels.

(** A reference that is not a regular file at the time of the read makes
    the call throw on the file system of the first half. *)
Lemma injectCode_unreadable (umask : Z) (fs fs1 : fsmap) (p : payload)
    (tempCss tempJs : string) :
  prologue fs = (Ok tt, fs1) ->
  ifTruthy (cssPath p) (fun path => negb (isRegular (fs1 !! path))) false
  || ifTruthy (jsPath p) (fun path => negb (isRegular (fs1 !! path))) false = true ->
  exists e, injectCode umask tempCss tempJs p fs = (Throw e, fs1).
Proof.
  intros Hp Hfail.
  apply orb_true_iff in Hfail. destruct Hfail as [Hc | Hj].
  - destruct (cssPath p) as [[|c path]|] eqn:Ec; simpl in Hc; try discriminate.
    apply negb_true_iff in Hc.
    destruct (resolveChannel_unreadable fs1 (String c path) (cssText p) eq_refl Hc)
      as [e He].
    exists e. apply (injectCode_throw_css umask _ _ p fs fs1 e Hp).
    rewrite Ec. exact He.
  - destruct (jsPath p) as [[|c path]|] eqn:Ej; simpl in Hj; try discriminate.
    apply negb_true_iff in Hj.
    destruct (resolveChannel_unreadable fs1 (String c path) (jsText p) eq_refl Hj)
      as [e He].
    apply (injectCode_throw_js umask _ _ p fs fs1 e Hp).
    rewrite Ej. exact He.
Qed.

(** After a successful first half the target and the backup are the same
    regular file: the backup of before the call when there was one, the
    target of before the call otherwise. *)
Lemma prologue_ok_spec (fs fs1 : fsmap) :
  prologue fs = (Ok tt, fs1) ->
  exists content mode,
    fs1 !! INDEX_FILE = Some (File content mode)
    /\ fs1 !! BACKUP_FILE = Some (File content mode)
    /\ (is_Some (fs !! BACKUP_FILE) -> fs !! BACKUP_FILE = Some (File content mode))
    /\ (fs !! BACKUP_FILE = None -> fs !! INDEX_FILE = Some (File content mode)).
Proof.
  rewrite prologue_eval. destruct (isRegular (fs !! BACKUP_DIR)); [discriminate |].
  cbv zeta.
  destruct (fs !! BACKUP_FILE) as [[c m|]|] eqn:Eb;
    destruct (fs !! INDEX_FILE) as [[c' m'|]|] eqn:Ei;
    intros [= <-]; try discriminate.
  - exists c, m. repeat split; fs_eval; try reflexivity. discriminate.
  - exists c, m. repeat split; fs_eval; try reflexivity. discriminate.
  - exists c', m'. repeat split; fs_eval; try reflexivity. intros [x Hx]. discriminate.
Qed.

(** * The claims *)

(** C3. When no line of the input file has the marker, [injectBlock] throws
    the error whose message ends with the marker ("insertion point not
    found"), the input file has the content and the permission bits it had
    before the call, and the scratch file does not exist afterwards: the
    file system is the one before the call. *)
Theorem injectBlock_marker_absent (umask : Z) (fs : fsmap)
    (tempFile inputPath marker : string) (blockLines : list string)
    (text : string) (mode : Z) :
  fs !! tempFile = None ->
  fs !! inputPath = Some (File text mode) ->
  Forall (fun line => includes line marker = false) (readline text) ->
  exists fs',
    injectBlock umask tempFile inputPath marker blockLines fs
    = (Throw (Error ("未找到插入位置: " ++ marker)), fs')
    /\ fs' !! inputPath = Some (File text mode)
    /\ fs' !! tempFile = None
    /\ fs' = fs.
Proof.
  intros Hfresh Hin Hno. exists fs.
  rewrite (injectBlock_fresh umask fs tempFile inputPath marker blockLines text mode)
    by (assumption || congruence).
  cbv zeta. rewrite scanLines_absent by exact Hno. simpl inserted.
  repeat split; assumption.
Qed.

Lemma injectBlock_marker_absent_witness :
  exists fs',
    injectBlock 18 "/tmp/fnos-ui-mods-1-a.tmp" INDEX_FILE "</body>" ["X"] fsHeadOnly
    = (Throw (Error ("未找到插入位置: " ++ "</body>")), fs')
    /\ fs' !! INDEX_FILE = Some (File headOnly 420)
    /\ fs' !! "/tmp/fnos-ui-mods-1-a.tmp" = None
    /\ fs' = fsHeadOnly.
Proof.
  apply (injectBlock_marker_absent 18 fsHeadOnly "/tmp/fnos-ui-mods-1-a.tmp"
           INDEX_FILE "</body>" ["X"] headOnly 420).
  - reflexivity.
  - reflexivity.
  - vm_compute. repeat constructor.
Defined.

(** C1. Calls of [injectCode] with the same payload, one after the other
    and as many as one likes, leave the file system, and so the content of
    the target, that a single call leaves.  Every call draws scratch names
    that are fresh. *)
Theorem injectCode_idempotent (umask : Z) (fs : fsmap) (p : payload)
    (tempCss tempJs : string) (temps : list (string * string)) :
  fresh fs tempCss -> fresh fs tempJs ->
  Forall (fun t => fresh fs t.1 /\ fresh fs t.2) temps ->
  temps <> [] ->
  injectRepeatedly umask p temps fs = (injectCode umask tempCss tempJs p fs).2
  /\ contentAt (injectRepeatedly umask p temps fs) INDEX_FILE
     = contentAt (injectCode umask tempCss tempJs p fs).2 INDEX_FILE.
Proof.
  intros F1 F2 Hall Hne.
  assert (Hrest : forall rest,
    Forall (fun t => fresh fs t.1 /\ fresh fs t.2) rest ->
    injectRepeatedly umask p rest (injectCode umask tempCss tempJs p fs).2
    = (injectCode umask tempCss tempJs p fs).2).
  { induction 1 as [|[a b] rest [Fa Fb] _ IH]; [reflexivity |].
    simpl in Fa, Fb. simpl.
    rewrite (injectCode_again umask fs p tempCss tempJs a b) by assumption.
    exact IH. }
  destruct temps as [|[a b] rest]; [congruence |].
  inversion Hall as [|? ? [Fa Fb] Hrest']; subst. simpl in Fa, Fb.
  assert (E : injectRepeatedly umask p ((a, b) :: rest) fs
              = (injectCode umask tempCss tempJs p fs).2).
  { simpl. rewrite (injectCode_scratch umask fs p a b tempCss tempJs) by assumption.
    apply Hrest. exact Hrest'. }
  split; [exact E | now rewrite E].
Qed.

(** C4. Without a backup, [restoreOriginal] throws "backup file not found"
    and changes nothing.  With a backup, it leaves the target with the
    content of the backup and the permission bits [0o644], and the backup
    and every other path as they were. *)
Theorem restoreOriginal_spec (fs : fsmap) :
  (fs !! BACKUP_FILE = None ->
   restoreOriginal fs = (Throw (Error "未找到备份文件"), fs))
  /\ (forall content mode,
        fs !! BACKUP_FILE = Some (File content mode) ->
        isDirectory (fs !! INDEX_FILE) = false ->
        exists fs',
          restoreOriginal fs = (Ok tt, fs')
          /\ fs' !! INDEX_FILE = Some (File content MODE_644)
          /\ contentAt fs' INDEX_FILE = contentAt fs' BACKUP_FILE
          /\ fs' !! BACKUP_FILE = fs !! BACKUP_FILE
          /\ forall path, path <> INDEX_FILE -> fs' !! path = fs !! path).
Proof.
  split.
  - intros Hb. unfold restoreOriginal. unfold_fs. fs_eval. reflexivity.
  - intros content mode Hb Hi.
    exists (<[INDEX_FILE := File content MODE_644]> fs).
    assert (Hrun : restoreOriginal fs
                   = (Ok tt, <[INDEX_FILE := File content MODE_644]> fs)).
    { unfold restoreOriginal. unfold_fs. fs_eval.
      destruct (fs !! INDEX_FILE) as [[c m|]|] eqn:Ei; simpl in Hi;
        try discriminate; fs_eval; rewrite insert_insert_eq; reflexivity. }
    split; [exact Hrun |]. unfold contentAt. fs_eval.
    repeat split. intros path Hp. fs_eval. reflexivity.
Qed.

(** C5. [ensureBackup] never changes the target.  With a backup it returns
    [{created: false}] and leaves every file as it is; without a backup and
    without a target it throws "system file not found" and creates no
    backup; without a backup and with a target it gives the backup the
    content and the permission bits of the target and returns
    [{created: true}].  A call after a successful call returns
    [{created: false}] and changes nothing.  The cases are those in which
    no regular file has the name of the backup directory, so that [mkdir]
    succeeds. *)
Theorem ensureBackup_spec (fs : fsmap) :
  (ensureBackup fs).2 !! INDEX_FILE = fs !! INDEX_FILE
  /\ (isRegular (fs !! BACKUP_DIR) = false ->
      (is_Some (fs !! BACKUP_FILE) ->
       (ensureBackup fs).1 = Ok (BackupResult false)
       /\ forall path, path <> BACKUP_DIR -> (ensureBackup fs).2 !! path = fs !! path)
      /\ (fs !! BACKUP_FILE = None -> fs !! INDEX_FILE = None ->
          (ensureBackup fs).1 = Throw (Error ("未找到系统文件: " ++ INDEX_FILE))
          /\ (ensureBackup fs).2 !! BACKUP_FILE = None)
      /\ (forall content mode,
            fs !! BACKUP_FILE = None -> fs !! INDEX_FILE = Some (File content mode) ->
            (ensureBackup fs).1 = Ok (BackupResult true)
            /\ (ensureBackup fs).2 !! BACKUP_FILE = Some (File content mode))
      /\ (forall r, (ensureBackup fs).1 = Ok r ->
            ensureBackup (ensureBackup fs).2
            = (Ok (BackupResult false), (ensureBackup fs).2))).
Proof.
  assert (Hd' : forall m : fsmap, isRegular (<[BACKUP_DIR := Dir]> m !! BACKUP_DIR) = false)
    by (intros m; rewrite lookup_insert_eq; reflexivity).
  split.
  { destruct (isRegular (fs !! BACKUP_DIR)) eqn:Hd.
    - rewrite ensureBackup_blocked by exact Hd. reflexivity.
    - destruct (fs !! BACKUP_FILE) as [n|] eqn:Eb.
      + rewrite ensureBackup_present by (rewrite ?Eb; eauto). simpl. fs_eval. reflexivity.
      + destruct (fs !! INDEX_FILE) as [[c m|]|] eqn:Ei.
        * rewrite (ensureBackup_create fs c m) by assumption. simpl. fs_eval. reflexivity.
        * rewrite ensureBackup_directory by assumption. simpl. fs_eval. reflexivity.
        * rewrite ensureBackup_missing by assumption. simpl. fs_eval. reflexivity. }
  intros Hd. split; [| split; [| split]].
  - intros Hs. rewrite ensureBackup_present by assumption. simpl.
    split; [reflexivity |]. intros path Hp. fs_eval. reflexivity.
  - intros Hb Hi. rewrite ensureBackup_missing by assumption. simpl.
    split; [reflexivity |]. fs_eval. reflexivity.
  - intros content mode Hb Hi. rewrite (ensureBackup_create fs content mode) by assumption.
    simpl. split; [reflexivity |]. fs_eval. reflexivity.
  - intros r Hr. destruct (fs !! BACKUP_FILE) as [n|] eqn:Eb.
    + rewrite (ensureBackup_present fs) by (rewrite ?Eb; eauto). simpl.
      rewrite ensureBackup_present.
      * rewrite insert_insert_eq. reflexivity.
      * apply Hd'.
      * fs_eval. eauto.
    + destruct (fs !! INDEX_FILE) as [[c m|]|] eqn:Ei.
      * rewrite (ensureBackup_create fs c m) by assumption. simpl.
        rewrite ensureBackup_present.
        -- rewrite (insert_insert_ne _ BACKUP_DIR BACKUP_FILE) by discriminate.
           rewrite insert_insert_eq. reflexivity.
        -- fs_eval. reflexivity.
        -- fs_eval. eauto.
      * rewrite ensureBackup_directory in Hr by assumption. discriminate.
      * rewrite ensureBackup_missing in Hr by assumption. discriminate.
Qed.

(** C6. In a line sequence with a line that has the marker, the loop inserts
    once, at the first such line: the lines in front of it are copied, the
    line is cut at the first occurrence of the marker, the part in front of
    the marker is written as a line of its own unless it is empty, then the
    block, then the part from the marker on as a line of its own, and all
    lines behind are copied, also those with the marker.  The block is
    written as its lines joined by ["\n"] and one more ["\n"], which for a
    block with a line is each of its lines followed by ["\n"]. *)
Theorem scanLines_first_match (marker : string) (blockLines lines : list string) :
  Exists (fun line => includes line marker = true) lines ->
  exists pre line post before after,
    lines = (pre ++ line :: post)%list
    /\ Forall (fun l => includes l marker = false) pre
    /\ line = before ++ after
    /\ (exists rest, after = marker ++ rest)
    /\ (forall p, occursAfter line marker p ->
          (String.length before <= String.length p)%nat)
    /\ scanLines marker blockLines lines
       = Scan true (unlines pre
                      ++ (if decide (before = "") then "" else before ++ NL)
                      ++ (join NL blockLines ++ NL)
                      ++ (after ++ NL)
                      ++ unlines post)
    /\ (blockLines <> [] -> join NL blockLines ++ NL = unlines blockLines).
Proof.
  intros Hex.
  destruct (first_match_split marker lines Hex) as (pre & line & post & -> & Hpre & Hline).
  destruct (scanLines_split marker blockLines pre post line Hpre Hline)
    as (before & after & Hl & Hs & Hmin & Hscan).
  exists pre, line, post, before, after.
  repeat split; try assumption. apply join_unlines.
Qed.

(** C7. On a file with the content ["<head>\n</head>\n"], [injectBlock] with
    the marker ["</head>"] and the block [["X"]] succeeds and leaves the
    file with the content ["<head>\nX\n</head>\n"]. *)
Theorem injectBlock_head_example (umask : Z) (fs : fsmap)
    (tempFile inputPath : string) (mode : Z) :
  fs !! tempFile = None ->
  fs !! inputPath = Some (File ("<head>" ++ NL ++ "</head>" ++ NL) mode) ->
  exists fs',
    injectBlock umask tempFile inputPath "</head>" ["X"] fs = (Ok tt, fs')
    /\ contentAt fs' inputPath
       = Some ("<head>" ++ NL ++ "X" ++ NL ++ "</head>" ++ NL)
    /\ fs' !! tempFile = None.
Proof.
  intros Hfresh Hin.
  exists (<[inputPath := File ("<head>" ++ NL ++ "X" ++ NL ++ "</head>" ++ NL)
                          (createMode umask)]> fs).
  erewrite injectBlock_fresh by (eassumption || congruence).
  cbv zeta. rewrite scan_head. simpl inserted. simpl written. unfold contentAt.
  fs_eval. repeat split; reflexivity || assumption.
Qed.




(** C2, as stated, fails: with no style and no script the call returns
    [{injected: false}], but it has copied the backup over the target, whose
    content is no longer the one of before the call. *)
Lemma injectCode_empty_payload_resets_target :
  injectCode 18 "/tmp/fnos-ui-mods-1-a.tmp" "/tmp/fnos-ui-mods-2-b.tmp"
    emptyPayload fsPatched
  = (Ok (InjectResult false "未提供任何 CSS/JS 内容"),
     <[INDEX_FILE := File headOnly 420]> fsPatched)
  /\ contentAt (<[INDEX_FILE := File headOnly 420]> fsPatched) INDEX_FILE
     <> contentAt fsPatched INDEX_FILE.
Proof.
  split.
  - vm_compute. reflexivity.
  - vm_compute. discriminate.
Qed.

(** C2, amended. When the first half of the call succeeds (the backup is
    there or is made, and is copied over the target) and both channels
    resolve to no content, the call returns [{injected: false}] with its
    message and throws nothing; the target is then the same regular file as
    the backup, which is the backup of before the call when there was one
    and a copy of the target of before the call otherwise. *)
Theorem injectCode_empty_payload (umask : Z) (fs fs1 : fsmap) (p : payload)
    (tempCss tempJs : string) (finalCss finalJs : option string) :
  prologue fs = (Ok tt, fs1) ->
  resolveChannel (cssPath p) (cssText p) fs1 = (Ok finalCss, fs1) ->
  truthy finalCss = false ->
  resolveChannel (jsPath p) (jsText p) fs1 = (Ok finalJs, fs1) ->
  truthy finalJs = false ->
  injectCode umask tempCss tempJs p fs
  = (Ok (InjectResult false "未提供任何 CSS/JS 内容"), fs1)
  /\ exists content mode,
       fs1 !! INDEX_FILE = Some (File content mode)
       /\ fs1 !! BACKUP_FILE = Some (File content mode)
       /\ (is_Some (fs !! BACKUP_FILE) -> fs !! BACKUP_FILE = Some (File content mode))
       /\ (fs !! BACKUP_FILE = None -> fs !! INDEX_FILE = Some (File content mode)).
Proof.
  intros Hp Hc Tc Hj Tj. split; [| exact (prologue_ok_spec fs fs1 Hp)].
  rewrite injectCode_prologue, (bind_ok _ _ _ _ _ Hp). unfold afterReset.
  rewrite (bind_ok _ _ _ _ _ Hc), (bind_ok _ _ _ _ _ Hj).
  unfold applyPayload. rewrite Tc, Tj. reflexivity.
Qed.

(** C9. When the first half of the call has succeeded and a file reference
    of the payload is not a regular file, the call throws on the file system
    of the first half: the target is the same regular file as the backup,
    whatever the target was before the call. *)
Theorem injectCode_resolution_failure (umask : Z) (fs fs1 : fsmap) (p : payload)
    (tempCss tempJs : string) :
  prologue fs = (Ok tt, fs1) ->
  ifTruthy (cssPath p) (fun path => negb (isRegular (fs1 !! path))) false
  || ifTruthy (jsPath p) (fun path => negb (isRegular (fs1 !! path))) false = true ->
  (exists e, injectCode umask tempCss tempJs p fs = (Throw e, fs1))
  /\ exists content mode,
       fs1 !! INDEX_FILE = Some (File content mode)
       /\ fs1 !! BACKUP_FILE = Some (File content mode)
       /\ (is_Some (fs !! BACKUP_FILE) -> fs !! BACKUP_FILE = Some (File content mode))
       /\ (fs !! BACKUP_FILE = None -> fs !! INDEX_FILE = Some (File content mode)).
Proof.
  intros Hp Hfail. split; [| exact (prologue_ok_spec fs fs1 Hp)].
  exact (injectCode_unreadable umask fs fs1 p tempCss tempJs Hp Hfail).
Qed.

(** C8. Per channel: a file reference makes the inline text irrelevant; the
    call then behaves as with the full text of the referenced file given
    inline, and throws when the reference is not a regular file; without a
    reference and without inline text the channel is as if absent; and on
    inline texts alone the call applies them as they are.  [fs1] is the file
    system at the time of the reads, after the first half of the call. *)
Theorem injectCode_channel_precedence (umask : Z) (fs : fsmap) (p : payload)
    (tempCss tempJs : string) :
  let fs1 := (prologue fs).2 in
  let run := injectCode umask tempCss tempJs in
  (truthy (cssPath p) = true -> forall text,
     run p fs = run (Payload text (jsText p) (cssPath p) (jsPath p)) fs)
  /\ (truthy (jsPath p) = true -> forall text,
     run p fs = run (Payload (cssText p) text (cssPath p) (jsPath p)) fs)
  /\ (forall path content mode,
        cssPath p = Some path -> truthy (Some path) = true ->
        fs1 !! path = Some (File content mode) ->
        run p fs = run (Payload (Some content) (jsText p) None (jsPath p)) fs)
  /\ (forall path content mode,
        jsPath p = Some path -> truthy (Some path) = true ->
        fs1 !! path = Some (File content mode) ->
        run p fs = run (Payload (cssText p) (Some content) (cssPath p) None) fs)
  /\ (forall path,
        (prologue fs).1 = Ok tt ->
        (cssPath p = Some path \/ jsPath p = Some path) ->
        truthy (Some path) = true ->
        isRegular (fs1 !! path) = false ->
        exists e, run p fs = (Throw e, fs1))
  /\ (truthy (cssPath p) = false -> truthy (cssText p) = false ->
      run p fs = run (Payload None (jsText p) None (jsPath p)) fs)
  /\ (truthy (jsPath p) = false -> truthy (jsText p) = false ->
      run p fs = run (Payload (cssText p) None (cssPath p) None) fs)
  /\ (forall css js,
        (prologue fs).1 = Ok tt ->
        run (Payload css js None None) fs = applyPayload umask tempCss tempJs css js fs1).
Proof.
  intros fs1 run. subst run.
  split; [| split; [| split; [| split; [| split; [| split; [| split]]]]]].
  - intros H text. apply injectCode_congr; cbn [cssPath cssText jsPath jsText];
      [| reflexivity].
    f_equal. apply resolveChannel_reference. exact H.
  - intros H text. apply injectCode_congr; cbn [cssPath cssText jsPath jsText];
      [reflexivity |].
    f_equal. apply resolveChannel_reference. exact H.
  - intros path content mode Ep Ht Hf.
    apply injectCode_congr; cbn [cssPath cssText jsPath jsText]; [| reflexivity].
    rewrite Ep, (resolveChannel_regular _ path _ content mode Ht Hf).
    rewrite resolveChannel_inline by reflexivity. reflexivity.
  - intros path content mode Ep Ht Hf.
    apply injectCode_congr; cbn [cssPath cssText jsPath jsText]; [reflexivity |].
    rewrite Ep, (resolveChannel_regular _ path _ content mode Ht Hf).
    rewrite resolveChannel_inline by reflexivity. reflexivity.
  - intros path Hp Hor Ht Hf.
    assert (Hp' : prologue fs = (Ok tt, fs1)).
    { subst fs1. destruct (prologue fs) as [r s]. simpl in *. now subst. }
    apply (injectCode_unreadable umask fs fs1 p tempCss tempJs Hp').
    apply truthy_inv in Ht as (c & rest & [= ->]).
    destruct Hor as [-> | ->]; simpl; rewrite Hf; simpl;
      [reflexivity | apply orb_true_r].
  - intros Hc Ht.
    apply injectCode_congr; cbn [cssPath cssText jsPath jsText]; [| reflexivity].
    rewrite (resolveChannel_inline _ (cssPath p)) by assumption.
    rewrite resolveChannel_inline by reflexivity.
    destruct (cssText p) as [[|c t]|]; simpl in Ht; try discriminate; reflexivity.
  - intros Hc Ht.
    apply injectCode_congr; cbn [cssPath cssText jsPath jsText]; [reflexivity |].
    rewrite (resolveChannel_inline _ (jsPath p)) by assumption.
    rewrite resolveChannel_inline by reflexivity.
    destruct (jsText p) as [[|c t]|]; simpl in Ht; try discriminate; reflexivity.
  - intros css js Hp.
    assert (Hp' : prologue fs = (Ok tt, fs1)).
    { subst fs1. destruct (prologue fs) as [r s]. simpl in *. now subst. }
    rewrite injectCode_prologue, (bind_ok _ _ _ _ _ Hp'). unfold afterReset.
    cbn [cssPath cssText jsPath jsText].
    unfold resolveChannel, bind.
    destruct css as [[|c t]|]; destruct js as [[|c' t']|]; reflexivity.
Qed.

(** * The theorems at concrete inputs *)

Lemma fresh_fsPatched (t : string) :
  fsPatched !! t = None ->
  t <> INDEX_FILE -> t <> BACKUP_FILE -> t <> BACKUP_DIR ->
  fresh fsPatched t.
Proof. intros. repeat split; assumption. Qed.

Lemma injectCode_idempotent_witness :
  injectRepeatedly 18 cssPayload [(tempA, tempB); (tempC, tempD); (tempA, tempB)]
    fsPatched
  = (injectCode 18 tempA tempB cssPayload fsPatched).2
  /\ contentAt
       (injectRepeatedly 18 cssPayload [(tempA, tempB); (tempC, tempD); (tempA, tempB)]
          fsPatched) INDEX_FILE
     = contentAt (injectCode 18 tempA tempB cssPayload fsPatched).2 INDEX_FILE.
Proof.
  assert (FA : fresh fsPatched tempA)
    by (apply fresh_fsPatched; [reflexivity | discriminate ..]).
  assert (FB : fresh fsPatched tempB)
    by (apply fresh_fsPatched; [reflexivity | discriminate ..]).
  assert (FC : fresh fsPatched tempC)
    by (apply fresh_fsPatched; [reflexivity | discriminate ..]).
  assert (FD : fresh fsPatched tempD)
    by (apply fresh_fsPatched; [reflexivity | discriminate ..]).
  apply injectCode_idempotent.
  - exact FA.
  - exact FB.
  - repeat (constructor; [split; assumption |]). constructor.
  - discriminate.
Defined.

Lemma injectCode_empty_payload_witness :
  injectCode 18 tempA tempB emptyPayload fsPatched
  = (Ok (InjectResult false "未提供任何 CSS/JS 内容"),
     <[INDEX_FILE := File headOnly 420]> fsPatched)
  /\ exists content mode,
       <[INDEX_FILE := File headOnly 420]> fsPatched !! INDEX_FILE
       = Some (File content mode)
       /\ <[INDEX_FILE := File headOnly 420]> fsPatched !! BACKUP_FILE
          = Some (File content mode)
       /\ (is_Some (fsPatched !! BACKUP_FILE) ->
           fsPatched !! BACKUP_FILE = Some (File content mode))
       /\ (fsPatched !! BACKUP_FILE = None ->
           fsPatched !! INDEX_FILE = Some (File content mode)).
Proof.
  apply (injectCode_empty_payload 18 fsPatched
           (<[INDEX_FILE := File headOnly 420]> fsPatched)
           emptyPayload tempA tempB None None).
  - vm_compute. reflexivity.
  - reflexivity.
  - reflexivity.
  - reflexivity.
  - reflexivity.
Defined.

Lemma restoreOriginal_spec_witness :
  restoreOriginal fsHeadOnly = (Throw (Error "未找到备份文件"), fsHeadOnly)
  /\ exists fs',
       restoreOriginal fsPatched = (Ok tt, fs')
       /\ fs' !! INDEX_FILE = Some (File headOnly MODE_644)
       /\ contentAt fs' INDEX_FILE = contentAt fs' BACKUP_FILE
       /\ fs' !! BACKUP_FILE = fsPatched !! BACKUP_FILE
       /\ forall path, path <> INDEX_FILE -> fs' !! path = fsPatched !! path.
Proof.
  split.
  - apply (proj1 (restoreOriginal_spec fsHeadOnly)). reflexivity.
  - apply (proj2 (restoreOriginal_spec fsPatched) headOnly 420); reflexivity.
Defined.

Lemma ensureBackup_spec_witness :
  (ensureBackup fsHeadOnly).2 !! INDEX_FILE = fsHeadOnly !! INDEX_FILE
  /\ (ensureBackup fsHeadOnly).1 = Ok (BackupResult true)
  /\ (ensureBackup fsHeadOnly).2 !! BACKUP_FILE = Some (File headOnly 420)
  /\ ensureBackup (ensureBackup fsHeadOnly).2
     = (Ok (BackupResult false), (ensureBackup fsHeadOnly).2).
Proof.
  destruct (ensureBackup_spec fsHeadOnly) as (H1 & Hcases).
  destruct (Hcases eq_refl) as (_ & _ & H4 & H5).
  destruct (H4 headOnly 420 eq_refl eq_refl) as [H41 H42].
  split; [exact H1 |]. split; [exact H41 |]. split; [exact H42 |].
  exact (H5 (BackupResult true) H41).
Defined.

Lemma scanLines_first_match_witness :
  exists pre line post before after,
    ["<html>"; "<body><p></body>"; "</body>"] = (pre ++ line :: post)%list
    /\ Forall (fun l => includes l "</body>" = false) pre
    /\ line = before ++ after
    /\ (exists rest, after = "</body>" ++ rest)
    /\ (forall p, occursAfter line "</body>" p ->
          (String.length before <= String.length p)%nat)
    /\ scanLines "</body>" ["<script>"; "</script>"]
         ["<html>"; "<body><p></body>"; "</body>"]
       = Scan true (unlines pre
                      ++ (if decide (before = "") then "" else before ++ NL)
                      ++ (join NL ["<script>"; "</script>"] ++ NL)
                      ++ (after ++ NL)
                      ++ unlines post)
    /\ (["<script>"; "</script>"] <> [] ->
        join NL ["<script>"; "</script>"] ++ NL = unlines ["<script>"; "</script>"]).
Proof.
  apply (scanLines_first_match "</body>" ["<script>"; "</script>"]
           ["<html>"; "<body><p></body>"; "</body>"]).
  apply Exists_cons_tl. apply Exists_cons_hd. reflexivity.
Defined.

Lemma injectBlock_head_example_witness :
  exists fs',
    injectBlock 18 tempA INDEX_FILE "</head>" ["X"] fsHeadOnly = (Ok tt, fs')
    /\ contentAt fs' INDEX_FILE
       = Some ("<head>" ++ NL ++ "X" ++ NL ++ "</head>" ++ NL)
    /\ fs' !! tempA = None.
Proof.
  apply (injectBlock_head_example 18 fsHeadOnly tempA INDEX_FILE 420); reflexivity.
Defined.

Lemma injectCode_channel_precedence_witness :
  injectCode 18 tempA tempB
    (Payload (Some "a{}") None (Some "/srv/theme.css") None) fsPatched
  = injectCode 18 tempA tempB
      (Payload None None (Some "/srv/theme.css") None) fsPatched.
Proof.
  apply (proj1 (injectCode_channel_precedence 18 fsPatched
                  (Payload (Some "a{}") None (Some "/srv/theme.css") None)
                  tempA tempB)).
  reflexivity.
Defined.

Lemma injectCode_resolution_failure_witness :
  (exists e,
      injectCode 18 tempA tempB (Payload None None (Some "/srv/theme.css") None)
        fsPatched
      = (Throw e, <[INDEX_FILE := File headOnly 420]> fsPatched))
  /\ exists content mode,
       <[INDEX_FILE := File headOnly 420]> fsPatched !! INDEX_FILE
       = Some (File content mode)
       /\ <[INDEX_FILE := File headOnly 420]> fsPatched !! BACKUP_FILE
          = Some (File content mode)
       /\ (is_Some (fsPatched !! BACKUP_FILE) ->
           fsPatched !! BACKUP_FILE = Some (File content mode))
       /\ (fsPatched !! BACKUP_FILE = None ->
           fsPatched !! INDEX_FILE = Some (File content mode)).
Proof.
  apply (injectCode_resolution_failure 18 fsPatched
           (<[INDEX_FILE := File headOnly 420]> fsPatched)
           (Payload None None (Some "/srv/theme.css") None) tempA tempB).
  - vm_compute. reflexivity.
  - reflexivity.
Defined.


(** * Further properties of the patch cycle *)

Lemma prologue_keeps_backup (fs : fsmap) (n : node) :
  fs !! BACKUP_FILE = Some n -> (prologue fs).2 !! BACKUP_FILE = Some n.
Proof.
  intros Hb. rewrite prologue_eval.
  destruct (isRegular (fs !! BACKUP_DIR)); [exact Hb |]. cbv zeta. rewrite Hb.
  destruct n as [c m|]; destruct (fs !! INDEX_FILE) as [[c' m'|]|];
    simpl; fs_eval; reflexivity.
Qed.

(** The file system after a call, by the first half. *)
Lemma injectCode_state (umask : Z) (fs : fsmap) (p : payload) (t1 t2 : string) :
  fresh fs t1 -> fresh fs t2 ->
  (injectCode umask t1 t2 p fs).2 = (prologue fs).2
  \/ exists content mode,
       (injectCode umask t1 t2 p fs).2
       = <[INDEX_FILE := File content mode]> (prologue fs).2.
Proof.
  intros F1 F2.
  destruct (injectCode_shape umask fs p)
    as [(e & fs' & Ep & H) | (fs1 & r & c' & m' & Ep & _ & H)].
  - left. rewrite H, Ep. reflexivity.
  - right. exists c', m'. rewrite (H t1 t2), Ep by assumption. reflexivity.
Qed.

(** X1. A call of [injectCode] never changes a backup that exists: whatever
    the payload and whatever the outcome, the node at the backup path is the
    one of before the call. *)
Theorem injectCode_keeps_backup (umask : Z) (fs : fsmap) (p : payload)
    (tempCss tempJs : string) (n : node) :
  fresh fs tempCss -> fresh fs tempJs ->
  fs !! BACKUP_FILE = Some n ->
  (injectCode umask tempCss tempJs p fs).2 !! BACKUP_FILE = Some n.
Proof.
  intros F1 F2 Hb. pose proof (prologue_keeps_backup fs n Hb) as Hp.
  destruct (injectCode_state umask fs p tempCss tempJs F1 F2) as [-> | (c & m & ->)].
  - exact Hp.
  - rewrite lookup_insert_ne by discriminate. exact Hp.
Qed.

Lemma injectCode_keeps_backup_witness :
  (injectCode 18 tempA tempB cssPayload fsPatched).2 !! BACKUP_FILE
  = Some (File headOnly 420).
Proof.
  apply (injectCode_keeps_backup 18 fsPatched cssPayload tempA tempB).
  - apply fresh_fsPatched; [reflexivity | discriminate ..].
  - apply fresh_fsPatched; [reflexivity | discriminate ..].
  - reflexivity.
Defined.

(** X2. A call of [injectCode] changes nothing outside the target, the
    backup and the backup directory: every other path has the node of before
    the call, and no scratch file is left. *)
Theorem injectCode_frame (umask : Z) (fs : fsmap) (p : payload)
    (tempCss tempJs path : string) :
  fresh fs tempCss -> fresh fs tempJs ->
  path <> INDEX_FILE -> path <> BACKUP_FILE -> path <> BACKUP_DIR ->
  (injectCode umask tempCss tempJs p fs).2 !! path = fs !! path
  /\ (injectCode umask tempCss tempJs p fs).2 !! tempCss = None
  /\ (injectCode umask tempCss tempJs p fs).2 !! tempJs = None.
Proof.
  intros F1 F2 H1 H2 H3.
  assert (Hany : forall q, q <> INDEX_FILE -> q <> BACKUP_FILE -> q <> BACKUP_DIR ->
            (injectCode umask tempCss tempJs p fs).2 !! q = fs !! q).
  { intros q Q1 Q2 Q3. pose proof (prologue_frame fs q Q1 Q2 Q3) as Hp.
    destruct (injectCode_state umask fs p tempCss tempJs F1 F2) as [-> | (c & m & ->)].
    - exact Hp.
    - rewrite lookup_insert_ne by congruence. exact Hp. }
  split; [apply Hany; assumption |].
  destruct F1 as (N1 & A1 & B1 & C1). destruct F2 as (N2 & A2 & B2 & C2).
  split; [rewrite Hany by assumption; exact N1 | rewrite Hany by assumption; exact N2].
Qed.

Lemma injectCode_frame_witness :
  (injectCode 18 tempA tempB cssPayload fsPatched).2 !! "/srv/theme.css"
  = fsPatched !! "/srv/theme.css"
  /\ (injectCode 18 tempA tempB cssPayload fsPatched).2 !! tempA = None
  /\ (injectCode 18 tempA tempB cssPayload fsPatched).2 !! tempB = None.
Proof.
  apply (injectCode_frame 18 fsPatched cssPayload tempA tempB "/srv/theme.css").
  - apply fresh_fsPatched; [reflexivity | discriminate ..].
  - apply fresh_fsPatched; [reflexivity | discriminate ..].
  - discriminate.
  - discriminate.
  - discriminate.
Defined.

Lemma fresh_intro (fs : fsmap) (t : string) :
  fs !! t = None ->
  t <> INDEX_FILE -> t <> BACKUP_FILE -> t <> BACKUP_DIR ->
  fresh fs t.
Proof. intros. repeat split; assumption. Qed.

Lemma restoreOriginal_ok (fs : fsmap) content mode :
  fs !! BACKUP_FILE = Some (File content mode) ->
  isDirectory (fs !! INDEX_FILE) = false ->
  restoreOriginal fs = (Ok tt, <[INDEX_FILE := File content MODE_644]> fs).
Proof.
  intros Hb Hi. unfold restoreOriginal. unfold_fs. fs_eval.
  destruct (fs !! INDEX_FILE) as [[c m|]|] eqn:Ei; simpl in Hi;
    try discriminate; fs_eval; rewrite insert_insert_eq; reflexivity.
Qed.

(** X3. A restore after a call of [injectCode] that got past its first half
    succeeds, whatever the call did afterwards, and leaves the target with
    the pristine content and the bits [0o644]: the content of the backup of
    before the call when there was one, of the target of before the call
    otherwise. *)
Theorem inject_then_restore (umask : Z) (fs fs1 : fsmap) (p : payload)
    (tempCss tempJs : string) :
  fresh fs tempCss -> fresh fs tempJs ->
  prologue fs = (Ok tt, fs1) ->
  exists content mode,
    fs1 !! BACKUP_FILE = Some (File content mode)
    /\ (is_Some (fs !! BACKUP_FILE) -> fs !! BACKUP_FILE = Some (File content mode))
    /\ (fs !! BACKUP_FILE = None -> fs !! INDEX_FILE = Some (File content mode))
    /\ restoreOriginal (injectCode umask tempCss tempJs p fs).2
       = (Ok tt, <[INDEX_FILE := File content MODE_644]> fs1).
Proof.
  intros F1 F2 Hp.
  destruct (prologue_ok_spec fs fs1 Hp) as (content & mode & Hi & Hb & Hsome & Hnone).
  exists content, mode. repeat split; try assumption.
  destruct (injectCode_state umask fs p tempCss tempJs F1 F2) as [-> | (c & m & ->)];
    rewrite Hp; simpl.
  - apply (restoreOriginal_ok _ content mode); [exact Hb | rewrite Hi; reflexivity].
  - rewrite (restoreOriginal_ok _ content mode).
    + rewrite insert_insert_eq. reflexivity.
    + rewrite lookup_insert_ne by discriminate. exact Hb.
    + rewrite lookup_insert_eq. reflexivity.
Qed.

Lemma inject_then_restore_witness :
  exists content mode,
    <[INDEX_FILE := File page 384]> (<[BACKUP_FILE := File page 384]>
       (<[BACKUP_DIR := Dir]> fsPage)) !! BACKUP_FILE = Some (File content mode)
    /\ (is_Some (fsPage !! BACKUP_FILE) -> fsPage !! BACKUP_FILE = Some (File content mode))
    /\ (fsPage !! BACKUP_FILE = None -> fsPage !! INDEX_FILE = Some (File content mode))
    /\ restoreOriginal (injectCode 18 tempA tempB bothPayload fsPage).2
       = (Ok tt, <[INDEX_FILE := File content MODE_644]>
                   (<[INDEX_FILE := File page 384]> (<[BACKUP_FILE := File page 384]>
                      (<[BACKUP_DIR := Dir]> fsPage)))).
Proof.
  apply (inject_then_restore 18 fsPage _ bothPayload tempA tempB).
  - apply fresh_intro; [reflexivity | discriminate ..].
  - apply fresh_intro; [reflexivity | discriminate ..].
  - vm_compute. reflexivity.
Defined.

Section PatchOutcome.

Variable umask : Z.

(** One optional insertion into the target, in closed form. *)
Lemma injectStep_eval (fs : fsmap) content mode (final : option string)
    (marker : string) (block : string -> list string) (tempFile : string) :
  fs !! INDEX_FILE = Some (File content mode) ->
  fs !! tempFile = None ->
  ifTruthy final
    (fun x => injectBlock umask tempFile INDEX_FILE marker (block x)) (ret tt) fs
  = match ifTruthy final (fun x => insertBlock marker (block x) content)
            (Some content) with
    | Some out =>
        (Ok tt, <[INDEX_FILE := File out (if truthy final then createMode umask
                                          else mode)]> fs)
    | None => (Throw (Error ("未找到插入位置: " ++ marker)), fs)
    end.
Proof.
  intros Hi Ht.
  assert (Hid : <[INDEX_FILE := File content mode]> fs = fs) by (apply insert_id; exact Hi).
  destruct final as [[|c x]|]; simpl; try (rewrite Hid; reflexivity).
  erewrite injectBlock_fresh by (eassumption || congruence).
  cbv zeta. unfold insertBlock.
  destruct (inserted (scanLines marker (block (String c x)) (readline content)));
    reflexivity.
Qed.

(** A call from the resolved channels on. *)
Lemma injectCode_resolved (fs fs1 : fsmap) (p : payload) (tempCss tempJs : string)
    (finalCss finalJs : option string) :
  prologue fs = (Ok tt, fs1) ->
  resolveChannel (cssPath p) (cssText p) fs1 = (Ok finalCss, fs1) ->
  resolveChannel (jsPath p) (jsText p) fs1 = (Ok finalJs, fs1) ->
  injectCode umask tempCss tempJs p fs
  = applyPayload umask tempCss tempJs finalCss finalJs fs1.
Proof.
  intros Hp Hc Hj. rewrite injectCode_prologue, (bind_ok _ _ _ _ _ Hp).
  unfold afterReset. rewrite (bind_ok _ _ _ _ _ Hc), (bind_ok _ _ _ _ _ Hj).
  reflexivity.
Qed.

Lemma fresh_in_prologue (fs fs1 : fsmap) (t : string) r :
  fresh fs t -> prologue fs = (r, fs1) -> fs1 !! t = None.
Proof.
  intros F Hp. pose proof (fresh_after_prologue fs t F) as H.
  rewrite Hp in H. exact H.
Qed.

(** [applyPayload] on a regular target and fresh scratch names, in closed
    form: the outcome and the new target by the two steps of
    [patchedContent]. *)
Lemma applyPayload_eval (fs1 : fsmap) (tempCss tempJs : string)
    (finalCss finalJs : option string) text mode :
  fs1 !! INDEX_FILE = Some (File text mode) ->
  fs1 !! tempCss = None -> fs1 !! tempJs = None ->
  truthy finalCss || truthy finalJs = true ->
  applyPayload umask tempCss tempJs finalCss finalJs fs1
  = match ifTruthy finalCss (fun css => insertBlock "</head>" (styleBlock css) text)
            (Some text) with
    | None => (Throw (Error ("未找到插入位置: " ++ "</head>")), fs1)
    | Some text1 =>
        match ifTruthy finalJs (fun js => insertBlock "</body>" (scriptBlock js) text1)
                (Some text1) with
        | None =>
            (Throw (Error ("未找到插入位置: " ++ "</body>")),
             <[INDEX_FILE := File text1 (if truthy finalCss then createMode umask
                                         else mode)]> fs1)
        | Some text2 =>
            (Ok (InjectResult true "注入成功，请强制刷新浏览器 (Ctrl+F5) 查看效果。"),
             <[INDEX_FILE := File text2 MODE_644]> fs1)
        end
    end.
Proof.
  intros Hi Ht1 Ht2 Hsome. unfold applyPayload.
  replace (negb (truthy finalCss) && negb (truthy finalJs)) with false
    by (destruct (truthy finalCss), (truthy finalJs); simpl in *; congruence).
  unfold bind at 1.
  match goal with
  | |- context [ifTruthy finalCss ?f (ret tt) fs1] =>
      change (ifTruthy finalCss f (ret tt) fs1)
        with (ifTruthy finalCss
                (fun x => injectBlock umask tempCss INDEX_FILE "</head>" (styleBlock x))
                (ret tt) fs1)
  end.
  rewrite (injectStep_eval fs1 text mode finalCss "</head>" styleBlock tempCss Hi Ht1).
  destruct (ifTruthy finalCss (fun css => insertBlock "</head>" (styleBlock css) text)
              (Some text)) as [text1|]; [| reflexivity].
  set (mode1 := if truthy finalCss then createMode umask else mode).
  unfold bind at 1.
  match goal with
  | |- context [ifTruthy finalJs ?f (ret tt) ?m] =>
      change (ifTruthy finalJs f (ret tt) m)
        with (ifTruthy finalJs
                (fun x => injectBlock umask tempJs INDEX_FILE "</body>" (scriptBlock x))
                (ret tt) m)
  end.
  rewrite (injectStep_eval _ text1 mode1 finalJs "</body>" scriptBlock tempJs)
    by (fs_eval; reflexivity).
  destruct (ifTruthy finalJs (fun js => insertBlock "</body>" (scriptBlock js) text1)
              (Some text1)) as [text2|]; [| reflexivity].
  unfold_fs. fs_eval. rewrite !insert_insert_eq. reflexivity.
Qed.

End PatchOutcome.

(** X4. A successful call is the patch as a function on contents: when the
    first half has left the target with [text], the channels resolve, one of
    them at least has content, and both insertions find their marker, the
    call returns [{injected: true}] and the target has the content
    [patchedContent] makes of [text], with the bits [0o644]; nothing else
    has changed since the first half. *)
Theorem injectCode_success (umask : Z) (fs fs1 : fsmap) (p : payload)
    (tempCss tempJs : string) (finalCss finalJs : option string)
    (text out : string) (mode : Z) :
  fresh fs tempCss -> fresh fs tempJs ->
  prologue fs = (Ok tt, fs1) ->
  fs1 !! INDEX_FILE = Some (File text mode) ->
  resolveChannel (cssPath p) (cssText p) fs1 = (Ok finalCss, fs1) ->
  resolveChannel (jsPath p) (jsText p) fs1 = (Ok finalJs, fs1) ->
  truthy finalCss || truthy finalJs = true ->
  patchedContent finalCss finalJs text = Some out ->
  injectCode umask tempCss tempJs p fs
  = (Ok (InjectResult true "注入成功，请强制刷新浏览器 (Ctrl+F5) 查看效果。"),
     <[INDEX_FILE := File out MODE_644]> fs1).
Proof.
  intros F1 F2 Hp Hi Hc Hj Hsome Hout.
  rewrite (injectCode_resolved umask fs fs1 p _ _ finalCss finalJs Hp Hc Hj).
  rewrite (applyPayload_eval umask fs1 _ _ _ _ text mode Hi
             (fresh_in_prologue fs fs1 _ _ F1 Hp)
             (fresh_in_prologue fs fs1 _ _ F2 Hp) Hsome).
  unfold patchedContent in Hout.
  destruct (ifTruthy finalCss (fun css => insertBlock "</head>" (styleBlock css) text)
              (Some text)) as [text1|]; [| discriminate].
  rewrite Hout. reflexivity.
Qed.

(** X5. The two insertions are not one step: when the style insertion has
    succeeded and no line of the content it wrote has the marker of the
    script insertion, the call throws "insertion point not found: </body>"
    and leaves the target with the style block in it, and with the bits of
    a newly created file instead of [0o644]. *)
Theorem injectCode_script_marker_absent (umask : Z) (fs fs1 : fsmap) (p : payload)
    (tempCss tempJs : string) (css js text text1 : string) (mode : Z) :
  fresh fs tempCss -> fresh fs tempJs ->
  prologue fs = (Ok tt, fs1) ->
  fs1 !! INDEX_FILE = Some (File text mode) ->
  resolveChannel (cssPath p) (cssText p) fs1 = (Ok (Some css), fs1) ->
  resolveChannel (jsPath p) (jsText p) fs1 = (Ok (Some js), fs1) ->
  css <> "" -> js <> "" ->
  insertBlock "</head>" (styleBlock css) text = Some text1 ->
  Forall (fun line => includes line "</body>" = false) (readline text1) ->
  injectCode umask tempCss tempJs p fs
  = (Throw (Error ("未找到插入位置: " ++ "</body>")),
     <[INDEX_FILE := File text1 (createMode umask)]> fs1).
Proof.
  intros F1 F2 Hp Hi Hc Hj Nc Nj H1 Hno.
  rewrite (injectCode_resolved umask fs fs1 p _ _ (Some css) (Some js) Hp Hc Hj).
  destruct css as [|c css]; [congruence |]. destruct js as [|c' js]; [congruence |].
  rewrite (applyPayload_eval umask fs1 _ _ (Some (String c css)) (Some (String c' js))
             text mode Hi
             (fresh_in_prologue fs fs1 _ _ F1 Hp)
             (fresh_in_prologue fs fs1 _ _ F2 Hp) eq_refl).
  cbn [ifTruthy truthy]. rewrite H1.
  unfold insertBlock. rewrite scanLines_absent by exact Hno. reflexivity.
Qed.

(** X6. When no line of the pristine content has the marker of the style
    insertion, the call throws "insertion point not found: </head>", does
    not try the script insertion, and leaves the target pristine, as the
    first half made it. *)
Theorem injectCode_style_marker_absent (umask : Z) (fs fs1 : fsmap) (p : payload)
    (tempCss tempJs : string) (css text : string) (finalJs : option string)
    (mode : Z) :
  fresh fs tempCss -> fresh fs tempJs ->
  prologue fs = (Ok tt, fs1) ->
  fs1 !! INDEX_FILE = Some (File text mode) ->
  resolveChannel (cssPath p) (cssText p) fs1 = (Ok (Some css), fs1) ->
  resolveChannel (jsPath p) (jsText p) fs1 = (Ok finalJs, fs1) ->
  css <> "" ->
  Forall (fun line => includes line "</head>" = false) (readline text) ->
  injectCode umask tempCss tempJs p fs
  = (Throw (Error ("未找到插入位置: " ++ "</head>")), fs1).
Proof.
  intros F1 F2 Hp Hi Hc Hj Nc Hno.
  rewrite (injectCode_resolved umask fs fs1 p _ _ (Some css) finalJs Hp Hc Hj).
  destruct css as [|c css]; [congruence |].
  rewrite (applyPayload_eval umask fs1 _ _ (Some (String c css)) finalJs
             text mode Hi
             (fresh_in_prologue fs fs1 _ _ F1 Hp)
             (fresh_in_prologue fs fs1 _ _ F2 Hp) eq_refl).
  cbn [ifTruthy]. unfold insertBlock.
  rewrite scanLines_absent by exact Hno. reflexivity.
Qed.

Lemma injectCode_success_witness :
  injectCode 18 tempA tempB bothPayload fsPage
  = (Ok (InjectResult true "注入成功，请强制刷新浏览器 (Ctrl+F5) 查看效果。"),
     <[INDEX_FILE :=
         File ("<html><head>" ++ NL ++ "<style>" ++ NL ++ "/* Injected CSS */" ++ NL
               ++ "body{color:red}" ++ NL ++ "</style>" ++ NL
               ++ "</head><body>" ++ NL
               ++ "<script>" ++ NL ++ "// Injected JS" ++ NL ++ "alert(1)" ++ NL
               ++ "</script>" ++ NL ++ "</body></html>" ++ NL) MODE_644]>
       (<[INDEX_FILE := File page 384]> (<[BACKUP_FILE := File page 384]>
          (<[BACKUP_DIR := Dir]> fsPage)))).
Proof.
  apply (injectCode_success 18 fsPage _ bothPayload tempA tempB
           (Some "body{color:red}") (Some "alert(1)") page _ 384).
  - apply fresh_intro; [reflexivity | discriminate ..].
  - apply fresh_intro; [reflexivity | discriminate ..].
  - vm_compute. reflexivity.
  - reflexivity.
  - reflexivity.
  - reflexivity.
  - reflexivity.
  - vm_compute. reflexivity.
Defined.

Lemma injectCode_script_marker_absent_witness :
  injectCode 18 tempA tempB bothPayload fsPatched
  = (Throw (Error ("未找到插入位置: " ++ "</body>")),
     <[INDEX_FILE :=
         File ("<head>" ++ NL ++ "<style>" ++ NL ++ "/* Injected CSS */" ++ NL
               ++ "body{color:red}" ++ NL ++ "</style>" ++ NL ++ "</head>" ++ NL)
              (createMode 18)]>
       (<[INDEX_FILE := File headOnly 420]> fsPatched)).
Proof.
  apply (injectCode_script_marker_absent 18 fsPatched _ bothPayload tempA tempB
           "body{color:red}" "alert(1)" headOnly _ 420).
  - apply fresh_intro; [reflexivity | discriminate ..].
  - apply fresh_intro; [reflexivity | discriminate ..].
  - vm_compute. reflexivity.
  - reflexivity.
  - reflexivity.
  - reflexivity.
  - discriminate.
  - discriminate.
  - vm_compute. reflexivity.
  - vm_compute. repeat constructor.
Defined.

Lemma injectCode_style_marker_absent_witness :
  injectCode 18 tempA tempB bothPayload fsNoHead
  = (Throw (Error ("未找到插入位置: " ++ "</head>")), fsNoHead).
Proof.
  apply (injectCode_style_marker_absent 18 fsNoHead fsNoHead bothPayload tempA tempB
           "body{color:red}" "<html>" (Some "alert(1)") 420).
  - apply fresh_intro; [reflexivity | discriminate ..].
  - apply fresh_intro; [reflexivity | discriminate ..].
  - vm_compute. reflexivity.
  - reflexivity.
  - reflexivity.
  - reflexivity.
  - discriminate.
  - vm_compute. repeat constructor.
Defined.

(** ** A second insertion without a reset *)

(** [readline] can be cut behind a line feed. *)
Lemma readlineFrom_app_NL (x buf y : string) :
  readlineFrom buf ((x ++ NL) ++ y)
  = (readlineFrom buf (x ++ NL) ++ readlineFrom "" y)%list.
Proof.
  revert buf.
  induction x as [x IH] using (well_founded_induction
    (well_founded_ltof _ String.length)).
  intros buf. destruct x as [|c x].
  - simpl. destruct (decide (LF = LF)); [| contradiction]. reflexivity.
  - change ((String c x ++ NL) ++ y) with (String c ((x ++ NL) ++ y)).
    change (String c x ++ NL) with (String c (x ++ NL)).
    cbn [readlineFrom].
    destruct (decide (c = LF)).
    { rewrite IH by (unfold ltof; simpl; lia). reflexivity. }
    destruct (decide (c = CR)).
    + destruct x as [|c' x'].
      * simpl. destruct (decide (LF = LF)); [| contradiction]. reflexivity.
      * change ((String c' x' ++ NL) ++ y) with (String c' ((x' ++ NL) ++ y)).
        change (String c' x' ++ NL) with (String c' (x' ++ NL)).
        cbn iota. destruct (decide (c' = LF)).
        -- rewrite IH by (unfold ltof; simpl; lia). reflexivity.
        -- change (String c' ((x' ++ NL) ++ y)) with ((String c' x' ++ NL) ++ y).
           change (String c' (x' ++ NL)) with (String c' x' ++ NL).
           rewrite IH by (unfold ltof; simpl; lia). reflexivity.
    + rewrite IH by (unfold ltof; simpl; lia). reflexivity.
Qed.

Lemma readline_app (a b : string) :
  a = "" \/ (exists x, a = x ++ NL) ->
  readline (a ++ b) = (readline a ++ readline b)%list.
Proof.
  intros [-> | [x ->]]; [reflexivity |]. apply readlineFrom_app_NL.
Qed.

Lemma unlines_nl_ended (lines : list string) :
  unlines lines = "" \/ exists x, unlines lines = x ++ NL.
Proof.
  destruct lines as [|l lines]; [left; reflexivity | right].
  simpl. destruct (unlines_ends_NL l lines) as [body Hb]. exists body. exact Hb.
Qed.

Lemma readline_unlines (lines : list string) :
  Forall (fun l => lineClean l = true) lines -> readline (unlines lines) = lines.
Proof. intros H. rewrite <- terminated_NL. apply readline_lf. exact H. Qed.

Lemma readline_one (line : string) :
  lineClean line = true -> readline (line ++ NL) = [line].
Proof.
  intros H. unfold readline, NL. rewrite readlineFrom_lf by exact H. reflexivity.
Qed.

(** The part of a line in front of the first occurrence of the marker has no
    occurrence of the marker, unless it is empty. *)
Lemma before_without_marker (before after marker : string) :
  (forall p, occursAfter (before ++ after) marker p ->
     (String.length before <= String.length p)%nat) ->
  before <> "" ->
  includes before marker = false.
Proof.
  intros Hmin Hne. destruct (includes before marker) eqn:E; [| reflexivity].
  exfalso. apply includes_spec in E. destruct E as (p & q & Hq).
  assert (Hocc : occursAfter (before ++ after) marker p).
  { exists (q ++ after). rewrite Hq, !sapp_assoc. reflexivity. }
  apply Hmin in Hocc.
  rewrite Hq in Hocc at 1. rewrite !slength_app in Hocc.
  assert (Hm : marker = "") by (destruct marker; [reflexivity | simpl in Hocc; lia]).
  subst marker.
  assert (H0 : occursAfter (before ++ after) "" "") by (exists (before ++ after); reflexivity).
  apply Hmin in H0. destruct before; [congruence | simpl in H0; lia].
Qed.

(** X7. [injectBlock] on its own is cumulative: run a second time on the file
    it has patched, with a block whose lines do not have the marker, it
    succeeds again and inserts the block a second time, directly in front of
    the marker and behind the first copy (which [readline] has normalised).
    This is what the copy of the backup over the target at the start of
    [injectCode] prevents. *)
Theorem injectBlock_twice (umask : Z) (fs fs1 : fsmap)
    (temp1 temp2 inputPath marker : string) (blockLines : list string)
    (text : string) (mode : Z) :
  fs !! temp1 = None -> fs !! temp2 = None ->
  fs !! inputPath = Some (File text mode) ->
  injectBlock umask temp1 inputPath marker blockLines fs = (Ok tt, fs1) ->
  Forall (fun l => includes l marker = false) (readline (join NL blockLines ++ NL)) ->
  exists pre before after post fs2,
    readline text = (pre ++ (before ++ after)%string :: post)%list
    /\ contentAt fs1 inputPath
       = Some (unlines pre
                 ++ (if decide (before = "") then "" else before ++ NL)
                 ++ (join NL blockLines ++ NL)
                 ++ (after ++ NL)
                 ++ unlines post)
    /\ injectBlock umask temp2 inputPath marker blockLines fs1 = (Ok tt, fs2)
    /\ contentAt fs2 inputPath
       = Some (unlines pre
                 ++ (if decide (before = "") then "" else before ++ NL)
                 ++ unlines (readline (join NL blockLines ++ NL))
                 ++ (join NL blockLines ++ NL)
                 ++ (after ++ NL)
                 ++ unlines post).
Proof.
  intros Ht1 Ht2 Hin Hrun Hblock.
  rewrite (injectBlock_fresh umask fs temp1 inputPath marker blockLines text mode)
    in Hrun by (assumption || congruence).
  cbv zeta in Hrun.
  destruct (inserted (scanLines marker blockLines (readline text))) eqn:Eins;
    [| discriminate].
  injection Hrun as <-.
  destruct (first_match_split marker (readline text) (scanLines_inserted _ _ _ Eins))
    as (pre & line & post & Hlines & Hpre & Hline).
  destruct (scanLines_split marker blockLines pre post line Hpre Hline)
    as (before & after & Hl & [rest Hrest] & Hmin & Hscan).
  subst line.
  pose proof (readline_clean text) as Hclean. rewrite Hlines in Hclean.
  apply Forall_app in Hclean. destruct Hclean as [Cpre Hc2].
  apply Forall_cons in Hc2. destruct Hc2 as [Hba Cpost].
  rewrite lineClean_app in Hba. apply andb_true_iff in Hba. destruct Hba as [Cb Ca].
  set (T := join NL blockLines ++ NL) in *.
  set (B := if decide (before = "") then "" else before ++ NL).
  set (Bl := if decide (before = "") then [] else [before]).
  assert (HB : unlines Bl = B).
  { subst B Bl. destruct (decide (before = "")); reflexivity. }
  assert (Hw : written (scanLines marker blockLines (readline text))
               = unlines pre ++ B ++ T ++ (after ++ NL) ++ unlines post).
  { rewrite Hlines, Hscan. reflexivity. }
  assert (Hread : readline (unlines pre ++ B ++ T ++ (after ++ NL) ++ unlines post)
                  = (pre ++ Bl ++ readline T ++ [after] ++ post)%list).
  { rewrite readline_app by apply unlines_nl_ended.
    rewrite readline_unlines by exact Cpre.
    rewrite (readline_app B).
    2: { subst B. destruct (decide (before = "")); [left; reflexivity | right; eauto]. }
    rewrite (readline_app T) by (right; subst T; eauto).
    rewrite (readline_app (after ++ NL)) by (right; eauto).
    rewrite readline_one by exact Ca. rewrite readline_unlines by exact Cpost.
    replace (readline B) with Bl; [reflexivity |].
    subst B Bl. destruct (decide (before = "")); [reflexivity |].
    symmetry. apply readline_one. exact Cb. }
  assert (Hpre' : Forall (fun l => includes l marker = false)
                    (pre ++ Bl ++ readline T)%list).
  { apply Forall_app. split; [exact Hpre |]. apply Forall_app. split; [| exact Hblock].
    subst Bl. destruct (decide (before = "")) as [E | E]; constructor; [| constructor].
    exact (before_without_marker before after marker Hmin E). }
  assert (Hafter : includes after marker = true).
  { apply includes_spec. exists "", rest. exact Hrest. }
  destruct (scanLines_split marker blockLines (pre ++ Bl ++ readline T)%list post after
              Hpre' Hafter)
    as (before' & after' & Hl' & _ & Hmin' & Hscan').
  assert (Hb' : before' = "").
  { assert (H0 : occursAfter after marker "") by (exists rest; exact Hrest).
    apply Hmin' in H0. destruct before'; [reflexivity | simpl in H0; lia]. }
  subst before'. simpl in Hl'. subst after'.
  exists pre, before, after, post.
  exists (<[inputPath := File (unlines pre ++ B ++ unlines (readline T) ++ T
                              ++ (after ++ NL) ++ unlines post) (createMode umask)]>
            (<[inputPath := File (written (scanLines marker blockLines (readline text)))
                              (createMode umask)]> fs)).
  split; [exact Hlines |]. split.
  { unfold contentAt. rewrite lookup_insert_eq, Hw. reflexivity. }
  split.
  - erewrite injectBlock_fresh.
    2: { rewrite lookup_insert_ne by congruence. exact Ht2. }
    2: congruence.
    2: apply lookup_insert_eq.
    cbv zeta. rewrite Hw, Hread.
    replace (pre ++ Bl ++ readline T ++ [after] ++ post)%list
      with ((pre ++ Bl ++ readline T) ++ after :: post)%list
      by (rewrite <- !app_assoc; reflexivity).
    rewrite Hscan'. simpl inserted. simpl written. fold T.
    destruct (decide ("" = "")); [| congruence].
    rewrite !unlines_app, HB, !sapp_assoc. reflexivity.
  - unfold contentAt. rewrite lookup_insert_eq. reflexivity.
Qed.

Lemma injectBlock_twice_witness :
  exists pre before after post fs2,
    readline headOnly = (pre ++ (before ++ after)%string :: post)%list
    /\ contentAt fsHeadX INDEX_FILE
       = Some (unlines pre
                 ++ (if decide (before = "") then "" else before ++ NL)
                 ++ (join NL ["X"] ++ NL)
                 ++ (after ++ NL)
                 ++ unlines post)
    /\ injectBlock 18 tempB INDEX_FILE "</head>" ["X"] fsHeadX = (Ok tt, fs2)
    /\ contentAt fs2 INDEX_FILE
       = Some (unlines pre
                 ++ (if decide (before = "") then "" else before ++ NL)
                 ++ unlines (readline (join NL ["X"] ++ NL))
                 ++ (join NL ["X"] ++ NL)
                 ++ (after ++ NL)
                 ++ unlines post).
Proof.
  assert (Hrun : injectBlock 18 tempA INDEX_FILE "</head>" ["X"] fsHeadOnly
                 = (Ok tt, fsHeadX)) by (vm_compute; reflexivity).
  assert (Hblock : Forall (fun l => includes l "</head>" = false)
                     (readline (join NL ["X"] ++ NL)))
    by (vm_compute; repeat constructor).
  exact (injectBlock_twice 18 fsHeadOnly fsHeadX tempA tempB INDEX_FILE "</head>" ["X"]
           headOnly 420 eq_refl eq_refl eq_refl Hrun Hblock).
Defined.

(** * Properties of the rest of [server.js] *)

Section ServerProperties.

Variable umask : Z.
Variable mtimeISO : string -> string.
Variable LOG_FILE : option string.
Variable now : string.
Variable WWW_ROOT : string.
Variable systemMessage : string -> string -> string.
Variable nullMessage : string -> string.
Variable decodeURIComponent : string -> outcome string.
Variable chunkText : string -> string.
Variable JSONparse : string -> option json.

(** [getStatus] in closed form: it reads the two paths and changes
    nothing. *)
Lemma getStatus_eval (fs : fsmap) :
  getStatus mtimeISO fs
  = (Ok (StatusSnapshot INDEX_FILE BACKUP_FILE
           (bool_decide (is_Some (fs !! INDEX_FILE)))
           (bool_decide (is_Some (fs !! BACKUP_FILE)))
           (if bool_decide (is_Some (fs !! INDEX_FILE))
            then Some (mtimeISO INDEX_FILE) else None)
           (if bool_decide (is_Some (fs !! BACKUP_FILE))
            then Some (mtimeISO BACKUP_FILE) else None)), fs).
Proof.
  unfold getStatus. unfold_fs.
  destruct (fs !! INDEX_FILE) as [n|]; destruct (fs !! BACKUP_FILE) as [n'|];
    reflexivity.
Qed.

(** [log] never throws, and changes the log file at most. *)
Lemma log_ok (msg : string) (fs : fsmap) :
  exists fs', log umask LOG_FILE now msg fs = (Ok tt, fs')
    /\ forall path, Some path <> LOG_FILE -> fs' !! path = fs !! path.
Proof.
  unfold log. destruct LOG_FILE as [[|c f]|]; simpl.
  - exists fs. split; [reflexivity | auto].
  - unfold tryCatch, appendFile, ret.
    destruct (fs !! String c f) as [[content mode|]|] eqn:E.
    + eexists. split; [reflexivity |]. intros path Hp.
      apply lookup_insert_ne. congruence.
    + exists fs. split; [reflexivity | auto].
    + eexists. split; [reflexivity |]. intros path Hp.
      apply lookup_insert_ne. congruence.
  - exists fs. split; [reflexivity | auto].
Qed.

(** The loop of [readJsonBody] from a state within the limit. *)
Lemma readChunks_eval (limitBytes : Z) (chunks : list string) (body : string) (size : Z) :
  size <= limitBytes ->
  readChunks chunkText JSONparse limitBytes body size chunks
  = if limitBytes <? size + totalBytes chunks
    then Throw (Error "请求体过大")
    else parsedBody JSONparse (body ++ bodyText chunkText chunks).
Proof.
  revert body size. induction chunks as [|chunk rest IH]; intros body size Hsize.
  - simpl. rewrite Z.add_0_r, sapp_nil_r.
    destruct (Z.ltb_spec limitBytes size); [lia | reflexivity].
  - assert (Hrest : 0 <= totalBytes rest).
    { clear. induction rest as [|c r IHr]; simpl; lia. }
    cbn [readChunks totalBytes bodyText fold_right]. fold (totalBytes rest).
    fold (bodyText chunkText rest).
    destruct (Z.ltb_spec limitBytes (size + Z.of_nat (String.length chunk)))
      as [Hover | Hin].
    + destruct (Z.ltb_spec limitBytes
                  (size + (Z.of_nat (String.length chunk) + totalBytes rest)));
        [reflexivity | lia].
    + rewrite IH by lia. rewrite sapp_assoc, Z.add_assoc. reflexivity.
Qed.

End ServerProperties.

(** A restore that succeeds had a regular backup and wrote the target. *)
Lemma restoreOriginal_inv (fs : fsmap) :
  (restoreOriginal fs).1 = Ok tt ->
  exists content mode,
    fs !! BACKUP_FILE = Some (File content mode)
    /\ (restoreOriginal fs).2 = <[INDEX_FILE := File content MODE_644]> fs.
Proof.
  intros Hr. destruct (fs !! BACKUP_FILE) as [[c m|]|] eqn:Eb.
  - destruct (isDirectory (fs !! INDEX_FILE)) eqn:Ei.
    + exfalso. revert Hr. unfold restoreOriginal. unfold_fs. fs_eval.
      destruct (fs !! INDEX_FILE) as [[c' m'|]|]; simpl in Ei; discriminate.
    + exists c, m. split; [reflexivity |].
      rewrite (restoreOriginal_ok fs c m Eb Ei). reflexivity.
  - exfalso. revert Hr. unfold restoreOriginal. unfold_fs. fs_eval.
    destruct (fs !! INDEX_FILE) as [[c' m'|]|]; discriminate.
  - exfalso. revert Hr. unfold restoreOriginal. unfold_fs. fs_eval. discriminate.
Qed.

(** X8. Once a call of [injectCode] has got past its first half, whatever
    it did then, [getStatus] reports the target and the backup as existing;
    so it does after a successful restore.  [getStatus] itself changes
    nothing. *)
Theorem getStatus_after_patch (umask : Z) (mtimeISO : string -> string)
    (fs : fsmap) (p : payload) (tempCss tempJs : string) :
  let both :=
    StatusSnapshot INDEX_FILE BACKUP_FILE true true
      (Some (mtimeISO INDEX_FILE)) (Some (mtimeISO BACKUP_FILE)) in
  (fresh fs tempCss -> fresh fs tempJs ->
   (prologue fs).1 = Ok tt ->
   getStatus mtimeISO (injectCode umask tempCss tempJs p fs).2
   = (Ok both, (injectCode umask tempCss tempJs p fs).2))
  /\ ((restoreOriginal fs).1 = Ok tt ->
      getStatus mtimeISO (restoreOriginal fs).2 = (Ok both, (restoreOriginal fs).2)).
Proof.
  intros both. split.
  - intros F1 F2 Hp. rewrite getStatus_eval.
    destruct (prologue fs) as [r fs1] eqn:Ep. simpl in Hp. subst r.
    destruct (prologue_ok_spec fs fs1 Ep) as (c & m & Hi & Hb & _).
    destruct (injectCode_state umask fs p tempCss tempJs F1 F2) as [-> | (c' & m' & ->)];
      rewrite Ep; simpl; fs_eval;
      rewrite ?bool_decide_eq_true_2 by eauto; reflexivity.
  - intros Hr. rewrite getStatus_eval.
    destruct (restoreOriginal_inv fs Hr) as (c & m & Hb & ->).
    fs_eval. rewrite ?bool_decide_eq_true_2 by eauto. reflexivity.
Qed.

Lemma getStatus_after_patch_witness :
  getStatus noTime (injectCode 18 tempA tempB bothPayload fsPage).2
  = (Ok (StatusSnapshot INDEX_FILE BACKUP_FILE true true (Some "") (Some "")),
     (injectCode 18 tempA tempB bothPayload fsPage).2).
Proof.
  apply (proj1 (getStatus_after_patch 18 noTime fsPage bothPayload tempA tempB)).
  - apply fresh_intro; [reflexivity | discriminate ..].
  - apply fresh_intro; [reflexivity | discriminate ..].
  - vm_compute. reflexivity.
Defined.

(** X9. [readJsonBody] with a limit that is not negative rejects with
    "request body too large" exactly when the chunks together have more
    bytes than the limit, however they are cut; otherwise it resolves an
    empty body to the empty object and parses every other body as one text,
    rejecting with "JSON parse failed" when that is no JSON.  It changes no
    file. *)
Theorem readJsonBody_spec (chunkText : string -> string)
    (JSONparse : string -> option json) (chunks : list string)
    (limitBytes : Z) (fs : fsmap) :
  0 <= limitBytes ->
  readJsonBody chunkText JSONparse chunks limitBytes fs
  = (if limitBytes <? totalBytes chunks
     then Throw (Error "请求体过大")
     else parsedBody JSONparse (bodyText chunkText chunks), fs).
Proof.
  intros Hl. unfold readJsonBody.
  rewrite (readChunks_eval chunkText JSONparse limitBytes chunks "" 0 Hl).
  reflexivity.
Qed.

Lemma readJsonBody_spec_witness :
  readJsonBody ownText parseKnown twoChunks 4 fsPage
  = (Throw (Error "请求体过大"), fsPage)
  /\ readJsonBody ownText parseKnown twoChunks BODY_LIMIT fsPage
     = (Ok (JArray [JNumber "1"; JNumber "2"]), fsPage)
  /\ readJsonBody ownText parseKnown notJson BODY_LIMIT fsPage
     = (Throw (Error "JSON 解析失败"), fsPage)
  /\ readJsonBody ownText parseKnown [""; "{"; "}"] BODY_LIMIT fsPage
     = (Ok (JObject []), fsPage).
Proof.
  split; [| split; [| split]].
  - rewrite (readJsonBody_spec ownText parseKnown twoChunks 4 fsPage ltac:(lia)).
    reflexivity.
  - rewrite (readJsonBody_spec ownText parseKnown twoChunks BODY_LIMIT fsPage
               ltac:(unfold BODY_LIMIT; lia)).
    reflexivity.
  - rewrite (readJsonBody_spec ownText parseKnown notJson BODY_LIMIT fsPage
               ltac:(unfold BODY_LIMIT; lia)).
    reflexivity.
  - rewrite (readJsonBody_spec ownText parseKnown [""; "{"; "}"] BODY_LIMIT fsPage
               ltac:(unfold BODY_LIMIT; lia)).
    reflexivity.
Defined.

Section ListenerProperties.

Variable umask : Z.
Variable mtimeISO : string -> string.
Variable LOG_FILE : option string.
Variable now : string.
Variable WWW_ROOT : string.
Variable systemMessage : string -> string -> string.
Variable nullMessage : string -> string.
Variable decodeURIComponent : string -> outcome string.
Variable chunkText : string -> string.
Variable JSONparse : string -> option json.

Local Abbreviation listener :=
  (requestListener umask mtimeISO LOG_FILE now WWW_ROOT systemMessage nullMessage
     decodeURIComponent chunkText JSONparse).

(** The [catch] of the listener: the error is logged and answered with the
    status 500 and its message; the log file alone may change. *)
Lemma api_catch (e : error) (fs : fsmap) :
  exists fs',
    (await_ log umask LOG_FILE now ("API error: " ++ errorMessage systemMessage e);
     ret (SendJson 500 false (Some (errorMessage systemMessage e)) None)) fs
    = (Ok (SendJson 500 false (Some (errorMessage systemMessage e)) None), fs')
    /\ forall path, Some path <> LOG_FILE -> fs' !! path = fs !! path.
Proof.
  destruct (log_ok umask LOG_FILE now
              ("API error: " ++ errorMessage systemMessage e) fs) as (fs' & Hlog & Hframe).
  exists fs'. split; [| exact Hframe].
  rewrite (bind_ok _ _ _ _ _ Hlog). reflexivity.
Qed.

(** The four property reads on a body that is not [null]. *)
Lemma getProperty_ok (body : json) (key : string) (fs : fsmap) :
  body <> JNull ->
  getProperty nullMessage body key fs = (Ok (fieldOf body key), fs).
Proof. intros Hb. destruct body; try reflexivity. congruence. Qed.

(** The branch of the listener for [POST /api/inject], from the body on. *)
Lemma inject_route (tempCss tempJs : string) (chunks : list string) (fs : fsmap) :
  listener tempCss tempJs (Request "POST" "/api/inject" chunks) fs
  = tryCatch
      (await body <- readJsonBody chunkText JSONparse chunks BODY_LIMIT;
       await cssTextV <- getProperty nullMessage body "cssText";
       await jsTextV <- getProperty nullMessage body "jsText";
       await cssPathV <- getProperty nullMessage body "cssPath";
       await jsPathV <- getProperty nullMessage body "jsPath";
       await result <-
         injectCode umask tempCss tempJs
           (Payload (orNull (stringField cssTextV)) (orNull (stringField jsTextV))
              (orNull (stringField cssPathV)) (orNull (stringField jsPathV)));
       if negb (injected result)
       then ret (SendJson 400 false (Some (message result)) None)
       else ret (SendJson 200 true (Some (message result)) None))
      (fun err =>
         await_ log umask LOG_FILE now ("API error: " ++ errorMessage systemMessage err);
         ret (SendJson 500 false (Some (errorMessage systemMessage err)) None)) fs.
Proof. reflexivity. Qed.

Lemma inject_route_body (tempCss tempJs : string) (chunks : list string)
    (body : json) (fs : fsmap) :
  readJsonBody chunkText JSONparse chunks BODY_LIMIT fs = (Ok body, fs) ->
  body <> JNull ->
  listener tempCss tempJs (Request "POST" "/api/inject" chunks) fs
  = match injectCode umask tempCss tempJs (payloadOf body) fs with
    | (Ok result, fs') =>
        (Ok (if negb (injected result)
             then SendJson 400 false (Some (message result)) None
             else SendJson 200 true (Some (message result)) None), fs')
    | (Throw e, fs') =>
        (await_ log umask LOG_FILE now ("API error: " ++ errorMessage systemMessage e);
         ret (SendJson 500 false (Some (errorMessage systemMessage e)) None)) fs'
    end.
Proof.
  intros Hbody Hnn. rewrite inject_route. unfold tryCatch at 1.
  rewrite (bind_ok _ _ _ _ _ Hbody).
  rewrite !(bind_ok _ _ _ _ _ (getProperty_ok body _ fs Hnn)).
  unfold bind at 1. fold (payloadOf body).
  destruct (injectCode umask tempCss tempJs (payloadOf body) fs) as [[result | e] fs'];
    [| reflexivity].
  destruct (negb (injected result)); reflexivity.
Qed.

Lemma bind_inv {A B} (m : M A) (k : A -> M B) (fs fs' : fsmap) (b : B) :
  bind m k fs = (Ok b, fs') ->
  exists a fs0, m fs = (Ok a, fs0) /\ k a fs0 = (Ok b, fs').
Proof.
  unfold bind. destruct (m fs) as [[a | e] fs0]; [eauto | discriminate].
Qed.

Lemma jsonReply_200 (text : option string) (data : option statusSnapshot) :
  jsonReply (SendJson 200 true text data).
Proof. exists 200, true, text, data. split; [reflexivity | split; reflexivity]. Qed.

Lemma jsonReply_error (status : Z) (text : option string) :
  status <> 200 -> jsonReply (SendJson status false text None).
Proof.
  intros H. exists status, false, text, None.
  split; [reflexivity | split; [discriminate | contradiction]].
Qed.

(** X10. Every request whose path name begins with [/api/] is answered, and
    by [sendJson]: no error of the three operations or of the body leaves
    the listener, and the answer says [ok] exactly with the status 200. *)
Theorem listener_api_answers (tempCss tempJs : string) (req : request) (fs : fsmap) :
  startsWith (pathname req) "/api/" = true ->
  exists r fs', listener tempCss tempJs req fs = (Ok r, fs') /\ jsonReply r.
Proof.
  intros Hapi. unfold requestListener.
  destruct (pathname req) as [|c path] eqn:Epath; [discriminate |].
  rewrite Hapi.
  match goal with
  | |- exists r fs', tryCatch ?body ?handler fs = _ /\ _ =>
      assert (Hbody : forall r fs1, body fs = (Ok r, fs1) -> jsonReply r);
      [| unfold tryCatch; destruct (body fs) as [[r | e] fs1] eqn:Eb;
         [ exists r, fs1; split; [reflexivity | exact (Hbody r fs1 eq_refl)]
         | destruct (api_catch e fs1) as (fs' & Hc & _);
           eexists _, fs'; split; [exact Hc | apply jsonReply_error; discriminate] ] ]
  end.
  intros r fs1.
  destruct ((method req =? "GET")%string && (String c path =? "/api/status")%string).
  { intros H. apply bind_inv in H as (st & fs0 & _ & [= <- _]). apply jsonReply_200. }
  destruct ((method req =? "POST")%string && (String c path =? "/api/restore")%string).
  { intros H. apply bind_inv in H as (u & fs0 & _ & [= <- _]). apply jsonReply_200. }
  destruct ((method req =? "POST")%string && (String c path =? "/api/inject")%string).
  { intros H.
    apply bind_inv in H as (body & fs0 & _ & H).
    apply bind_inv in H as (v1 & fs2 & _ & H).
    apply bind_inv in H as (v2 & fs3 & _ & H).
    apply bind_inv in H as (v3 & fs4 & _ & H).
    apply bind_inv in H as (v4 & fs5 & _ & H).
    apply bind_inv in H as (result & fs6 & _ & H).
    destruct (negb (injected result)); injection H as <- _.
    - apply jsonReply_error. discriminate.
    - apply jsonReply_200. }
  intros [= <- _]. apply jsonReply_error. discriminate.
Qed.

(** X11. [POST /api/inject] with a body whose four fields are each absent,
    not a string, or blank once trimmed: when the first half of the patch
    succeeds, the answer is the status 400 with "no CSS/JS content
    provided", and the request has reset the target to the backup all the
    same. *)
Theorem inject_endpoint_blank (tempCss tempJs : string) (chunks : list string)
    (body : json) (fs fs1 : fsmap) :
  readJsonBody chunkText JSONparse chunks BODY_LIMIT fs = (Ok body, fs) ->
  body <> JNull ->
  payloadOf body = Payload None None None None ->
  prologue fs = (Ok tt, fs1) ->
  listener tempCss tempJs (Request "POST" "/api/inject" chunks) fs
  = (Ok (SendJson 400 false (Some "未提供任何 CSS/JS 内容") None), fs1)
  /\ exists content mode,
       fs1 !! INDEX_FILE = Some (File content mode)
       /\ fs1 !! BACKUP_FILE = Some (File content mode).
Proof.
  intros Hbody Hnn Hblank Hp. split.
  - rewrite (inject_route_body tempCss tempJs chunks body fs Hbody Hnn), Hblank.
    rewrite (injectCode_resolved umask fs fs1 (Payload None None None None)
               tempCss tempJs None None Hp eq_refl eq_refl).
    reflexivity.
  - destruct (prologue_ok_spec fs fs1 Hp) as (c & m & Hi & Hb & _). eauto.
Qed.

(** X12. [POST /api/inject] with a body the listener cannot use is answered
    with the status 500 before any file of the patch is touched: a body of
    more bytes than the limit with "request body too large", a body that is
    no JSON with "JSON parse failed", and the body [null] with the message
    of the failed property read.  The log file alone may change. *)
Theorem inject_endpoint_bad_body (tempCss tempJs : string) (chunks : list string)
    (fs : fsmap) :
  let answer := listener tempCss tempJs (Request "POST" "/api/inject" chunks) fs in
  let untouched (fs' : fsmap) :=
    forall path, Some path <> LOG_FILE -> fs' !! path = fs !! path in
  (BODY_LIMIT < totalBytes chunks ->
   exists fs', answer = (Ok (SendJson 500 false (Some "请求体过大") None), fs')
               /\ untouched fs')
  /\ (totalBytes chunks <= BODY_LIMIT -> bodyText chunkText chunks <> "" ->
      JSONparse (bodyText chunkText chunks) = None ->
      exists fs', answer = (Ok (SendJson 500 false (Some "JSON 解析失败") None), fs')
                  /\ untouched fs')
  /\ (totalBytes chunks <= BODY_LIMIT -> bodyText chunkText chunks <> "" ->
      JSONparse (bodyText chunkText chunks) = Some JNull ->
      exists fs', answer
                  = (Ok (SendJson 500 false (Some (nullMessage "cssText")) None), fs')
                  /\ untouched fs').
Proof.
  intros answer untouched. subst answer untouched.
  assert (Hlimit : 0 <= BODY_LIMIT) by (unfold BODY_LIMIT; lia).
  assert (Hread : readJsonBody chunkText JSONparse chunks BODY_LIMIT fs
                  = (if BODY_LIMIT <? totalBytes chunks
                     then Throw (Error "请求体过大")
                     else parsedBody JSONparse (bodyText chunkText chunks), fs)).
  { unfold readJsonBody.
    rewrite (readChunks_eval chunkText JSONparse BODY_LIMIT chunks "" 0 Hlimit).
    reflexivity. }
  split; [| split].
  - intros Hbig. rewrite inject_route. unfold tryCatch.
    replace (BODY_LIMIT <? totalBytes chunks) with true in Hread
      by (symmetry; apply Z.ltb_lt; exact Hbig).
    rewrite (bind_throw _ _ _ _ _ Hread).
    exact (api_catch (Error "请求体过大") fs).
  - intros Hsmall Hne Hparse. rewrite inject_route. unfold tryCatch.
    replace (BODY_LIMIT <? totalBytes chunks) with false in Hread
      by (symmetry; apply Z.ltb_ge; exact Hsmall).
    unfold parsedBody in Hread.
    destruct (decide (bodyText chunkText chunks = "")); [contradiction |].
    rewrite Hparse in Hread. rewrite (bind_throw _ _ _ _ _ Hread).
    exact (api_catch (Error "JSON 解析失败") fs).
  - intros Hsmall Hne Hparse. rewrite inject_route. unfold tryCatch.
    replace (BODY_LIMIT <? totalBytes chunks) with false in Hread
      by (symmetry; apply Z.ltb_ge; exact Hsmall).
    unfold parsedBody in Hread.
    destruct (decide (bodyText chunkText chunks = "")); [contradiction |].
    rewrite Hparse in Hread. rewrite (bind_ok _ _ _ _ _ Hread).
    exact (api_catch (Error (nullMessage "cssText")) fs).
Qed.

(** X13. [POST /api/restore]: without a backup the answer is the status 500
    with "backup file not found" and no file but the log has changed; with
    a backup the answer is the status 200 and the target has the content of
    the backup and the bits [0o644]. *)
Theorem restore_endpoint (tempCss tempJs : string) (chunks : list string) (fs : fsmap) :
  let answer := listener tempCss tempJs (Request "POST" "/api/restore" chunks) fs in
  (fs !! BACKUP_FILE = None ->
   exists fs', answer = (Ok (SendJson 500 false (Some "未找到备份文件") None), fs')
               /\ forall path, Some path <> LOG_FILE -> fs' !! path = fs !! path)
  /\ (forall content mode,
        fs !! BACKUP_FILE = Some (File content mode) ->
        isDirectory (fs !! INDEX_FILE) = false ->
        answer = (Ok (SendJson 200 true (Some "已还原至官方默认状态") None),
                  <[INDEX_FILE := File content MODE_644]> fs)).
Proof.
  intros answer. subst answer. split.
  - intros Hb.
    assert (Hr : restoreOriginal fs = (Throw (Error "未找到备份文件"), fs)).
    { unfold restoreOriginal. unfold_fs. fs_eval. reflexivity. }
    change (listener tempCss tempJs (Request "POST" "/api/restore" chunks) fs)
      with (tryCatch
              (await_ restoreOriginal;
               ret (SendJson 200 true (Some "已还原至官方默认状态") None))
              (fun err =>
                 await_ log umask LOG_FILE now
                          ("API error: " ++ errorMessage systemMessage err);
                 ret (SendJson 500 false (Some (errorMessage systemMessage err)) None))
              fs).
    unfold tryCatch. rewrite (bind_throw _ _ _ _ _ Hr).
    exact (api_catch (Error "未找到备份文件") fs).
  - intros content mode Hb Hi.
    change (listener tempCss tempJs (Request "POST" "/api/restore" chunks) fs)
      with (tryCatch
              (await_ restoreOriginal;
               ret (SendJson 200 true (Some "已还原至官方默认状态") None))
              (fun err =>
                 await_ log umask LOG_FILE now
                          ("API error: " ++ errorMessage systemMessage err);
                 ret (SendJson 500 false (Some (errorMessage systemMessage err)) None))
              fs).
    unfold tryCatch. rewrite (bind_ok _ _ _ _ _ (restoreOriginal_ok fs content mode Hb Hi)).
    reflexivity.
Qed.

(** [handleStatic] reads only. *)
Lemma statPath_frame (path : string) (fs : fsmap) :
  (statPath path fs).2 = fs.
Proof.
  unfold statPath, stat. destruct (endsInSeparator path).
  - destruct (fs !! dropLast path) as [[c m|]|]; reflexivity.
  - destruct (fs !! path) as [n|]; reflexivity.
Qed.

Lemma statPath_plain (path : string) :
  endsInSeparator path = false -> statPath path = stat path.
Proof. intros H. unfold statPath. rewrite H. reflexivity. Qed.

Lemma handleStatic_frame (path : string) (fs : fsmap) :
  (handleStatic WWW_ROOT decodeURIComponent path fs).2 = fs.
Proof.
  unfold handleStatic. unfold bind at 1.
  destruct (safeJoin decodeURIComponent WWW_ROOT path) as [[filePath|] | e];
    try reflexivity.
  unfold bind, tryCatch, ret.
  match goal with
  | |- context [statPath ?q fs] =>
      pose proof (statPath_frame q fs) as F;
      destruct (statPath q fs) as [[[c m|] | e] fs']
  end; simpl in F; subst fs'; cbn beta iota; try reflexivity.
  - unfold readFile. destruct (fs !! _) as [[c' m'|]|]; reflexivity.
  - unfold readFile. destruct (fs !! _) as [[c' m'|]|]; reflexivity.
Qed.

(** X14. A request whose path name does not begin with [/api/] changes no
    file, whatever its method, and whether it is answered or not: only the
    requests of the API can change the file system. *)
Theorem listener_static_readonly (tempCss tempJs : string) (req : request) (fs : fsmap) :
  startsWith (pathname req) "/api/" = false ->
  (listener tempCss tempJs req fs).2 = fs.
Proof.
  intros Hapi. unfold requestListener.
  destruct (pathname req) as [|c path] eqn:Epath.
  - change (startsWith "/" "/api/") with false. cbn iota.
    destruct (negb (method req =? "GET")%string); [reflexivity |].
    apply handleStatic_frame.
  - rewrite Hapi.
    destruct (negb (method req =? "GET")%string); [reflexivity |].
    apply handleStatic_frame.
Qed.

(** X15.  What [handleStatic] answers for a path, other than the root
    path, that [safeJoin] resolves to [filePath].  The place looked at is
    [filePath], without the separator at its end when it has one.  The
    answer is the status 404 when nothing is there; for a regular file the
    file with the type of its name, but the status 404 when the path ends
    in a separator; for a directory the file [index.html] inside it, and
    the status 500, not 404, when the directory has no such regular file.
    No file changes. *)
Theorem handleStatic_answers (path filePath : string) (fs : fsmap) :
  safeJoin decodeURIComponent WWW_ROOT path = Ok (Some filePath) ->
  path <> "/" -> path <> "" ->
  let answer := handleStatic WWW_ROOT decodeURIComponent path fs in
  let indexFile := pathJoin filePath "index.html" in
  let place := if endsInSeparator filePath then dropLast filePath else filePath in
  (fs !! place = None -> answer = (Ok (SendText 404 "Not Found"), fs))
  /\ (forall content mode, fs !! place = Some (File content mode) ->
      answer = (if endsInSeparator filePath
                then Ok (SendText 404 "Not Found")
                else Ok (SendFile (mimeFor filePath) content), fs))
  /\ (forall content mode,
        fs !! place = Some Dir -> fs !! indexFile = Some (File content mode) ->
        answer = (Ok (SendFile (mimeFor indexFile) content), fs))
  /\ (fs !! place = Some Dir -> isRegular (fs !! indexFile) = false ->
      answer = (Ok (SendText 500 "Internal Server Error"), fs)).
Proof.
  intros Hjoin H1 H2 answer indexFile place. subst answer indexFile place.
  assert (Hroot : (path =? "/")%string || (path =? "")%string = false).
  { apply orb_false_iff. split; apply String.eqb_neq; assumption. }
  destruct (endsInSeparator filePath) eqn:E; repeat split; intros;
    unfold handleStatic; unfold bind at 1; rewrite Hjoin, Hroot; cbn iota;
    unfold statPath; rewrite E; unfold_fs; fs_eval; try reflexivity.
  all: match goal with
       | Hno : isRegular (?m !! ?q) = false |- _ =>
           destruct (m !! q) as [[c' m'|]|]; simpl in Hno;
           [discriminate | reflexivity | reflexivity]
       end.
Qed.

(** X16. A [GET] request outside the API whose path is a malformed escape
    for [decodeURIComponent] is not answered: the error leaves the
    listener, which has no [catch] around [handleStatic]. *)
Theorem listener_malformed_path (tempCss tempJs : string) (req : request)
    (e : error) (fs : fsmap) :
  method req = "GET" ->
  pathname req <> "" ->
  startsWith (pathname req) "/api/" = false ->
  decodeURIComponent (hd "" (split "?"%char (pathname req))) = Throw e ->
  listener tempCss tempJs req fs = (Throw e, fs).
Proof.
  intros Hm Hne Hapi Hdec. unfold requestListener.
  destruct (pathname req) as [|c path] eqn:Epath; [congruence |].
  rewrite Hapi, Hm. cbn [negb String.eqb Ascii.eqb Bool.eqb andb].
  unfold handleStatic, bind, safeJoin. rewrite Hdec. reflexivity.
Qed.

End ListenerProperties.

(** ** Paths *)

Lemma without_app (c : ascii) (a b : string) :
  without c (a ++ b) = without c a && without c b.
Proof.
  induction a as [|x a IH]; simpl; [reflexivity |].
  destruct (decide (x = c)); [reflexivity | exact IH].
Qed.

Lemma removeNul_id (s : string) : without "000"%char s = true -> removeNul s = s.
Proof.
  induction s as [|x s IH]; simpl; [reflexivity |].
  destruct (decide (x = "000"%char)); [discriminate |].
  intros H. rewrite IH by exact H. reflexivity.
Qed.

Lemma splitFrom_plain (sep : ascii) (a cur : string) :
  without sep a = true -> splitFrom sep cur a = [cur ++ a].
Proof.
  revert cur. induction a as [|x a IH]; intros cur; simpl.
  - rewrite sapp_nil_r. reflexivity.
  - destruct (decide (x = sep)); [discriminate |].
    intros H. rewrite IH by exact H. rewrite sapp_assoc. reflexivity.
Qed.

Lemma splitFrom_sep (sep : ascii) (a b cur : string) :
  without sep a = true ->
  splitFrom sep cur (a ++ String sep b) = (cur ++ a) :: splitFrom sep "" b.
Proof.
  revert cur. induction a as [|x a IH]; intros cur; simpl.
  - destruct (decide (sep = sep)); [| contradiction]. rewrite sapp_nil_r. reflexivity.
  - destruct (decide (x = sep)); [discriminate |].
    intros H. rewrite IH by exact H. rewrite sapp_assoc. reflexivity.
Qed.

(** Segments without a separator, joined and split again, are the same
    segments. *)
Lemma split_join (segments : list string) :
  segments <> [] ->
  Forall (fun s => without SLASH s = true) segments ->
  split SLASH (join "/" segments) = segments.
Proof.
  intros Hne Hall. unfold split.
  induction Hall as [|s rest Hs Hrest IH]; [congruence |].
  destruct rest as [|s' rest].
  - simpl. apply splitFrom_plain. exact Hs.
  - change (join "/" (s :: s' :: rest)) with (s ++ String SLASH (join "/" (s' :: rest))).
    rewrite splitFrom_sep by exact Hs. simpl String.append.
    rewrite IH by congruence. reflexivity.
Qed.

Lemma absolutePath_join (segments : list string) :
  segments <> [] -> absolutePath segments = join "/" ("" :: segments).
Proof. destruct segments; [congruence | reflexivity]. Qed.

Lemma plainSegment_inv (s : string) :
  plainSegment s = true ->
  s <> "" /\ without SLASH s = true /\ without "000"%char s = true
  /\ s <> "." /\ s <> "..".
Proof.
  unfold plainSegment. intros H.
  repeat (apply andb_true_iff in H; destruct H as [H ?]).
  repeat match goal with
         | H : negb _ = true |- _ =>
             apply negb_true_iff in H; apply String.eqb_neq in H
         end.
  repeat split; assumption.
Qed.

(** Plain segments are kept by [normalizeString], one after the other. *)
Lemma normalize_plain (allow : bool) (segments stack : list string) :
  Forall (fun s => plainSegment s = true) segments ->
  fold_left (normalizeStep allow) segments stack = (rev segments ++ stack)%list.
Proof.
  intros Hall. revert stack.
  induction Hall as [|s rest Hs _ IH]; intros stack; [reflexivity |].
  apply plainSegment_inv in Hs as (H1 & _ & _ & H2 & H3).
  simpl. unfold normalizeStep at 2.
  destruct (decide (s = "")); [contradiction |].
  destruct (decide (s = ".")); [contradiction |].
  destruct (decide (s = "..")); [contradiction |].
  rewrite IH, <- app_assoc. reflexivity.
Qed.

Lemma join_nonempty (s : string) (rest : list string) :
  s <> "" -> join "/" (s :: rest) <> "".
Proof.
  intros Hs. destruct rest as [|s' rest]; [exact Hs |].
  destruct s; [congruence | discriminate].
Qed.

Lemma lastChar_app (a b : string) :
  b <> "" -> lastChar (a ++ b) = lastChar b.
Proof.
  intros Hb. induction a as [|x a IH]; [reflexivity |].
  simpl. rewrite IH. destruct (a ++ b) eqn:E; [| reflexivity].
  destruct a; simpl in E; [congruence | discriminate].
Qed.

Lemma lastChar_without (c : ascii) (s : string) :
  without c s = true -> lastChar s <> Some c.
Proof.
  induction s as [|x s IH]; [discriminate |]. simpl.
  destruct (decide (x = c)); [discriminate |]. intros H.
  destruct s; [congruence | apply IH; exact H].
Qed.

Lemma join_snoc (segments : list string) (s : string) :
  segments <> [] -> join "/" (segments ++ [s]) = join "/" segments ++ "/" ++ s.
Proof.
  induction segments as [|x rest IH]; [congruence |]. intros _.
  destruct rest as [|y rest]; [reflexivity |].
  change (join "/" ((x :: y :: rest) ++ [s]))
    with (x ++ "/" ++ join "/" ((y :: rest) ++ [s])).
  rewrite IH by congruence.
  change (join "/" (x :: y :: rest)) with (x ++ "/" ++ join "/" (y :: rest)).
  rewrite !sapp_assoc. reflexivity.
Qed.

Lemma absolutePath_snoc (segments : list string) (s : string) :
  absolutePath (segments ++ [s])
  = (if decide (segments = []) then "" else absolutePath segments) ++ "/" ++ s.
Proof.
  unfold absolutePath. destruct (decide (segments = [])) as [-> | Hne];
    [reflexivity |].
  rewrite join_snoc by exact Hne. rewrite !sapp_assoc. reflexivity.
Qed.

(** [path.normalize] on an absolute path given by segments without a
    separator of which the last is not empty: the segments are put through
    [normalizeString], and no separator is added at the end. *)
Lemma pathNormalize_segments (segments : list string) (final : string) :
  Forall (fun s => without SLASH s = true) segments ->
  without SLASH final = true -> final <> "" ->
  Forall (fun s => s <> "")
    (fold_left (normalizeStep false) (segments ++ [final]) []) ->
  pathNormalize (absolutePath (segments ++ [final]))
  = absolutePath (rev (fold_left (normalizeStep false) (segments ++ [final]) [])).
Proof.
  intros Hall Hf Hne Hstack.
  assert (Hsegs : (segments ++ [final])%list <> []) by (destruct segments; discriminate).
  unfold pathNormalize.
  destruct (decide (absolutePath (segments ++ [final]) = "")); [discriminate |].
  cbv zeta.
  assert (Habs : bool_decide (firstChar (absolutePath (segments ++ [final])) = Some SLASH)
                 = true) by reflexivity.
  rewrite Habs. cbn [negb].
  assert (Htrail : bool_decide (lastChar (absolutePath (segments ++ [final])) = Some SLASH)
                   = false).
  { apply bool_decide_eq_false_2. rewrite absolutePath_snoc.
    rewrite !lastChar_app by (destruct final; [congruence | discriminate]).
    apply lastChar_without. exact Hf. }
  rewrite Htrail. unfold normalizeString.
  rewrite absolutePath_join by exact Hsegs.
  rewrite split_join.
  2: discriminate.
  2: { constructor; [reflexivity |]. apply Forall_app. split; [exact Hall |].
       constructor; [exact Hf | constructor]. }
  change (fold_left (normalizeStep false) ("" :: segments ++ [final]) [])
    with (fold_left (normalizeStep false) (segments ++ [final]) []).
  set (stack := fold_left (normalizeStep false) (segments ++ [final]) []) in *.
  destruct (decide (join "/" (rev stack) = "")) as [E | E]; [| reflexivity].
  destruct (rev stack) as [|s rest] eqn:Er; [reflexivity |].
  exfalso. apply (join_nonempty s rest); [| exact E].
  assert (Hin : Forall (fun s => s <> "") (rev stack)) by (apply Forall_rev; exact Hstack).
  rewrite Er in Hin. apply Forall_cons in Hin. tauto.
Qed.

Lemma startsWith_cons (c : ascii) (line marker : string) :
  startsWith (String c line) (String c marker) = startsWith line marker.
Proof.
  change (startsWith (String c line) (String c marker))
    with (if decide (c = c) then startsWith line marker else false).
  destruct (decide (c = c)); [reflexivity | contradiction].
Qed.

Lemma startsWith_cancel (x a b : string) :
  startsWith (x ++ a) (x ++ b) = startsWith a b.
Proof.
  induction x as [|c x IH]; [reflexivity |].
  simpl String.append. rewrite startsWith_cons. exact IH.
Qed.

Lemma startsWith_app (x y : string) : startsWith (x ++ y) x = true.
Proof. apply startsWith_spec. exists y. reflexivity. Qed.

Lemma startsWith_length (line marker : string) :
  startsWith line marker = true -> (String.length marker <= String.length line)%nat.
Proof.
  intros H. apply startsWith_spec in H as [rest ->]. rewrite slength_app. lia.
Qed.

Lemma plain_without_slash (segments : list string) :
  Forall (fun s => plainSegment s = true) segments ->
  Forall (fun s => without SLASH s = true) segments.
Proof.
  intros H. eapply Forall_impl; [exact H |].
  intros s Hs. apply plainSegment_inv in Hs. tauto.
Qed.

Lemma plain_nonempty (segments : list string) :
  Forall (fun s => plainSegment s = true) segments ->
  Forall (fun s => s <> "") segments.
Proof.
  intros H. eapply Forall_impl; [exact H |].
  intros s Hs. apply plainSegment_inv in Hs. tauto.
Qed.

(** An absolute path of plain segments is normal. *)
Lemma pathNormalize_plain (segments : list string) :
  Forall (fun s => plainSegment s = true) segments ->
  pathNormalize (absolutePath segments) = absolutePath segments.
Proof.
  intros Hall. destruct segments as [|s0 rest0] using rev_ind; [reflexivity |].
  clear IHrest0. rename rest0 into segments, s0 into final.
  apply Forall_app in Hall. destruct Hall as [Hsegs Hfin].
  apply Forall_cons in Hfin. destruct Hfin as [Hfin _].
  pose proof (plainSegment_inv final Hfin) as (Hne & Hsl & _).
  assert (Hfold : fold_left (normalizeStep false) (segments ++ [final]) []
                  = (rev (segments ++ [final]) ++ [])%list).
  { apply normalize_plain. apply Forall_app. split; [exact Hsegs |].
    constructor; [exact Hfin | constructor]. }
  rewrite pathNormalize_segments.
  - rewrite Hfold, app_nil_r, rev_involutive. reflexivity.
  - apply plain_without_slash. exact Hsegs.
  - exact Hsl.
  - exact Hne.
  - rewrite Hfold, app_nil_r. apply Forall_rev. apply plain_nonempty.
    apply Forall_app. split; [exact Hsegs |]. constructor; [exact Hfin | constructor].
Qed.

Lemma absolutePath_app (a b : list string) :
  a <> [] -> b <> [] ->
  absolutePath (a ++ b) = absolutePath a ++ absolutePath b.
Proof.
  intros Ha Hb. revert Hb. induction b as [|s b IH] using rev_ind; [congruence |].
  intros _. rewrite app_assoc, !absolutePath_snoc.
  destruct (decide (a ++ b = [])%list) as [E | _].
  { destruct a; [congruence | discriminate]. }
  destruct (decide (b = [])) as [-> | Hb'].
  - rewrite app_nil_r. reflexivity.
  - rewrite IH by exact Hb'. rewrite !sapp_assoc. reflexivity.
Qed.

(** X17. The test of [safeJoin] is a test on strings, not on directories: a
    request that steps to the parent of the root and into a sibling whose
    name begins with the name of the root is resolved, to a path outside
    the root directory. *)
Theorem safeJoin_sibling (decodeURIComponent : string -> outcome string)
    (parents : list string) (name suffix file request : string) :
  Forall (fun s => plainSegment s = true) parents ->
  plainSegment name = true ->
  plainSegment (name ++ suffix) = true ->
  suffix <> "" ->
  plainSegment file = true ->
  decodeURIComponent (hd "" (split "?"%char request))
  = Ok ("/../" ++ name ++ suffix ++ "/" ++ file) ->
  let root := absolutePath (parents ++ [name]) in
  safeJoin decodeURIComponent root request = Ok (Some (root ++ suffix ++ "/" ++ file))
  /\ startsWith (root ++ suffix ++ "/" ++ file) (root ++ "/") = false.
Proof.
  intros Hparents Hname Hns Hsuffix Hfile Hdec root.
  pose proof (plainSegment_inv name Hname) as (N1 & N2 & N3 & N4 & N5).
  pose proof (plainSegment_inv (name ++ suffix) Hns) as (S1 & S2 & S3 & S4 & S5).
  pose proof (plainSegment_inv file Hfile) as (F1 & F2 & F3 & F4 & F5).
  assert (Hresult : absolutePath (parents ++ [(name ++ suffix)%string; file])
                    = root ++ suffix ++ "/" ++ file).
  { subst root. change (parents ++ [(name ++ suffix)%string; file])%list
      with (parents ++ [(name ++ suffix)%string] ++ [file])%list.
    rewrite app_assoc, absolutePath_snoc.
    destruct (decide (parents ++ [(name ++ suffix)%string] = [])%list) as [E | _];
      [destruct parents; discriminate |].
    rewrite !absolutePath_snoc. rewrite !sapp_assoc. reflexivity. }
  split.
  - unfold safeJoin. rewrite Hdec.
    rewrite removeNul_id.
    2: { pose proof S3 as S3'. rewrite without_app in S3'.
         apply andb_true_iff in S3' as [_ S3'].
         rewrite !without_app, N3, S3', F3. reflexivity. }
    assert (Hjoin : pathJoin root ("/../" ++ name ++ suffix ++ "/" ++ file)
                    = absolutePath (parents ++ [(name ++ suffix)%string; file])).
    { unfold pathJoin.
      destruct (decide (root = "")); [discriminate |].
      destruct (decide ("/../" ++ name ++ suffix ++ "/" ++ file = ""));
        [discriminate |].
      replace (root ++ "/" ++ "/../" ++ name ++ suffix ++ "/" ++ file)
        with (absolutePath ((parents ++ [name; ""; ".."; (name ++ suffix)%string]) ++ [file])).
      2: { subst root.
           change (parents ++ [name; ""; ".."; (name ++ suffix)%string])%list
             with (parents ++ [name] ++ [""] ++ [".."] ++ [(name ++ suffix)%string])%list.
           rewrite !app_assoc, !absolutePath_snoc.
           repeat match goal with
                  | |- context [decide (?l = [])] =>
                      destruct (decide (l = [])) as [E | _];
                      [destruct parents; discriminate |]
                  end.
           rewrite !sapp_assoc. reflexivity. }
      assert (Hfold : fold_left (normalizeStep false)
                        ((parents ++ [name; ""; ".."; (name ++ suffix)%string]) ++ [file]) []
                      = file :: (name ++ suffix)%string :: rev parents).
      { rewrite <- app_assoc, fold_left_app.
        rewrite (normalize_plain false parents [] Hparents).
        rewrite app_nil_r. simpl. unfold normalizeStep.
        repeat match goal with
               | |- context [decide (?a = ?b)] =>
                   destruct (decide (a = b));
                   try contradiction; try congruence; try discriminate
               end.
        all: try reflexivity. }
      rewrite pathNormalize_segments.
      - rewrite Hfold. simpl rev. rewrite rev_involutive, <- app_assoc. reflexivity.
      - apply Forall_app. split; [apply plain_without_slash; exact Hparents |].
        repeat constructor; assumption.
      - exact F2.
      - exact F1.
      - rewrite Hfold. repeat (constructor; [assumption |]).
        apply Forall_rev. apply plain_nonempty. exact Hparents. }
    rewrite Hjoin.
    rewrite pathNormalize_plain.
    2: { apply Forall_app. split; [exact Hparents |].
         repeat constructor; assumption. }
    rewrite Hresult. subst root. rewrite startsWith_app. reflexivity.
  - rewrite startsWith_cancel. destruct suffix as [|c suffix]; [congruence |].
    simpl String.append. unfold startsWith.
    destruct (decide ("/"%char = c)) as [<- | _]; [| reflexivity].
    exfalso. rewrite without_app in S2. apply andb_true_iff in S2 as [_ S2].
    simpl in S2. destruct (decide ("/"%char = SLASH)); [discriminate | contradiction].
Qed.

Lemma absolutePath_gap (a b : list string) :
  a <> [] -> b <> [] ->
  absolutePath a ++ "/" ++ absolutePath b = absolutePath (a ++ "" :: b).
Proof.
  intros Ha Hb.
  change (a ++ "" :: b)%list with (a ++ [""] ++ b)%list.
  rewrite app_assoc, absolutePath_app by (try assumption; destruct a; discriminate).
  rewrite absolutePath_snoc. destruct (decide (a = [])); [contradiction |].
  rewrite !sapp_assoc. reflexivity.
Qed.

(** X18. On a root and a request path of plain segments [safeJoin] appends:
    the request is resolved to the path of the same segments below the
    root.  The request for the parent of the root is refused. *)
Theorem safeJoin_plain (decodeURIComponent : string -> outcome string)
    (parents : list string) (name : string) (segments : list string)
    (request : string) :
  Forall (fun s => plainSegment s = true) parents ->
  plainSegment name = true ->
  let root := absolutePath (parents ++ [name]) in
  (Forall (fun s => plainSegment s = true) segments -> segments <> [] ->
   decodeURIComponent (hd "" (split "?"%char request)) = Ok (absolutePath segments) ->
   safeJoin decodeURIComponent root request = Ok (Some (root ++ absolutePath segments)))
  /\ (decodeURIComponent (hd "" (split "?"%char request)) = Ok "/.." ->
      safeJoin decodeURIComponent root request = Ok None).
Proof.
  intros Hparents Hname root.
  pose proof (plainSegment_inv name Hname) as (N1 & N2 & N3 & N4 & N5).
  assert (Hrootsegs : Forall (fun s => plainSegment s = true) (parents ++ [name])).
  { apply Forall_app. split; [exact Hparents | repeat constructor; exact Hname]. }
  assert (Hrootne : (parents ++ [name])%list <> []) by (destruct parents; discriminate).
  split.
  - intros Hsegs Hne Hdec. unfold safeJoin. rewrite Hdec.
    assert (Hnul : without "000"%char (absolutePath segments) = true).
    { unfold absolutePath. rewrite without_app. simpl.
      clear Hdec Hne. induction Hsegs as [|s rest Hs _ IH]; [reflexivity |].
      apply plainSegment_inv in Hs as (_ & _ & Hs & _).
      destruct rest as [|s' rest]; [exact Hs |].
      change (join "/" (s :: s' :: rest)) with (s ++ "/" ++ join "/" (s' :: rest)).
      rewrite !without_app, Hs, IH. reflexivity. }
    rewrite removeNul_id by exact Hnul.
    assert (Hjoin : pathJoin root (absolutePath segments)
                    = absolutePath ((parents ++ [name]) ++ segments)).
    { unfold pathJoin.
      destruct (decide (root = "")); [discriminate |].
      destruct (decide (absolutePath segments = "")); [discriminate |].
      destruct segments as [|s0 rest0] using rev_ind; [congruence |].
      clear IHrest0. rename rest0 into front, s0 into final.
      apply Forall_app in Hsegs. destruct Hsegs as [Hfront Hfinal].
      apply Forall_cons in Hfinal. destruct Hfinal as [Hfinal _].
      pose proof (plainSegment_inv final Hfinal) as (F1 & F2 & _).
      assert (Hstr : root ++ "/" ++ absolutePath (front ++ [final])
                     = absolutePath (((parents ++ [name]) ++ "" :: front) ++ [final])).
      { subst root. rewrite absolutePath_gap by (try assumption; destruct front; discriminate).
        rewrite <- (app_assoc (parents ++ [name]) ("" :: front) [final]).
        reflexivity. }
      rewrite Hstr.
      assert (Hfold : fold_left (normalizeStep false)
                        (((parents ++ [name]) ++ "" :: front) ++ [final]) []
                      = rev ((parents ++ [name]) ++ front ++ [final])).
      { rewrite <- !app_assoc, fold_left_app.
        rewrite (normalize_plain false parents [] Hparents), app_nil_r.
        simpl fold_left.
        change (normalizeStep false (normalizeStep false (rev parents) name) "")
          with (normalizeStep false (rev parents) name).
        change (fold_left (normalizeStep false) (front ++ [final])
                  (normalizeStep false (rev parents) name))
          with (fold_left (normalizeStep false) ([name] ++ front ++ [final])
                  (rev parents)).
        rewrite normalize_plain.
        - rewrite !rev_app_distr. simpl. rewrite <- !app_assoc. reflexivity.
        - constructor; [exact Hname |]. apply Forall_app. split; [exact Hfront |].
          repeat constructor; exact Hfinal. }
      rewrite pathNormalize_segments.
      - rewrite Hfold, rev_involutive, <- !app_assoc. reflexivity.
      - apply Forall_app. split; [apply plain_without_slash; exact Hrootsegs |].
        constructor; [reflexivity | apply plain_without_slash; exact Hfront].
      - exact F2.
      - exact F1.
      - rewrite Hfold. apply Forall_rev. apply plain_nonempty.
        apply Forall_app. split; [exact Hrootsegs |].
        apply Forall_app. split; [exact Hfront | repeat constructor; exact Hfinal]. }
    rewrite Hjoin, pathNormalize_plain.
    2: { apply Forall_app. split; assumption. }
    rewrite absolutePath_app by assumption.
    subst root. rewrite startsWith_app. reflexivity.
  - intros Hdec. unfold safeJoin. rewrite Hdec.
    change (removeNul "/..") with "/..".
    assert (Hjoin : pathJoin root "/.." = absolutePath parents).
    { unfold pathJoin. destruct (decide (root = "")); [discriminate |].
      destruct (decide ("/.." = "")); [discriminate |].
      replace (root ++ "/" ++ "/..")
        with (absolutePath ((parents ++ [name; ""]) ++ [".."])).
      2: { subst root. change (parents ++ [name; ""])%list
             with (parents ++ [name] ++ [""])%list.
           rewrite !app_assoc, !absolutePath_snoc.
           repeat match goal with
                  | |- context [decide (?l = [])] =>
                      destruct (decide (l = [])) as [E | _];
                      [destruct parents; discriminate |]
                  end.
           rewrite !sapp_assoc. reflexivity. }
      assert (Hfold : fold_left (normalizeStep false)
                        ((parents ++ [name; ""]) ++ [".."]) [] = rev parents).
      { rewrite <- app_assoc, fold_left_app.
        rewrite (normalize_plain false parents [] Hparents), app_nil_r.
        simpl. unfold normalizeStep.
        repeat match goal with
               | |- context [decide (?a = ?b)] =>
                   destruct (decide (a = b));
                   try contradiction; try congruence; try discriminate
               end.
        all: try reflexivity. }
      rewrite pathNormalize_segments.
      - rewrite Hfold, rev_involutive. reflexivity.
      - apply Forall_app. split; [apply plain_without_slash; exact Hparents |].
        repeat constructor; assumption.
      - reflexivity.
      - discriminate.
      - rewrite Hfold. apply Forall_rev. apply plain_nonempty. exact Hparents. }
    rewrite Hjoin, pathNormalize_plain by exact Hparents.
    replace (startsWith (absolutePath parents) root) with false; [reflexivity |].
    symmetry. destruct (startsWith (absolutePath parents) root) eqn:E; [| reflexivity].
    exfalso. apply startsWith_length in E. subst root.
    rewrite absolutePath_snoc in E.
    destruct (decide (parents = [])) as [-> | _].
    + simpl in E. destruct name; [congruence | simpl in E; lia].
    + rewrite !slength_app in E. simpl in E. lia.
Qed.

(** ** Extensions *)

Lemma list_ascii_app (a b : string) :
  list_ascii_of_string (a ++ b)
  = (list_ascii_of_string a ++ list_ascii_of_string b)%list.
Proof. induction a as [|c a IH]; simpl; [reflexivity | now rewrite IH]. Qed.

Lemma list_ascii_length (a : string) :
  List.length (list_ascii_of_string a) = String.length a.
Proof. induction a as [|c a IH]; simpl; [reflexivity | now rewrite IH]. Qed.

Lemma plainChars_of (s : string) :
  without SLASH s = true -> without DOT s = true ->
  plainChars (rev (list_ascii_of_string s)).
Proof.
  intros H1 H2. apply Forall_rev.
  induction s as [|c s IH]; [constructor |]. simpl in *.
  destruct (decide (c = SLASH)); [discriminate |].
  destruct (decide (c = DOT)); [discriminate |].
  constructor; [split; assumption | apply IH; assumption].
Qed.

(** The loop of [extname] over plain characters in front of which no dot
    has been seen: the first of them marks the end. *)
Lemma extnameLoop_plain (l rest : list ascii) (i sp e : Z) (ms : bool) (pd : Z) :
  plainChars l -> e <> -1 ->
  extnameLoop (l ++ rest) i (ExtState (-1) sp e ms pd)
  = extnameLoop rest (i - Z.of_nat (List.length l)) (ExtState (-1) sp e ms pd).
Proof.
  intros Hl He. revert i. induction Hl as [|c l [Hc1 Hc2] _ IH]; intros i.
  - simpl. rewrite Z.sub_0_r. reflexivity.
  - cbn [app extnameLoop].
    destruct (decide (c = SLASH)); [contradiction |].
    destruct (decide (c = DOT)); [contradiction |].
    cbn [endPos startDot]. destruct (Z.eqb_spec e (-1)); [contradiction |].
    cbn [startDot negb Z.eqb]. rewrite IH.
    f_equal. rewrite length_cons. lia.
Qed.

Lemma extnameLoop_first (l rest : list ascii) (i : Z) :
  plainChars l -> l <> [] -> 0 <= i ->
  extnameLoop (l ++ rest) i (ExtState (-1) 0 (-1) true 0)
  = extnameLoop rest (i - Z.of_nat (List.length l)) (ExtState (-1) 0 (i + 1) false 0).
Proof.
  intros Hl Hne Hi. destruct l as [|c l]; [congruence |].
  apply Forall_cons in Hl. destruct Hl as [[Hc1 Hc2] Hl].
  cbn [app extnameLoop].
  destruct (decide (c = SLASH)); [contradiction |].
  destruct (decide (c = DOT)); [contradiction |].
  cbn [endPos]. change (-1 =? -1) with true. cbn [startDot negb].
  change (-1 =? -1) with true. cbn [negb].
  rewrite extnameLoop_plain by (assumption || lia).
  f_equal. rewrite length_cons. lia.
Qed.

(** Once the dot, the end and a character in front of the dot are known,
    the rest of the loop changes none of them. *)
Lemma extnameLoop_settled (chars : list ascii) (i : Z) (st : extState) :
  startDot st <> -1 -> endPos st <> -1 -> preDotState st <> 0 ->
  let st' := extnameLoop chars i st in
  startDot st' = startDot st /\ endPos st' = endPos st /\ preDotState st' <> 0.
Proof.
  revert i st. induction chars as [|c chars IH]; intros i st Hd He Hp; simpl.
  - repeat split; assumption.
  - destruct (decide (c = SLASH)).
    + destruct (negb (matchedSlash st)); [simpl; repeat split; assumption |].
      apply IH; assumption.
    + destruct (Z.eqb_spec (endPos st) (-1)); [contradiction |].
      destruct (decide (c = DOT)).
      * destruct (Z.eqb_spec (startDot st) (-1)); [contradiction |].
        destruct (negb (preDotState st =? 1)).
        -- destruct (IH (i - 1) (ExtState (startDot st) (startPart st) (endPos st)
                                   (matchedSlash st) 1)) as (A & B & C);
             simpl; try assumption; try lia.
           repeat split; assumption.
        -- apply IH; assumption.
      * destruct (Z.eqb_spec (startDot st) (-1)); [contradiction |].
        cbn [negb].
        destruct (IH (i - 1) (ExtState (startDot st) (startPart st) (endPos st)
                                (matchedSlash st) (-1))) as (A & B & C);
          simpl; try assumption; try lia.
        repeat split; assumption.
Qed.

(** One turn of the loop at the last dot, and one at a character in front
    of it. *)
Lemma extnameLoop_dot (rest : list ascii) (i sp e : Z) (ms : bool) (pd : Z) :
  e <> -1 ->
  extnameLoop (DOT :: rest) i (ExtState (-1) sp e ms pd)
  = extnameLoop rest (i - 1) (ExtState i sp e ms pd).
Proof.
  intros He. cbn [extnameLoop].
  destruct (decide (DOT = SLASH)); [discriminate |].
  destruct (decide (DOT = DOT)); [| contradiction].
  cbn [endPos]. destruct (Z.eqb_spec e (-1)); [contradiction |].
  cbn [startDot]. change (-1 =? -1) with true. cbn beta iota.
  reflexivity.
Qed.

Lemma extnameLoop_before_dot (c : ascii) (rest : list ascii) (i d sp e : Z)
    (ms : bool) (pd : Z) :
  c <> SLASH -> d <> -1 -> e <> -1 ->
  exists pd', pd' <> 0 /\
    extnameLoop (c :: rest) i (ExtState d sp e ms pd)
    = extnameLoop rest (i - 1) (ExtState d sp e ms pd').
Proof.
  intros Hc Hd He. cbn [extnameLoop].
  destruct (decide (c = SLASH)); [contradiction |].
  cbn [endPos]. destruct (Z.eqb_spec e (-1)); [contradiction |].
  cbn [startDot]. destruct (Z.eqb_spec d (-1)); [contradiction |].
  cbn [negb preDotState startPart endPos matchedSlash].
  destruct (decide (c = DOT)).
  - destruct (Z.eqb_spec pd 1) as [-> | Hpd]; cbn [negb].
    + exists 1. split; [lia | reflexivity].
    + exists 1. split; [lia | reflexivity].
  - exists (-1). split; [lia | reflexivity].
Qed.

Lemma rev_chars_last (stem : string) (c : ascii) (chars : list ascii) :
  rev (list_ascii_of_string stem) = c :: chars -> lastChar stem = Some c.
Proof.
  intros Erev.
  assert (Hl : list_ascii_of_string stem = (rev chars ++ [c])%list).
  { rewrite <- (rev_involutive (list_ascii_of_string stem)), Erev. reflexivity. }
  clear Erev. revert Hl. generalize (rev chars). intros l.
  revert stem. induction l as [|x l IH]; intros stem Hl.
  - destruct stem as [|a [|b stem]]; simpl in Hl; try discriminate.
    injection Hl as ->. reflexivity.
  - destruct stem as [|a stem]; [discriminate |]. simpl in Hl.
    injection Hl as -> Hl. specialize (IH stem Hl).
    destruct stem; [destruct l; discriminate |].
    rewrite <- IH. reflexivity.
Qed.

(** [extname] of a name with a plain extension behind a stem that does not
    end at a separator. *)
Lemma pathExtname_extension (stem ext : string) :
  stem <> "" -> lastChar stem <> Some SLASH ->
  ext <> "" -> without SLASH ext = true -> without DOT ext = true ->
  pathExtname (stem ++ "." ++ ext) = "." ++ ext.
Proof.
  intros Hstem Hlast Hext Hs Hd. unfold pathExtname.
  rewrite !list_ascii_app, !rev_app_distr, <- !app_assoc.
  change (rev (list_ascii_of_string ".")) with [DOT].
  assert (Hlen : (0 < String.length ext)%nat)
    by (destruct ext; [congruence | simpl; lia]).
  rewrite extnameLoop_first.
  2: apply plainChars_of; assumption.
  2: { intros E. apply (f_equal (@List.length ascii)) in E.
       rewrite length_rev, list_ascii_length in E. simpl in E. lia. }
  2: { rewrite !slength_app. change (String.length ".") with 1%nat. lia. }
  rewrite length_rev, list_ascii_length, !slength_app.
  change (String.length ".") with 1%nat.
  set (len := Z.of_nat (String.length stem + (1 + String.length ext))).
  replace (len - 1 - Z.of_nat (String.length ext)) with (Z.of_nat (String.length stem))
    by (subst len; lia).
  replace (len - 1 + 1) with len by lia.
  cbn [app]. rewrite extnameLoop_dot by (subst len; lia).
  (* the character in front of the dot *)
  destruct (rev (list_ascii_of_string stem)) as [|c chars] eqn:Erev.
  { apply (f_equal (@List.length ascii)) in Erev.
    rewrite length_rev, list_ascii_length in Erev.
    destruct stem; [congruence | discriminate]. }
  assert (Hc : c <> SLASH).
  { intros ->. apply Hlast. apply rev_chars_last with chars. exact Erev. }
  destruct (extnameLoop_before_dot c chars (Z.of_nat (String.length stem) - 1)
              (Z.of_nat (String.length stem)) 0 len false 0)
    as (pd' & Hpd' & ->); [assumption | lia | subst len; lia |].
  match goal with
  | |- context [extnameLoop chars ?i ?st] =>
      destruct (extnameLoop_settled chars i st) as (A & B & C);
      [ simpl; lia | simpl; subst len; lia | simpl; lia
      | revert A B C; generalize (extnameLoop chars i st) ]
  end.
  cbn [startDot endPos preDotState]. intros st A B C.
  rewrite A, B.
  destruct (Z.eqb_spec (Z.of_nat (String.length stem)) (-1)); [lia |].
  destruct (Z.eqb_spec len (-1)); [subst len; lia |].
  destruct (Z.eqb_spec (preDotState st) 0); [contradiction |].
  destruct (Z.eqb_spec (Z.of_nat (String.length stem)) (len - 1)) as [E | _].
  { exfalso. subst len. lia. }
  rewrite !andb_false_r. cbn [orb andb].
  replace len with (Z.of_nat (String.length (stem ++ "." ++ ext)))
    by (subst len; rewrite !slength_app; reflexivity).
  apply sliceFrom_after.
Qed.

Lemma extnameLoop_dotname (l rest : list ascii) (i : Z) :
  plainChars l -> 0 <= i ->
  extnameLoop (l ++ DOT :: rest) i (ExtState (-1) 0 (-1) true 0)
  = extnameLoop rest (i - Z.of_nat (List.length l) - 1)
      (ExtState (i - Z.of_nat (List.length l)) 0 (i + 1) false 0).
Proof.
  intros Hl Hi. destruct l as [|c l].
  - cbn [app List.length Z.of_nat extnameLoop].
    destruct (decide (DOT = SLASH)); [discriminate |].
    destruct (decide (DOT = DOT)); [| contradiction].
    cbn [endPos]. change (-1 =? -1) with true. cbn [startDot].
    change (-1 =? -1) with true. cbn beta iota.
    cbn [startPart endPos matchedSlash preDotState].
    rewrite Z.sub_0_r. reflexivity.
  - rewrite extnameLoop_first by (assumption || discriminate).
    rewrite extnameLoop_dot by lia. reflexivity.
Qed.

(** The loop stops at the separator in front of the last segment. *)
Lemma extnameLoop_break (rest : list ascii) (i d sp e pd : Z) :
  extnameLoop (SLASH :: rest) i (ExtState d sp e false pd)
  = ExtState d (i + 1) e false pd.
Proof.
  cbn [extnameLoop]. destruct (decide (SLASH = SLASH)); [| contradiction].
  reflexivity.
Qed.

Lemma lastChar_rev (prefix : string) (c : ascii) :
  lastChar prefix = Some c ->
  exists chars, rev (list_ascii_of_string prefix) = c :: chars.
Proof.
  induction prefix as [|a prefix IH]; [discriminate |].
  destruct prefix as [|b prefix].
  - simpl. intros [= ->]. exists []. reflexivity.
  - intros H. destruct (IH H) as [chars E].
    exists (chars ++ [a])%list.
    change (list_ascii_of_string (String a (String b prefix)))
      with (a :: list_ascii_of_string (String b prefix)).
    cbn [rev]. rewrite E. reflexivity.
Qed.

(** A last segment without a dot has no extension. *)
Lemma pathExtname_plain (prefix name : string) :
  prefix = "" \/ lastChar prefix = Some SLASH ->
  name <> "" -> without SLASH name = true -> without DOT name = true ->
  pathExtname (prefix ++ name) = "".
Proof.
  intros Hprefix Hname Hs Hd. unfold pathExtname.
  assert (Hlen : (0 < String.length name)%nat)
    by (destruct name; [congruence | simpl; lia]).
  rewrite list_ascii_app, rev_app_distr.
  rewrite extnameLoop_first.
  2: apply plainChars_of; assumption.
  2: { intros E. apply (f_equal (@List.length ascii)) in E.
       rewrite length_rev, list_ascii_length in E. simpl in E. lia. }
  2: { rewrite slength_app. lia. }
  destruct Hprefix as [-> | Hlast].
  - reflexivity.
  - destruct (lastChar_rev prefix SLASH Hlast) as [chars ->].
    rewrite extnameLoop_break. reflexivity.
Qed.

(** A last segment whose only dot is its first character has none either. *)
Lemma pathExtname_dotfile (prefix name : string) :
  prefix = "" \/ lastChar prefix = Some SLASH ->
  without SLASH name = true -> without DOT name = true ->
  pathExtname (prefix ++ "." ++ name) = "".
Proof.
  intros Hprefix Hs Hd. unfold pathExtname.
  rewrite !list_ascii_app, !rev_app_distr, <- !app_assoc.
  change (rev (list_ascii_of_string ".")) with [DOT]. cbn [app].
  rewrite extnameLoop_dotname.
  2: apply plainChars_of; assumption.
  2: { rewrite !slength_app. change (String.length ".") with 1%nat. lia. }
  destruct Hprefix as [-> | Hlast].
  - cbn [rev extnameLoop startDot endPos preDotState].
    change (0 =? 0) with true. rewrite orb_true_r. reflexivity.
  - destruct (lastChar_rev prefix SLASH Hlast) as [chars ->].
    rewrite extnameLoop_break. cbn [startDot endPos preDotState].
    change (0 =? 0) with true. rewrite orb_true_r. reflexivity.
Qed.

(** ** Lower case *)

Lemma lowerChar_idem (c : ascii) : lowerChar (lowerChar c) = lowerChar c.
Proof. destruct c as [[] [] [] [] [] [] [] []]; reflexivity. Qed.

Lemma lowerChar_slash (c : ascii) : lowerChar c = SLASH -> c = SLASH.
Proof.
  destruct c as [[] [] [] [] [] [] [] []]; intros H;
    solve [reflexivity | vm_compute in H; discriminate H].
Qed.

Lemma lowerChar_dot (c : ascii) : lowerChar c = DOT -> c = DOT.
Proof.
  destruct c as [[] [] [] [] [] [] [] []]; intros H;
    solve [reflexivity | vm_compute in H; discriminate H].
Qed.

Lemma toLowerCase_app (a b : string) :
  toLowerCase (a ++ b) = toLowerCase a ++ toLowerCase b.
Proof. induction a as [|c a IH]; simpl; [reflexivity | now rewrite IH]. Qed.

Lemma toLowerCase_idem (s : string) : toLowerCase (toLowerCase s) = toLowerCase s.
Proof.
  induction s as [|c s IH]; simpl; [reflexivity |].
  now rewrite lowerChar_idem, IH.
Qed.

Lemma without_toLowerCase (c : ascii) (s : string) :
  (forall x, lowerChar x = c -> x = c) ->
  without c s = true -> without c (toLowerCase s) = true.
Proof.
  intros Hc. induction s as [|x s IH]; simpl; [reflexivity |].
  destruct (decide (x = c)); [discriminate |].
  destruct (decide (lowerChar x = c)) as [E | _]; [apply Hc in E; contradiction |].
  exact IH.
Qed.

(** X19.  The type that [mimeFor] gives depends on the extension alone, and
    not on its case: for a name [stem.ext], where [stem] is not empty and
    does not end at a separator, and [ext] is not empty and has neither a
    separator nor a dot, [path.extname] is [.ext], and the type is that of
    any file with the extension in lower case. *)
Theorem mimeFor_by_extension (stem ext : string) :
  stem <> "" -> lastChar stem <> Some SLASH ->
  ext <> "" -> without SLASH ext = true -> without DOT ext = true ->
  pathExtname (stem ++ "." ++ ext) = "." ++ ext /\
  mimeFor (stem ++ "." ++ ext) = mimeFor ("f." ++ toLowerCase ext).
Proof.
  intros Hstem Hlast Hext Hs Hd.
  pose proof (pathExtname_extension stem ext Hstem Hlast Hext Hs Hd) as E.
  split; [exact E |].
  assert (E' : pathExtname ("f" ++ "." ++ toLowerCase ext) = "." ++ toLowerCase ext).
  { apply pathExtname_extension.
    - discriminate.
    - discriminate.
    - destruct ext; [congruence | discriminate].
    - apply without_toLowerCase; [exact lowerChar_slash | exact Hs].
    - apply without_toLowerCase; [exact lowerChar_dot | exact Hd]. }
  unfold mimeFor. change ("f." ++ toLowerCase ext) with ("f" ++ "." ++ toLowerCase ext).
  rewrite E, E', !toLowerCase_app, toLowerCase_idem. reflexivity.
Qed.

(** X20.  A file whose name has no dot, or whose only dot is the first
    character of the name, is served as [application/octet-stream],
    whatever the directory is called. *)
Theorem mimeFor_without_extension (prefix name : string) :
  prefix = "" \/ lastChar prefix = Some SLASH ->
  without SLASH name = true -> without DOT name = true ->
  (name <> "" -> mimeFor (prefix ++ name) = "application/octet-stream") /\
  mimeFor (prefix ++ "." ++ name) = "application/octet-stream".
Proof.
  intros Hprefix Hs Hd. split.
  - intros Hname. unfold mimeFor.
    rewrite (pathExtname_plain prefix name Hprefix Hname Hs Hd). reflexivity.
  - unfold mimeFor.
    rewrite (pathExtname_dotfile prefix name Hprefix Hs Hd). reflexivity.
Qed.

(** ** The start page *)

Lemma normalize_blanks (allow : bool) (n : nat) (stack : list string) :
  fold_left (normalizeStep allow) (repeat "" n) stack = stack.
Proof. induction n as [|n IH]; [reflexivity | exact IH]. Qed.

(** [path.normalize] keeps one separator at the end of a plain absolute
    path, of however many. *)
Lemma pathNormalize_dir (segments : list string) (blanks : nat) :
  Forall (fun s => plainSegment s = true) segments -> segments <> [] ->
  pathNormalize (absolutePath (segments ++ repeat "" (S blanks)))
  = absolutePath segments ++ "/".
Proof.
  intros Hall Hne. unfold pathNormalize.
  set (path := absolutePath (segments ++ repeat "" (S blanks))).
  destruct (decide (path = "")); [discriminate |]. cbv zeta.
  assert (Habs : bool_decide (firstChar path = Some SLASH) = true) by reflexivity.
  assert (Htrail : bool_decide (lastChar path = Some SLASH) = true).
  { apply bool_decide_eq_true_2. subst path.
    change (repeat "" (S blanks)) with ("" :: repeat "" blanks).
    rewrite repeat_cons, app_assoc, absolutePath_snoc.
    rewrite lastChar_app by discriminate. reflexivity. }
  rewrite Habs, Htrail. cbn [negb]. unfold normalizeString. subst path.
  rewrite absolutePath_join by (destruct segments; [congruence | discriminate]).
  rewrite split_join.
  2: discriminate.
  2: { constructor; [reflexivity |]. apply Forall_app. split.
       - apply plain_without_slash. exact Hall.
       - clear. induction (S blanks) as [|k IH]; constructor; [reflexivity | exact IH]. }
  change (fold_left (normalizeStep false) ("" :: segments ++ repeat "" (S blanks)) [])
    with (fold_left (normalizeStep false) (segments ++ repeat "" (S blanks)) []).
  rewrite fold_left_app, (normalize_plain false segments [] Hall), normalize_blanks.
  rewrite app_nil_r, rev_involutive.
  destruct (decide (join "/" segments = "")) as [E | _].
  - exfalso. destruct segments as [|s rest]; [congruence |].
    apply (join_nonempty s rest); [| exact E].
    apply plain_nonempty in Hall. apply Forall_cons in Hall. tauto.
  - unfold absolutePath. rewrite sapp_assoc. reflexivity.
Qed.

Section StartPage.

Variable decodeURIComponent : string -> outcome string.
Variable parents : list string.
Variable name : string.
Hypothesis Hparents : Forall (fun s => plainSegment s = true) parents.
Hypothesis Hname : plainSegment name = true.

Local Abbreviation root := (absolutePath (parents ++ [name])).

Lemma root_plain : Forall (fun s => plainSegment s = true) (parents ++ [name]).
Proof. apply Forall_app. split; [exact Hparents | repeat constructor; exact Hname]. Qed.

Lemma root_segments : (parents ++ [name])%list <> [].
Proof. destruct parents; discriminate. Qed.

Lemma safeJoin_root (request : string) :
  decodeURIComponent (hd "" (split "?"%char request)) = Ok "/" ->
  safeJoin decodeURIComponent root request = Ok (Some (root ++ "/")).
Proof.
  intros Hdec. unfold safeJoin. rewrite Hdec.
  change (removeNul "/") with "/".
  assert (Hjoin : pathJoin root "/" = root ++ "/").
  { unfold pathJoin. destruct (decide (root = "")); [discriminate |].
    destruct (decide ("/" = "")); [discriminate |].
    replace (root ++ "/" ++ "/")
      with (absolutePath ((parents ++ [name]) ++ repeat "" 2)).
    - apply pathNormalize_dir; [exact root_plain | exact root_segments].
    - change (repeat "" 2) with ([""] ++ [""])%list.
      rewrite app_assoc, !absolutePath_snoc.
      destruct (decide ((parents ++ [name]) ++ [""] = [])%list) as [E | _];
        [destruct parents; discriminate |].
      destruct (decide (parents ++ [name] = [])%list) as [E | _];
        [destruct parents; discriminate |].
      destruct (decide (parents = [])); rewrite !sapp_assoc, ?sapp_nil_r;
        reflexivity. }
  assert (Hnorm : pathNormalize (root ++ "/") = root ++ "/").
  { replace (root ++ "/") with (absolutePath ((parents ++ [name]) ++ repeat "" 1)) at 1.
    - apply pathNormalize_dir; [exact root_plain | exact root_segments].
    - change (repeat "" 1) with [""].
      rewrite (absolutePath_snoc (parents ++ [name]) "").
      destruct (decide (parents ++ [name] = [])%list) as [E | _];
        [destruct parents; discriminate |].
      reflexivity. }
  rewrite Hjoin, Hnorm, startsWith_app. reflexivity.
Qed.

Lemma pathJoin_index : pathJoin root "index.html" = root ++ "/index.html".
Proof.
  unfold pathJoin. destruct (decide (root = "")); [discriminate |].
  destruct (decide ("index.html" = "")); [discriminate |].
  assert (E : root ++ "/" ++ "index.html"
              = absolutePath ((parents ++ [name]) ++ ["index.html"])).
  { rewrite (absolutePath_snoc (parents ++ [name]) "index.html").
    destruct (decide (parents ++ [name] = [])%list) as [E | _];
      [destruct parents; discriminate |].
    reflexivity. }
  rewrite E, pathNormalize_plain.
  - rewrite <- E. reflexivity.
  - apply Forall_app. split; [exact root_plain |]. repeat constructor.
Qed.

Lemma mimeFor_index : mimeFor (root ++ "/index.html") = "text/html; charset=utf-8".
Proof.
  unfold mimeFor.
  replace (root ++ "/index.html") with ((root ++ "/index") ++ "." ++ "html")
    by (rewrite sapp_assoc; reflexivity).
  assert (E : pathExtname ((root ++ "/index") ++ "." ++ "html") = "." ++ "html").
  { apply pathExtname_extension.
    - unfold absolutePath. simpl. discriminate.
    - rewrite lastChar_app by discriminate. discriminate.
    - discriminate.
    - reflexivity.
    - reflexivity. }
  rewrite E. reflexivity.
Qed.

Lemma index_plain : endsInSeparator (root ++ "/index.html") = false.
Proof.
  unfold endsInSeparator. rewrite lastChar_app by discriminate.
  rewrite bool_decide_eq_false_2 by discriminate. reflexivity.
Qed.

(** X21.  The start page: a [GET] request for the path [/], or for no path,
    is answered with the file [index.html] of the root directory as
    [text/html], and with the status 404 when there is nothing at that
    path.  The root is an absolute path of plain segments, and
    [decodeURIComponent] leaves [/] as it is. *)
Theorem listener_start_page (umask : Z) (mtimeISO : string -> string)
    (LOG_FILE : option string) (now : string)
    (systemMessage : string -> string -> string) (nullMessage : string -> string)
    (chunkText : string -> string) (JSONparse : string -> option json)
    (tempCss tempJs : string) (req : request) (fs : fsmap) :
  method req = "GET" ->
  pathname req = "/" \/ pathname req = "" ->
  decodeURIComponent "/" = Ok "/" ->
  let answer :=
    requestListener umask mtimeISO LOG_FILE now root systemMessage nullMessage
      decodeURIComponent chunkText JSONparse tempCss tempJs req fs in
  (fs !! (root ++ "/index.html") = None ->
   answer = (Ok (SendText 404 "Not Found"), fs))
  /\ (forall content mode,
        fs !! (root ++ "/index.html") = Some (File content mode) ->
        answer = (Ok (SendFile "text/html; charset=utf-8" content), fs)).
Proof.
  intros Hm Hpath Hdec answer. subst answer. unfold requestListener.
  assert (Hp : match pathname req with EmptyString => "/" | p => p end = "/")
    by (destruct Hpath as [-> | ->]; reflexivity).
  rewrite Hp, Hm.
  change (startsWith "/" "/api/") with false.
  cbn [negb String.eqb Ascii.eqb Bool.eqb andb].
  unfold handleStatic. unfold bind at 1.
  rewrite (safeJoin_root "/" Hdec).
  cbn [String.eqb Ascii.eqb Bool.eqb orb]. cbn iota.
  rewrite pathJoin_index, (statPath_plain _ index_plain).
  split.
  - intros Hn. unfold_fs. fs_eval. reflexivity.
  - intros content mode Hf. unfold_fs. fs_eval. rewrite mimeFor_index. reflexivity.
Qed.

End StartPage.

(** * The server at concrete inputs *)

Lemma listener_api_answers_witness :
  exists r fs',
    requestListener 18 noTime (Some infoLog) "" "/app/www" codeAndPath nullRead
      decodePlain ownText parseKnown tempA tempB
      (Request "DELETE" "/api/status" []) fsPage = (Ok r, fs')
    /\ jsonReply r.
Proof. apply listener_api_answers. reflexivity. Defined.

Lemma inject_endpoint_blank_witness :
  requestListener 18 noTime (Some infoLog) "" "/app/www" codeAndPath nullRead
    decodePlain ownText parseBlank tempA tempB
    (Request "POST" "/api/inject" ["{}"]) fsPage
  = (Ok (SendJson 400 false (Some "未提供任何 CSS/JS 内容") None), (prologue fsPage).2)
  /\ exists content mode,
       (prologue fsPage).2 !! INDEX_FILE = Some (File content mode)
       /\ (prologue fsPage).2 !! BACKUP_FILE = Some (File content mode).
Proof.
  apply (inject_endpoint_blank 18 noTime (Some infoLog) "" "/app/www" codeAndPath
           nullRead decodePlain ownText parseBlank tempA tempB ["{}"]
           (JObject [("cssText", JString "  "); ("jsPath", JNumber "7")])
           fsPage (prologue fsPage).2).
  - vm_compute. reflexivity.
  - discriminate.
  - vm_compute. reflexivity.
  - vm_compute. reflexivity.
Defined.

Lemma doubled_length (k : nat) (s : string) :
  String.length (doubled k s) = (2 ^ k * String.length s)%nat.
Proof.
  revert s. induction k as [|k IH]; intros s.
  - simpl. lia.
  - cbn [doubled]. rewrite IH, slength_app. rewrite Nat.pow_succ_r'. lia.
Qed.

Lemma totalBytes_repeat (chunk : string) (n : nat) :
  totalBytes (repeat chunk n) = Z.of_nat n * Z.of_nat (String.length chunk).
Proof.
  induction n as [|n IH]; [reflexivity |].
  cbn [repeat totalBytes fold_right]. fold (totalBytes (repeat chunk n)).
  rewrite IH. lia.
Qed.

Lemma oversized_total : totalBytes oversized = 21 * 1024 * 1024.
Proof.
  unfold oversized. rewrite totalBytes_repeat, doubled_length. reflexivity.
Qed.

Lemma inject_endpoint_bad_body_witness :
  (exists fs',
     requestListener 18 noTime (Some infoLog) "" "/app/www" codeAndPath nullRead
       decodePlain ownText parseKnown tempA tempB
       (Request "POST" "/api/inject" oversized) fsPage
     = (Ok (SendJson 500 false (Some "请求体过大") None), fs')
     /\ forall path, Some path <> Some infoLog -> fs' !! path = fsPage !! path)
  /\ (exists fs',
     requestListener 18 noTime (Some infoLog) "" "/app/www" codeAndPath nullRead
       decodePlain ownText parseKnown tempA tempB
       (Request "POST" "/api/inject" notJson) fsPage
     = (Ok (SendJson 500 false (Some "JSON 解析失败") None), fs')
     /\ forall path, Some path <> Some infoLog -> fs' !! path = fsPage !! path)
  /\ (exists fs',
     requestListener 18 noTime (Some infoLog) "" "/app/www" codeAndPath nullRead
       decodePlain ownText parseKnown tempA tempB
       (Request "POST" "/api/inject" ["nu"; "ll"]) fsPage
     = (Ok (SendJson 500 false (Some "null.cssText") None), fs')
     /\ forall path, Some path <> Some infoLog -> fs' !! path = fsPage !! path).
Proof.
  split; [| split].
  - pose proof (inject_endpoint_bad_body 18 noTime (Some infoLog) "" "/app/www"
                  codeAndPath nullRead decodePlain ownText parseKnown tempA tempB
                  oversized fsPage) as H.
    cbv zeta in H. apply (proj1 H). rewrite oversized_total. reflexivity.
  - pose proof (inject_endpoint_bad_body 18 noTime (Some infoLog) "" "/app/www"
                  codeAndPath nullRead decodePlain ownText parseKnown tempA tempB
                  notJson fsPage) as H.
    cbv zeta in H. apply (proj1 (proj2 H)).
    + vm_compute. discriminate.
    + vm_compute. discriminate.
    + vm_compute. reflexivity.
  - pose proof (inject_endpoint_bad_body 18 noTime (Some infoLog) "" "/app/www"
                  codeAndPath nullRead decodePlain ownText parseKnown tempA tempB
                  ["nu"; "ll"] fsPage) as H.
    cbv zeta in H. apply (proj2 (proj2 H)).
    + vm_compute. discriminate.
    + vm_compute. discriminate.
    + vm_compute. reflexivity.
Defined.

Lemma restore_endpoint_witness :
  (exists fs',
     requestListener 18 noTime (Some infoLog) "" "/app/www" codeAndPath nullRead
       decodePlain ownText parseKnown tempA tempB
       (Request "POST" "/api/restore" []) fsPage
     = (Ok (SendJson 500 false (Some "未找到备份文件") None), fs')
     /\ forall path, Some path <> Some infoLog -> fs' !! path = fsPage !! path)
  /\ requestListener 18 noTime (Some infoLog) "" "/app/www" codeAndPath nullRead
       decodePlain ownText parseKnown tempA tempB
       (Request "POST" "/api/restore" []) fsPatched
     = (Ok (SendJson 200 true (Some "已还原至官方默认状态") None),
        <[INDEX_FILE := File headOnly MODE_644]> fsPatched).
Proof.
  split.
  - pose proof (restore_endpoint 18 noTime (Some infoLog) "" "/app/www"
                  codeAndPath nullRead decodePlain ownText parseKnown tempA tempB
                  [] fsPage) as H.
    cbv zeta in H. apply (proj1 H). vm_compute. reflexivity.
  - pose proof (restore_endpoint 18 noTime (Some infoLog) "" "/app/www"
                  codeAndPath nullRead decodePlain ownText parseKnown tempA tempB
                  [] fsPatched) as H.
    cbv zeta in H. apply (proj2 H headOnly 420).
    + vm_compute. reflexivity.
    + vm_compute. reflexivity.
Defined.

Lemma listener_static_readonly_witness :
  (requestListener 18 noTime (Some infoLog) "" "/app/www" codeAndPath nullRead
     decodePlain ownText parseKnown tempA tempB
     (Request "POST" "/docs/index.html" []) fsWww).2 = fsWww.
Proof. apply listener_static_readonly. reflexivity. Defined.

Lemma handleStatic_answers_witness :
  handleStatic "/app/www" decodePlain "/missing.txt" fsWww
  = (Ok (SendText 404 "Not Found"), fsWww)
  /\ handleStatic "/app/www" decodePlain "/assets/App.JS?v=2" fsWww
     = (Ok (SendFile "application/javascript; charset=utf-8" "void 0"), fsWww)
  /\ handleStatic "/app/www" decodePlain "/assets/App.JS/" fsWww
     = (Ok (SendText 404 "Not Found"), fsWww)
  /\ handleStatic "/app/www" decodePlain "/docs" fsWww
     = (Ok (SendFile "text/html; charset=utf-8" "<p>docs</p>"), fsWww)
  /\ handleStatic "/app/www" decodePlain "/docs/" fsWww
     = (Ok (SendFile "text/html; charset=utf-8" "<p>docs</p>"), fsWww)
  /\ handleStatic "/app/www" decodePlain "/assets" fsWww
     = (Ok (SendText 500 "Internal Server Error"), fsWww)
  /\ handleStatic "/app/www" decodePlain "/assets/" fsWww
     = (Ok (SendText 500 "Internal Server Error"), fsWww).
Proof.
  split; [| split; [| split; [| split; [| split; [| split]]]]].
  - pose proof (handleStatic_answers "/app/www" decodePlain "/missing.txt"
                  "/app/www/missing.txt" fsWww) as H.
    cbv zeta in H.
    apply (proj1 (H ltac:(vm_compute; reflexivity) ltac:(discriminate)
                    ltac:(discriminate))).
    vm_compute. reflexivity.
  - pose proof (handleStatic_answers "/app/www" decodePlain "/assets/App.JS?v=2"
                  "/app/www/assets/App.JS" fsWww) as H.
    cbv zeta in H.
    apply (proj1 (proj2 (H ltac:(vm_compute; reflexivity) ltac:(discriminate)
                           ltac:(discriminate))) "void 0" 420).
    vm_compute. reflexivity.
  - pose proof (handleStatic_answers "/app/www" decodePlain "/assets/App.JS/"
                  "/app/www/assets/App.JS/" fsWww) as H.
    cbv zeta in H.
    apply (proj1 (proj2 (H ltac:(vm_compute; reflexivity) ltac:(discriminate)
                           ltac:(discriminate))) "void 0" 420).
    vm_compute. reflexivity.
  - pose proof (handleStatic_answers "/app/www" decodePlain "/docs"
                  "/app/www/docs" fsWww) as H.
    cbv zeta in H.
    apply (proj1 (proj2 (proj2 (H ltac:(vm_compute; reflexivity) ltac:(discriminate)
                                  ltac:(discriminate)))) "<p>docs</p>" 420).
    + vm_compute. reflexivity.
    + vm_compute. reflexivity.
  - pose proof (handleStatic_answers "/app/www" decodePlain "/docs/"
                  "/app/www/docs/" fsWww) as H.
    cbv zeta in H.
    apply (proj1 (proj2 (proj2 (H ltac:(vm_compute; reflexivity) ltac:(discriminate)
                                  ltac:(discriminate)))) "<p>docs</p>" 420).
    + vm_compute. reflexivity.
    + vm_compute. reflexivity.
  - pose proof (handleStatic_answers "/app/www" decodePlain "/assets"
                  "/app/www/assets" fsWww) as H.
    cbv zeta in H.
    apply (proj2 (proj2 (proj2 (H ltac:(vm_compute; reflexivity) ltac:(discriminate)
                                  ltac:(discriminate))))).
    + vm_compute. reflexivity.
    + vm_compute. reflexivity.
  - pose proof (handleStatic_answers "/app/www" decodePlain "/assets/"
                  "/app/www/assets/" fsWww) as H.
    cbv zeta in H.
    apply (proj2 (proj2 (proj2 (H ltac:(vm_compute; reflexivity) ltac:(discriminate)
                                  ltac:(discriminate))))).
    + vm_compute. reflexivity.
    + vm_compute. reflexivity.
Defined.

Lemma listener_malformed_path_witness :
  requestListener 18 noTime (Some infoLog) "" "/app/www" codeAndPath nullRead
    decodeNoEscape ownText parseKnown tempA tempB
    (Request "GET" "/100%" []) fsWww
  = (Throw (Error "URI malformed"), fsWww).
Proof.
  apply listener_malformed_path.
  - reflexivity.
  - discriminate.
  - reflexivity.
  - vm_compute. reflexivity.
Defined.

Lemma safeJoin_sibling_witness :
  safeJoin decodePlain "/app/www" "/../www-old/secret.txt?x"
  = Ok (Some "/app/www-old/secret.txt")
  /\ startsWith "/app/www-old/secret.txt" "/app/www/" = false.
Proof.
  apply (safeJoin_sibling decodePlain ["app"] "www" "-old" "secret.txt"
           "/../www-old/secret.txt?x").
  - constructor; [reflexivity | constructor].
  - reflexivity.
  - reflexivity.
  - discriminate.
  - reflexivity.
  - vm_compute. reflexivity.
Defined.

Lemma safeJoin_plain_witness :
  safeJoin decodePlain "/app/www" "/docs/index.html?lang=en"
  = Ok (Some "/app/www/docs/index.html")
  /\ safeJoin decodePlain "/app/www" "/.." = Ok None.
Proof.
  split.
  - pose proof (safeJoin_plain decodePlain ["app"] "www" ["docs"; "index.html"]
                  "/docs/index.html?lang=en") as H.
    cbv zeta in H.
    apply (proj1 (H ltac:(constructor; [reflexivity | constructor])
                    ltac:(reflexivity))).
    + constructor; [reflexivity | constructor; [reflexivity | constructor]].
    + discriminate.
    + vm_compute. reflexivity.
  - pose proof (safeJoin_plain decodePlain ["app"] "www" [] "/..") as H.
    cbv zeta in H.
    apply (proj2 (H ltac:(constructor; [reflexivity | constructor])
                    ltac:(reflexivity))).
    vm_compute. reflexivity.
Defined.

Lemma mimeFor_by_extension_witness :
  pathExtname "/app/www/v1.2/Index.HTML" = ".HTML"
  /\ mimeFor "/app/www/v1.2/Index.HTML" = mimeFor "f.html".
Proof.
  apply (mimeFor_by_extension "/app/www/v1.2/Index" "HTML").
  - discriminate.
  - vm_compute. discriminate.
  - discriminate.
  - reflexivity.
  - reflexivity.
Defined.

Lemma mimeFor_without_extension_witness :
  mimeFor "/app/www.d/LICENSE" = "application/octet-stream"
  /\ mimeFor "/app/www.d/.LICENSE" = "application/octet-stream".
Proof.
  pose proof (mimeFor_without_extension "/app/www.d/" "LICENSE") as H.
  destruct H as [H1 H2]; [right; reflexivity | reflexivity | reflexivity |].
  split; [apply H1; discriminate | exact H2].
Defined.

Lemma listener_start_page_witness :
  requestListener 18 noTime (Some infoLog) "" "/app/www" codeAndPath nullRead
    decodePlain ownText parseKnown tempA tempB (Request "GET" "" []) fsPage
  = (Ok (SendText 404 "Not Found"), fsPage)
  /\ requestListener 18 noTime (Some infoLog) "" "/app/www" codeAndPath nullRead
       decodePlain ownText parseKnown tempA tempB (Request "GET" "/" []) fsWww
     = (Ok (SendFile "text/html; charset=utf-8" "<html></html>"), fsWww).
Proof.
  split.
  - pose proof (listener_start_page decodePlain ["app"] "www"
                  ltac:(constructor; [reflexivity | constructor]) ltac:(reflexivity)
                  18 noTime (Some infoLog) "" codeAndPath nullRead ownText
                  parseKnown tempA tempB (Request "GET" "" []) fsPage
                  ltac:(reflexivity) ltac:(right; reflexivity) ltac:(reflexivity))
      as H.
    cbv zeta in H. apply (proj1 H). vm_compute. reflexivity.
  - pose proof (listener_start_page decodePlain ["app"] "www"
                  ltac:(constructor; [reflexivity | constructor]) ltac:(reflexivity)
                  18 noTime (Some infoLog) "" codeAndPath nullRead ownText
                  parseKnown tempA tempB (Request "GET" "/" []) fsWww
                  ltac:(reflexivity) ltac:(left; reflexivity) ltac:(reflexivity))
      as H.
    cbv zeta in H. apply (proj2 H "<html></html>" 420). vm_compute. reflexivity.
Defined.
